(** * humane-searcher: query compiler, response processor and rankers

    A shallow embedding of [Searcher.js] (classes [SearcherInternal] and
    [Searcher]) and the properties of its query compiler, response
    processor, multi-type merge, intent cascade, relevancy-deflection ranker
    and error boundary.

    Conventions of the embedding
    - JavaScript values that the code inspects dynamically (request filter
      values, compiled query documents, thrown values) are terms of [jsval];
      an object is the list of its properties in insertion order.
    - The numbers of a JSON document, of a configuration and of a compiled
      clause are rationals ([Q]), the counts and durations of a response
      integers ([Z]).  The arithmetic on scores is the arithmetic of IEEE 754
      doubles, as [SpecFloat] specifies it: a score or weight enters it as
      the double nearest to the number of the document ([doubleOfQ]).
    - A call that throws the [TypeError] of a property read off [null]
      returns [None].
    - [this] is passed explicitly as a [SearcherInternal] record.
    - A [forEach] over an array with mutated locals is a left fold over the
      locals. *)

From Stdlib Require Import QArith ZArith Lia SpecFloat.
From stdpp Require Import gmap strings list sorting.

Set Warnings "-register-all".

Local Open Scope string_scope.
Local Open Scope list_scope.
Local Open Scope Z_scope.

(** ** JavaScript values *)

Inductive jsval : Type :=
| VUndefined
| VNull
| VBool (b : bool)
| VNum (q : Q)
| VStr (s : string)
| VArr (items : list jsval)
| VObj (props : list (string * jsval)).

(** [!!v] *)
Definition truthy (v : jsval) : bool :=
  match v with
  | VUndefined | VNull => false
  | VBool b => b
  | VNum q => negb (Qeq_bool q 0)
  | VStr s => negb (String.eqb s "")
  | VArr _ | VObj _ => true
  end.

(** [_.isObject], [_.isArray] *)
Definition isObject (v : jsval) : bool :=
  match v with VArr _ | VObj _ => true | _ => false end.

Definition isArray (v : jsval) : bool :=
  match v with VArr _ => true | _ => false end.

(** [obj[key]] on a property list: the first binding of [key]. *)
Fixpoint assoc {A : Type} (key : string) (ps : list (string * A)) : option A :=
  match ps with
  | [] => None
  | (k, x) :: rest => if String.eqb k key then Some x else assoc key rest
  end.

(** [obj[key] = x]: an existing property keeps its place, a new one is
    appended. *)
Fixpoint assign {A : Type} (key : string) (x : A) (ps : list (string * A))
  : list (string * A) :=
  match ps with
  | [] => [(key, x)]
  | (k, y) :: rest =>
      if String.eqb k key then (k, x) :: rest else (k, y) :: assign key x rest
  end.

(** [v.key] for a key the code reads from a request value, a clause or an
    error: only a plain object has such a property, every other value
    gives [undefined] (the elements of a range value are objects, so none
    is read off [null]). *)
Definition prop (v : jsval) (key : string) : jsval :=
  match v with
  | VObj ps => default VUndefined (assoc key ps)
  | _ => VUndefined
  end.

(** [v === 'literal'] *)
Definition isStr (v : jsval) (s : string) : bool :=
  match v with VStr t => String.eqb t s | _ => false end.

(** [a === b] between a request value and a configured key: primitives
    compare by value, two distinct objects are never identical. *)
Definition strictEq (a b : jsval) : bool :=
  match a, b with
  | VUndefined, VUndefined | VNull, VNull => true
  | VBool x, VBool y => Bool.eqb x y
  | VNum x, VNum y => Qeq_bool x y
  | VStr x, VStr y => String.eqb x y
  | _, _ => false
  end.

(** [a || b] *)
Definition jsOr (a b : jsval) : jsval := if truthy a then a else b.

Definition ofOptBool (o : option bool) : jsval :=
  match o with Some b => VBool b | None => VUndefined end.

Definition ofOptNum (o : option Q) : jsval :=
  match o with Some q => VNum q | None => VUndefined end.

Definition ofOptStr (o : option string) : jsval :=
  match o with Some s => VStr s | None => VUndefined end.

(** Truthiness of an optional flag of a configuration object. *)
Definition flag (o : option bool) : bool := default false o.

(** ** JavaScript arithmetic on scores *)

(** A JavaScript number: an IEEE 754 double, in the representation of
    [SpecFloat] for a precision of 53 bits and exponents below 1024. *)
Definition double : Type := spec_float.

(** The double nearest to a rational, ties to even: the value of a number
    of a JSON document and of a numeric literal.  The quotient is taken
    with more bits than a double holds, the rest of the division is kept
    as one more bit, and the result is rounded once. *)
Definition doubleOfQ (q : Q) : double :=
  let n := Z.abs (Qnum q) in
  let d := Zpos (Qden q) in
  let k := Z.max 0 (Z.log2 d - Z.log2 n + 57) in
  let scaled := n * 2 ^ k in
  let sticky := if scaled mod d =? 0 then 0 else 1 in
  let m := 2 * (scaled / d) + sticky in
  binary_normalize 53 1024 (if Qnum q <? 0 then - m else m) (- k - 1) false.

(** [a * b], [a / b], [a < b], [a <= b], [a > b], [a >= b] *)
Definition jsMul (a b : double) : double := SFmul 53 1024 a b.

Definition jsDiv (a b : double) : double := SFdiv 53 1024 a b.

Definition jsLt (a b : double) : bool := SFltb a b.

Definition jsLe (a b : double) : bool := SFleb a b.

Definition jsGt (a b : double) : bool := SFltb b a.

Definition jsGe (a b : double) : bool := SFleb b a.

(** [!!x] for a number: neither a zero nor [NaN]. *)
Definition truthyNumber (x : double) : bool :=
  match x with
  | S754_zero _ | S754_nan => false
  | _ => true
  end.

Definition isNaN (x : double) : bool :=
  match x with S754_nan => true | _ => false end.

(** The number a score is in arithmetic: the double of the number of the
    response, and [+0] for [null]. *)
Definition toNumber (score : option Q) : double :=
  match score with
  | Some q => doubleOfQ q
  | None => S754_zero false
  end.

(** Numbers of the request that may be absent; an absent operand makes the
    arithmetic result [NaN], and every comparison with [NaN] is false. *)
Definition numMul (a b : option Z) : option Z :=
  match a, b with Some x, Some y => Some (x * y) | _, _ => None end.

Definition numAdd (a b : option Z) : option Z :=
  match a, b with Some x, Some y => Some (x + y) | _, _ => None end.

Definition numLt (a b : option Z) : bool :=
  match a, b with Some x, Some y => x <? y | _, _ => false end.

(** ** The searcher instance *)

Record SearcherInternal := {
  instanceName : string
}.

(** ** Backend responses and processed hits *)

(** A hit, before and after [_processSource]: the identity fields and the
    document.  The score is a number or [null] (as in a response sorted by
    a field); the document is an object, or missing from the hit.  The
    properties of a processed hit are the identity fields and, in
    [_source], the properties of the cleaned document. *)
Record Hit := {
  _id : string;
  _score : option Q;
  _type : string;
  _weight : option Q;
  _version : option Z;
  _source : option (list (string * jsval));
  _relevancyScore : option double
}.

Record HitsEnvelope := {
  total : option Z;
  hits_hits : option (list Hit)
}.

Record Response := {
  hits : option HitsEnvelope;
  took : Z
}.

(** The request. *)
Record Input := {
  input_text : option string;
  input_filter : option (gmap string jsval);
  input_sort : jsval;
  input_page : option Z;
  input_count : option Z;
  input_lang : jsval;
  input_fuzzySearch : bool
}.

Definition startsWith (s pre : string) : bool := String.prefix pre s.

Definition endsWith (s suf : string) : bool :=
  String.prefix (String.rev suf) (String.rev s).

Definition isCarDekho (this : SearcherInternal) : bool :=
  String.eqb (instanceName this) "carDekho"
  || String.eqb (instanceName this) "carDekhoV2".

(** The predicate of [omitBy] in [_deepOmit]. *)
Definition omitted (this : SearcherInternal) (key : string) : bool :=
  (startsWith key "__" && endsWith key "__")
  || (isCarDekho this
      && (String.eqb key "features" || String.eqb key "colors"
          || String.eqb key "content")).

Fixpoint _deepOmit (this : SearcherInternal) (source : jsval) : jsval :=
  match source with
  | VArr items => VArr (map (_deepOmit this) items)
  | VObj props =>
      VObj ((fix go (ps : list (string * jsval)) : list (string * jsval) :=
               match ps with
               | [] => []
               | (key, value) :: rest =>
                   if omitted this key then go rest
                   else (key, _deepOmit this value) :: go rest
               end) props)
  | _ => source
  end.

Definition isStatsKey (key : string) : bool :=
  String.eqb key "_hourlyStats" || String.eqb key "_dailyStats"
  || String.eqb key "_weeklyStats" || String.eqb key "_monthlyStats".

(** [_.omit(childValue, 'lastNStats')] and the [_.mapValues] around it, for
    the statistics objects (objects of objects) the indexer writes. *)
Definition omitLastNStats (childValue : jsval) : jsval :=
  match childValue with
  | VObj ps =>
      VObj (List.filter (fun kv => negb (String.eqb (fst kv) "lastNStats")) ps)
  | _ => VObj []
  end.

Definition stripStats (value : jsval) : jsval :=
  match value with
  | VObj ps => VObj (map (fun kv => (fst kv, omitLastNStats (snd kv))) ps)
  | _ => VObj []
  end.

Definition numField (key : string) (ps : list (string * jsval)) : option Q :=
  match assoc key ps with
  | Some (VNum q) => Some q
  | _ => None
  end.

(** The document of a hit after [_deepOmit] and the removal of
    [lastNStats] from the statistics. *)
Definition cleanSource (this : SearcherInternal)
    (document : list (string * jsval)) : list (string * jsval) :=
  let source :=
    match _deepOmit this (VObj document) with
    | VObj ps => ps
    | _ => []
    end in
  map (fun kv => if isStatsKey (fst kv) then (fst kv, stripStats (snd kv))
                 else kv) source.

(** [_processSource]: [null] ([None]) for a hit without a document;
    otherwise the cleaned document with the identity fields of the hit laid
    over it; a [_weight] the hit does not have is the document's. *)
Definition _processSource (this : SearcherInternal) (hit : Hit) : option Hit :=
  match _source hit with
  | None => None
  | Some document =>
      let source := cleanSource this document in
      Some {| _id := _id hit;
              _score := _score hit;
              _type := _type hit;
              _weight := match _weight hit with
                         | Some w => Some w
                         | None => numField "_weight" source
                         end;
              _version := _version hit;
              _source := Some source;
              _relevancyScore := _relevancyScore hit |}
  end.

(** The condition of the relevancy cliff filter:
    [previousScore == null || (hitOut._score * 1.0) / previousScore > 0.40]. *)
Definition aboveCliff (previousScore score : option Q) : bool :=
  match previousScore with
  | None => true
  | Some previous =>
      jsGt (jsDiv (jsMul (toNumber score) (doubleOfQ 1)) (doubleOfQ previous))
           (doubleOfQ (40 # 100))
  end.

(** One turn of the loop over [response.hits.hits]; the locals are
    [results] and [previousScore].  For a hit without a document
    [hitOut] is [null], and reading [hitOut._score] throws. *)
Definition cliffStep (this : SearcherInternal)
    (locals : list Hit * option Q) (hit : Hit)
  : option (list Hit * option Q) :=
  match _processSource this hit with
  | None => None
  | Some hitOut =>
      if aboveCliff (snd locals) (_score hitOut)
      then Some (fst locals ++ [hitOut], _score hitOut)
      else Some locals
  end.

Fixpoint cliffFrom (this : SearcherInternal) (locals : list Hit * option Q)
    (hs : list Hit) : option (list Hit * option Q) :=
  match hs with
  | [] => Some locals
  | hit :: rest =>
      match cliffStep this locals hit with
      | None => None
      | Some locals => cliffFrom this locals rest
      end
  end.

Definition cliffLoop (this : SearcherInternal) (hs : list Hit)
  : option (list Hit * option Q) :=
  cliffFrom this ([], None) hs.

(** [response.hits && response.hits.hits], as the list the loop runs over. *)
Definition responseHits (response : Response) : list Hit :=
  match hits response with
  | Some envelope => default [] (hits_hits envelope)
  | None => []
  end.

(** [_.get(response, 'hits.total', 0)] *)
Definition responseTotal (response : Response) : Z :=
  match hits response with
  | Some envelope => default 0 (total envelope)
  | None => 0
  end.

(** [_baseUrl]: the API and the request parameters [qs.stringify] writes
    out; a page link adds [&page=n]. *)
Record BaseUrl := {
  url_api : string;
  url_text : option string;
  url_filter : option (gmap string jsval);
  url_sort : jsval;
  url_type : option string
}.

Definition _baseUrl (input : Input) (type : option string) (apiType : string)
  : BaseUrl :=
  {| url_api := apiType;
     url_text := input_text input;
     url_filter := input_filter input;
     url_sort := input_sort input;
     url_type := type |}.

Record PageLink := {
  page : Z;
  url : BaseUrl * Z
}.

Definition prevPageOf (baseUrl : BaseUrl) (input : Input) : option PageLink :=
  match input_page input with
  | Some p =>
      if 0 <? p then Some {| page := p - 1; url := (baseUrl, p - 1) |}
      else None
  | None => None
  end.

Definition nextPageOf (baseUrl : BaseUrl) (input : Input)
    (count totalResults : Z) : option PageLink :=
  match input_page input with
  | Some p =>
      if numLt (numAdd (numMul (input_count input) (Some p)) (Some count))
               (Some totalResults)
      then Some {| page := p + 1; url := (baseUrl, p + 1) |}
      else None
  | None => None
  end.

(** The result of [_processResponse]; [summaries] and [facets], which are
    read off the aggregations alone, are left out. *)
Record Result := {
  type : option string;
  resultType : option string;
  results : list Hit;
  queryTimeTaken : Z;
  totalResults : Z;
  count : Z;
  prevPage : option PageLink;
  nextPage : option PageLink
}.

(** The result for the hits the cliff filter has kept. *)
Definition resultOf (response : Response) (type : option string)
    (input : Input) (apiType : string) (results : list Hit) : Result :=
  let baseUrl := _baseUrl input type apiType in
  let count := Z.of_nat (length results) in
  let totalResults := responseTotal response in
  {| type := type;
     resultType := type;
     results := results;
     queryTimeTaken := took response;
     totalResults := totalResults;
     count := count;
     prevPage := prevPageOf baseUrl input;
     nextPage := nextPageOf baseUrl input count totalResults |}.

(** [_processResponse]; [None] when the loop over the hits throws. *)
Definition _processResponse (this : SearcherInternal) (response : Response)
    (type : option string) (input : Input) (apiType : string)
  : option Result :=
  match cliffLoop this (responseHits response) with
  | None => None
  | Some locals => Some (resultOf response type input apiType (fst locals))
  end.

(** ** Multi-type merge *)

Record MergedResult := {
  multi : bool;
  merged_totalResults : Z;
  merged_results : list (string * Result);
  searchText : option string;
  merged_filter : option (gmap string jsval);
  merged_sort : jsval;
  merged_page : option Z;
  merged_count : Z;
  merged_queryTimeTaken : option Z;
  merged_prevPage : option PageLink;
  merged_nextPage : option PageLink
}.

(** [types && _.isArray(types) && types.length > index && types[index]];
    an entry of [types] is absent when the type configuration names no
    index type. *)
Definition typeAt (types : list (option string)) (index : nat)
  : option string :=
  mjoin (types !! index).

(** The key under which a result is stored, when [result.type] is truthy. *)
Definition typeKey (type : option string) : option string :=
  match type with
  | Some s => if String.eqb s "" then None else Some s
  | None => None
  end.

(** The guard of the merge loop, negated: the result has a type and at
    least one kept hit. *)
Definition isMerged (result : Result) : bool :=
  match typeKey (type result), results result with
  | Some _, _ :: _ => true
  | _, _ => false
  end.

(** The body of the loop over [responses.responses] for the result of
    one response. *)
Definition mergeResult (mergedResult : MergedResult) (result : Result)
  : MergedResult :=
  match typeKey (type result), results result with
  | Some key, _ :: _ =>
      {| multi := multi mergedResult;
         merged_totalResults :=
           merged_totalResults mergedResult + totalResults result;
         merged_results := assign key result (merged_results mergedResult);
         searchText := searchText mergedResult;
         merged_filter := merged_filter mergedResult;
         merged_sort := merged_sort mergedResult;
         merged_page := merged_page mergedResult;
         merged_count :=
           merged_count mergedResult + Z.of_nat (length (results result));
         merged_queryTimeTaken :=
           Some (Z.max (default 0 (merged_queryTimeTaken mergedResult))
                       (queryTimeTaken result));
         merged_prevPage := merged_prevPage mergedResult;
         merged_nextPage := merged_nextPage mergedResult |}
  | _, _ => mergedResult
  end.

(** One turn of the loop over [responses.responses]; [None] when
    [_processResponse] throws. *)
Definition mergeStep (this : SearcherInternal) (types : list (option string))
    (input : Input) (apiType : string)
    (mergedResult : MergedResult) (index : nat) (response : Response)
  : option MergedResult :=
  match _processResponse this response (typeAt types index) input apiType with
  | None => None
  | Some result => Some (mergeResult mergedResult result)
  end.

Fixpoint mergeLoop (this : SearcherInternal) (types : list (option string))
    (input : Input) (apiType : string)
    (mergedResult : MergedResult) (index : nat) (responses : list Response)
  : option MergedResult :=
  match responses with
  | [] => Some mergedResult
  | response :: rest =>
      match mergeStep this types input apiType mergedResult index response with
      | None => None
      | Some mergedResult =>
          mergeLoop this types input apiType mergedResult (S index) rest
      end
  end.

(** [processMultipleSearchResponse]: [None] when the loop throws,
    [Some None] for the [null] returned without responses, and the merged
    result otherwise. *)
Definition processMultipleSearchResponse (this : SearcherInternal)
    (responses : option (list Response)) (types : list (option string))
    (input : Input) (apiType : string) : option (option MergedResult) :=
  match responses with
  | None => Some None
  | Some responses =>
      match
        mergeLoop this types input apiType
          {| multi := true;
             merged_totalResults := 0;
             merged_results := [];
             searchText := input_text input;
             merged_filter := input_filter input;
             merged_sort := input_sort input;
             merged_page := input_page input;
             merged_count := 0;
             merged_queryTimeTaken := None;
             merged_prevPage := None;
             merged_nextPage := None |}
          0%nat responses
      with
      | None => None
      | Some mergedResult =>
          let baseUrl := _baseUrl input None apiType in
          Some (Some
            {| multi := multi mergedResult;
               merged_totalResults := merged_totalResults mergedResult;
               merged_results := merged_results mergedResult;
               searchText := searchText mergedResult;
               merged_filter := merged_filter mergedResult;
               merged_sort := merged_sort mergedResult;
               merged_page := merged_page mergedResult;
               merged_count := merged_count mergedResult;
               merged_queryTimeTaken := merged_queryTimeTaken mergedResult;
               merged_prevPage := prevPageOf baseUrl input;
               merged_nextPage :=
                 nextPageOf baseUrl input (merged_count mergedResult)
                   (merged_totalResults mergedResult) |})
      end
  end.

(** ** Sections *)

(** A section as [composeSections] reads it: [results] and [totalResults]
    may be missing from a response a section was built from. *)
Record SectionResponse := {
  section_name : string;
  section_title : string;
  section_resultType : string;
  section_results : option (list Hit);
  section_totalResults : option Z
}.

Record Composed := {
  composed_results : list SectionResponse;
  composed_totalResults : Z
}.

(** [result.results && result.results.length > 0] *)
Definition hasResults (section : SectionResponse) : bool :=
  match section_results section with
  | Some (_ :: _) => true
  | _ => false
  end.

(** One turn of the loop over the resolved sections; the locals are
    [results] and [totalResults]. *)
Definition composeStep (locals : list SectionResponse * Z)
    (response : option SectionResponse) : list SectionResponse * Z :=
  match response with
  | Some response =>
      (fst locals ++ [response],
       snd locals + default 0 (section_totalResults response))
  | None => locals
  end.

Definition composeSections (sections : list (option SectionResponse))
  : Composed :=
  let locals := foldl composeStep ([], 0) sections in
  {| composed_results := List.filter hasResults (fst locals);
     composed_totalResults := snd locals |}.

(** ** Intent cascade *)

(** The classification of [carDekhoIntentBasedSearch] from the total hit
    counts of the brand, model and variant probes. *)
Definition searchType (brandHits modelHits variantHits : Z) : option string :=
  if negb (brandHits =? 0) then
    (if brandHits =? 1 then Some "brand-single" else Some "brand-multi")
  else if negb (modelHits =? 0) then
    (if modelHits =? 1 then Some "model-single" else Some "model-multi")
  else if negb (variantHits =? 0) then
    (if variantHits =? 1 then Some "variant-single" else Some "variant-multi")
  else None.

(** The seven [return] statements that follow the classification. *)
Inductive Composition : Type :=
| WithoutIntent
| BrandSingle
| BrandMulti
| ModelSingle
| ModelMulti
| VariantSingle
| VariantMulti.

Definition compositionOf (searchType : option string) : Composition :=
  match searchType with
  | None => WithoutIntent
  | Some s =>
      if String.eqb s "brand-single" then BrandSingle
      else if String.eqb s "brand-multi" then BrandMulti
      else if String.eqb s "model-single" then ModelSingle
      else if String.eqb s "model-multi" then ModelMulti
      else if String.eqb s "variant-single" then VariantSingle
      else VariantMulti
  end.

Definition carDekhoIntentBasedSearch (brandHits modelHits variantHits : Z)
  : Composition :=
  compositionOf (searchType brandHits modelHits variantHits).

(** The same classification with the probes inspected from the most
    specific (variant) to the least specific (brand), for comparison. *)
Definition searchTypeMostSpecificFirst (brandHits modelHits variantHits : Z)
  : option string :=
  if negb (variantHits =? 0) then
    (if variantHits =? 1 then Some "variant-single" else Some "variant-multi")
  else if negb (modelHits =? 0) then
    (if modelHits =? 1 then Some "model-single" else Some "model-multi")
  else if negb (brandHits =? 0) then
    (if brandHits =? 1 then Some "brand-single" else Some "brand-multi")
  else None.

(** ** Relevancy-deflection ranker *)

(** [Array.prototype.sort] with a comparator, as a stable sort:
    [mayPrecede a b] says that the comparator does not put [a] after [b];
    an element is put in front of the first element it may precede. *)
Fixpoint insertSorted {A : Type} (mayPrecede : A -> A -> bool) (x : A)
    (sorted : list A) : list A :=
  match sorted with
  | [] => [x]
  | y :: rest =>
      if mayPrecede x y then x :: y :: rest
      else y :: insertSorted mayPrecede x rest
  end.

Definition stableSort {A : Type} (mayPrecede : A -> A -> bool) (l : list A)
  : list A :=
  foldr (insertSorted mayPrecede) [] l.

(** The comparator [(scoreA, scoreB) => scoreB - scoreA], which is
    positive exactly when [scoreA < scoreB]. *)
Definition descending (scoreA scoreB : double) : bool :=
  negb (jsLt scoreA scoreB).

(** The comparator [(resultA, resultB) => resultB._score - resultA._score]. *)
Definition scoreDescending (resultA resultB : Hit) : bool :=
  descending (toNumber (_score resultA)) (toNumber (_score resultB)).

(** [fieldConfig.weight || 1.0] *)
Definition weightOr1 (w : option Q) : Q :=
  match w with
  | Some w => if Qeq_bool w 0 then 1%Q else w
  | None => 1%Q
  end.

(** [result._weight || 1.0] *)
Definition weightOrOne (w : option Q) : double :=
  match w with
  | Some w => if truthyNumber (doubleOfQ w) then doubleOfQ w else doubleOfQ 1
  | None => doubleOfQ 1
  end.

(** [result._score / (result._weight || 1.0)] *)
Definition relevancy (result : Hit) : double :=
  jsDiv (toNumber (_score result)) (weightOrOne (_weight result)).

Definition withRelevancy (result : Hit) : Hit :=
  {| _id := _id result;
     _score := _score result;
     _type := _type result;
     _weight := _weight result;
     _version := _version result;
     _source := _source result;
     _relevancyScore := Some (relevancy result) |}.

(** The scan for the deflection point.  [previousScore] is the local of
    that name; the value is the final [deflectionScore], which stays 0 when
    the scan runs to the end. *)
Fixpoint findDeflection (previousScore : double) (relevancyScores : list double)
  : double :=
  match relevancyScores with
  | [] => doubleOfQ 0
  | score :: rest =>
      if truthyNumber previousScore
         && jsLt score (jsMul (doubleOfQ (5 # 10)) previousScore)
      then previousScore
      else findDeflection score rest
  end.

(** All results of all groups, in the order of the two nested loops, each
    with its [_relevancyScore] set. *)
Definition scoredResults (groups : list Result) : list Hit :=
  withRelevancy <$> concat (results <$> groups).

(** The array [relevancyScores] before it is sorted. *)
Definition relevancyScores (groups : list Result) : list double :=
  relevancy <$> concat (results <$> groups).

Definition deflectionScore (groups : list Result) : double :=
  findDeflection (doubleOfQ 0)
    (stableSort descending (relevancyScores groups)).

(** [result._relevancyScore >= deflectionScore] *)
Definition reachesDeflection (deflection : double) (result : Hit) : bool :=
  match _relevancyScore result with
  | Some r => jsGe r deflection
  | None => false
  end.

(** The body of the [if (response.multi)] branch of [suggestedQueries]:
    the new value of [response.results]. *)
Definition consolidate (groups : list Result) : list Hit :=
  stableSort scoreDescending
    (List.filter (reachesDeflection (deflectionScore groups))
       (scoredResults groups)).

(** What [_searchInternal] resolves to, and what [suggestedQueries] makes
    of it. *)
Inductive SearchOutput : Type :=
| SingleOutput (result : Result)
| MultiOutput (mergedResult : MergedResult).

Inductive SuggestedOutput : Type :=
| Unchanged (response : SearchOutput)
| Consolidated (mergedResult : MergedResult) (results : list Hit).

Definition suggestedQueries (response : SearchOutput) : SuggestedOutput :=
  match response with
  | SingleOutput _ => Unchanged response
  | MultiOutput mergedResult =>
      if multi mergedResult
      then Consolidated mergedResult
             (consolidate (snd <$> merged_results mergedResult))
      else Unchanged response
  end.

(** The ranker with the deflection test read as "at most half of the
    previous score", for comparison. *)
Fixpoint findDeflectionAtMostHalf (previousScore : double)
    (relevancyScores : list double) : double :=
  match relevancyScores with
  | [] => doubleOfQ 0
  | score :: rest =>
      if truthyNumber previousScore
         && jsLe score (jsMul (doubleOfQ (5 # 10)) previousScore)
      then previousScore
      else findDeflectionAtMostHalf score rest
  end.

(** ** Query compiler: configuration *)

(** A field configuration: a query field, a filter configuration, or the
    object [filterQueries] and [facetQueries] derive from one.  An absent
    property is [None] (or [VUndefined]). *)
Record FieldConfig := {
  field : option string;
  weight : option Q;
  vernacularOnly : option bool;
  keyword : option bool;
  noFuzzy : option bool;
  nestedPath : option string;
  cfg_filter : option bool;            (* property [filter] *)
  cfg_termQuery : option bool;         (* property [termQuery] *)
  cfg_rangeQuery : option bool;        (* property [rangeQuery] *)
  includeMissing : option bool;
  cfg_type : option string;            (* property [type] *)
  defaultValue : jsval;
  cfg_value : option (jsval -> jsval)  (* property [value], a function *)
}.

(** The object [{}]. *)
Definition emptyFieldConfig : FieldConfig :=
  {| field := None; weight := None; vernacularOnly := None; keyword := None;
     noFuzzy := None; nestedPath := None; cfg_filter := None;
     cfg_termQuery := None; cfg_rangeQuery := None; includeMissing := None;
     cfg_type := None; defaultValue := VUndefined; cfg_value := None |}.

(** An entry of [facetConfig.filters] and of [facetConfig.ranges]. *)
Record FilterFacet := {
  filterFacet_key : jsval;
  filterFacet_filter : jsval
}.

Record RangeFacet := {
  rangeFacet_key : jsval;
  rangeFacet_from : jsval;
  rangeFacet_to : jsval
}.

Record FacetConfig := {
  facet_key : string;
  facet_type : option string;
  facet_field : option string;
  facet_nestedPath : option string;
  facet_includeMissing : option bool;
  facet_filters : list FilterFacet;
  facet_ranges : list RangeFacet
}.

Record IndexTypeConfig := {
  index : string;
  indexType_type : option string;
  indexType_queryFields : option (list FieldConfig);
  indexType_filters : option (list (string * FieldConfig));
  indexType_facets : option (list FacetConfig)
}.

Record SearchTypeConfig := {
  queryFields : option (list FieldConfig);
  filters : option (list (string * FieldConfig));
  facets : option (list FacetConfig);
  indexType : IndexTypeConfig
}.

(** ** Query compiler: clauses *)

(** A computed key [[fieldConfig.field]]. *)
Definition fieldKey (f : option string) : string := default "undefined" f.

Definition truthyStr (o : option string) : bool :=
  match o with Some s => negb (String.eqb s "") | None => false end.

Definition constantScoreQuery (fieldConfig : FieldConfig) (query : jsval)
  : jsval :=
  if flag (cfg_filter fieldConfig)
     || (truthy query
         && (truthy (prop query "humane_query")
             || truthy (prop query "multi_humane_query")))
  then query
  else
    let boost := weightOr1 (weight fieldConfig) in
    if Qeq_bool boost 1 then query
    else VObj [("constant_score", VObj [("query", query); ("boost", VNum boost)])].

Definition wrapQuery (fieldConfig : FieldConfig) (query : jsval) : jsval :=
  constantScoreQuery fieldConfig
    (if truthyStr (nestedPath fieldConfig)
     then VObj [("nested",
                 VObj [("path", ofOptStr (nestedPath fieldConfig));
                       ("query", query)])]
     else query).

Definition humaneQuery (this : SearcherInternal) (fieldConfig : FieldConfig)
    (text intentFields : jsval) : jsval :=
  VObj [("humane_query",
         VObj [(fieldKey (field fieldConfig),
                VObj [("instance", VStr (instanceName this));
                      ("intentFields", intentFields);
                      ("query", text);
                      ("boost", ofOptNum (weight fieldConfig));
                      ("vernacularOnly", ofOptBool (vernacularOnly fieldConfig));
                      ("keyword", ofOptBool (keyword fieldConfig));
                      ("noFuzzy", ofOptBool (noFuzzy fieldConfig))])])].

Definition termQuery (fieldConfig : FieldConfig) (text : jsval) : jsval :=
  let queryType := if isArray text then "terms" else "term" in
  VObj [(queryType, VObj [(fieldKey (field fieldConfig), text)])].

Definition boolShouldQueries (queryArray : list jsval) : jsval :=
  match queryArray with
  | [] => VNull
  | [query] => query
  | _ => VObj [("bool", VObj [("should", VArr queryArray);
                              ("minimum_should_match", VNum 1)])]
  end.

Definition missingQuery (field : option string) : jsval :=
  VObj [("bool",
         VObj [("must_not", VObj [("exists", VObj [("field", ofOptStr field)])])])].

Definition existsQuery (field : option string) : jsval :=
  VObj [("bool",
         VObj [("must", VObj [("exists", VObj [("field", ofOptStr field)])])])].

(** The clause pushed for one element of a range value. *)
Definition rangeClause (fieldConfig : FieldConfig) (oneValue : jsval) : jsval :=
  VObj [("range",
         VObj [(fieldKey (field fieldConfig),
                VObj [("gte", prop oneValue "from");
                      ("lt", prop oneValue "to")])])].

(** [if (!_.isArray(v)) v = [v]] *)
Definition asArray (v : jsval) : list jsval :=
  match v with VArr items => items | _ => [v] end.

(** [query == null] *)
Definition isNullish (v : jsval) : bool :=
  match v with VUndefined | VNull => true | _ => false end.

(** The first half of [buildFieldQuery]: the value-match clause, before it
    is wrapped ([null] when a range value is an empty array). *)
Definition valueQuery (this : SearcherInternal) (fieldConfig : FieldConfig)
    (valueOrArrayOfValue intentFields : jsval) : jsval :=
  if flag (cfg_filter fieldConfig) && flag (cfg_rangeQuery fieldConfig) then
    boolShouldQueries (rangeClause fieldConfig <$> asArray valueOrArrayOfValue)
  else if flag (cfg_filter fieldConfig) && flag (cfg_termQuery fieldConfig) then
    (if isStr valueOrArrayOfValue "__not_empty__"
     then existsQuery (field fieldConfig)
     else termQuery fieldConfig valueOrArrayOfValue)
  else humaneQuery this fieldConfig valueOrArrayOfValue intentFields.

(** [buildFieldQuery]: the returned query and the array [queries] after
    the call. *)
Definition buildFieldQuery (this : SearcherInternal) (fieldConfig : FieldConfig)
    (valueOrArrayOfValue : jsval) (queries : list jsval) (intentFields : jsval)
  : jsval * list jsval :=
  let query := valueQuery this fieldConfig valueOrArrayOfValue intentFields in
  (* the range branch has replaced a single value by a one-element array *)
  let valueOrArrayOfValue :=
    if flag (cfg_filter fieldConfig) && flag (cfg_rangeQuery fieldConfig)
    then VArr (asArray valueOrArrayOfValue)
    else valueOrArrayOfValue in
  if isNullish query then (VNull, queries)
  else
    let query := wrapQuery fieldConfig query in
    let query :=
      if flag (cfg_filter fieldConfig)
         && (flag (cfg_termQuery fieldConfig) || flag (cfg_rangeQuery fieldConfig))
         && flag (includeMissing fieldConfig)
         && negb (isStr valueOrArrayOfValue "__not_empty__")
      then boolShouldQueries
             [query; wrapQuery fieldConfig (missingQuery (field fieldConfig))]
      else query in
    (query,
     match query with
     | VArr items => queries ++ items
     | _ => queries ++ [query]
     end).

(** The text of a request: [!text || _.isEmpty(text)] *)
Definition noText (text : option string) : bool :=
  match text with Some s => String.eqb s "" | None => true end.

(** The query fields that are not restricted to the vernacular variant. *)
Definition activeQueryFields (searchTypeConfig : SearchTypeConfig)
  : list FieldConfig :=
  List.filter (fun queryField => negb (flag (vernacularOnly queryField)))
    (match queryFields searchTypeConfig with
     | Some fields => fields
     | None => default [] (indexType_queryFields (indexType searchTypeConfig))
     end).

(** [!fuzzySearch || queryField.noFuzzy] *)
Definition noFuzzyOf (fuzzySearch : bool) (queryField : FieldConfig) : jsval :=
  if negb fuzzySearch then VBool true else ofOptBool (noFuzzy queryField).

Definition multiField (fuzzySearch : bool) (queryField : FieldConfig) : jsval :=
  VObj [("field", ofOptStr (field queryField));
        ("boost", ofOptNum (weight queryField));
        ("vernacularOnly", ofOptBool (vernacularOnly queryField));
        ("keyword", ofOptBool (keyword queryField));
        ("path", ofOptStr (nestedPath queryField));
        ("noFuzzy", noFuzzyOf fuzzySearch queryField)].

Definition buildTypeQuery (this : SearcherInternal)
    (searchTypeConfig : SearchTypeConfig) (text : option string)
    (fuzzySearch : bool) (intentFields : jsval) : jsval :=
  if noText text then VObj []
  else
    match activeQueryFields searchTypeConfig with
    | [queryField] =>
        VObj [("query",
               wrapQuery queryField
                 (VObj [("humane_query",
                         VObj [(fieldKey (field queryField),
                                VObj [("query", ofOptStr text);
                                      ("boost", ofOptNum (weight queryField));
                                      ("vernacularOnly",
                                       ofOptBool (vernacularOnly queryField));
                                      ("noFuzzy", noFuzzyOf fuzzySearch queryField);
                                      ("keyword", ofOptBool (keyword queryField));
                                      ("instance", VStr (instanceName this));
                                      ("intentFields", intentFields)])])]))]
    | fields =>
        VObj [("query",
               VObj [("multi_humane_query",
                      VObj [("query", ofOptStr text);
                            ("instance", VStr (instanceName this));
                            ("intentFields", intentFields);
                            ("fields", VArr (multiField fuzzySearch <$> fields))])])]
    end.

(** ** Query compiler: filters and facet selections *)

Definition isValidValue (value : jsval) : bool := negb (isNullish value).

(** [_.isEmpty]: a string, array or object without elements; any other
    value counts as empty. *)
Definition isEmpty (v : jsval) : bool :=
  match v with
  | VStr s => String.eqb s ""
  | VArr items => match items with [] => true | _ => false end
  | VObj props => match props with [] => true | _ => false end
  | _ => true
  end.

(** [input.filter[key]], [undefined] when the request has no filter. *)
Definition inputFilterAt (input : Input) (key : string) : jsval :=
  match input_filter input with
  | Some filterMap => default VUndefined (filterMap !! key)
  | None => VUndefined
  end.

(** The chain that unwraps a structured filter value: the payload and the
    local [range]. *)
Definition unwrap (filterValue : jsval) : jsval * bool :=
  if truthy (prop filterValue "value") then (prop filterValue "value", false)
  else if truthy (prop filterValue "values") then (prop filterValue "values", false)
  else if truthy (prop filterValue "range") then (prop filterValue "range", true)
  else if truthy (prop filterValue "ranges") then (prop filterValue "ranges", true)
  else (filterValue, false).

(** [_.defaults({filter: true, rangeQuery: range,
                 termQuery: !range && filterConfig.termQuery}, filterConfig)] *)
Definition filterFieldConfig (range : bool) (filterConfig : FieldConfig)
  : FieldConfig :=
  {| field := field filterConfig;
     weight := weight filterConfig;
     vernacularOnly := vernacularOnly filterConfig;
     keyword := keyword filterConfig;
     noFuzzy := noFuzzy filterConfig;
     nestedPath := nestedPath filterConfig;
     cfg_filter := Some true;
     cfg_termQuery := if range then Some false else cfg_termQuery filterConfig;
     cfg_rangeQuery := Some range;
     includeMissing := includeMissing filterConfig;
     cfg_type := cfg_type filterConfig;
     defaultValue := defaultValue filterConfig;
     cfg_value := cfg_value filterConfig |}.

Definition isPost (filterConfig : FieldConfig) : bool :=
  match cfg_type filterConfig with
  | Some t => String.eqb t "post"
  | None => false
  end.

(** One turn of the loop of [filterQueries] over the filter
    configurations; the local is the array [filterQueries]. *)
Definition filterStep (this : SearcherInternal) (input : Input)
    (intentFields : jsval) (filterQueries : list jsval)
    (entry : string * FieldConfig) : list jsval :=
  let key := fst entry in
  let filterConfig := snd entry in
  if isPost filterConfig then filterQueries
  else
    let filterValue :=
      if isValidValue (inputFilterAt input key) then inputFilterAt input key
      else if truthy (defaultValue filterConfig) then defaultValue filterConfig
      else VNull in
    if isValidValue filterValue && negb (isStr filterValue "__all__") then
      let filterType :=
        if isObject filterValue then prop filterValue "type" else VNull in
      let unwrapped :=
        if isObject filterValue then unwrap filterValue
        else (filterValue, false) in
      if truthy filterType && isStr filterType "facet" then filterQueries
      else
        let filterValue :=
          match cfg_value filterConfig with
          | Some transform => transform (fst unwrapped)
          | None => fst unwrapped
          end in
        snd (buildFieldQuery this
               (filterFieldConfig (snd unwrapped) filterConfig)
               filterValue filterQueries intentFields)
    else filterQueries.

(** [_.extend({filter: true}, filterConfigs.lang)]; without a [lang]
    configuration the object is [{filter: true}]. *)
Definition langFieldConfig (filterConfigs : list (string * FieldConfig))
  : FieldConfig :=
  let lang := default emptyFieldConfig (assoc "lang" filterConfigs) in
  {| field := field lang;
     weight := weight lang;
     vernacularOnly := vernacularOnly lang;
     keyword := keyword lang;
     noFuzzy := noFuzzy lang;
     nestedPath := nestedPath lang;
     cfg_filter :=
       match cfg_filter lang with Some b => Some b | None => Some true end;
     cfg_termQuery := cfg_termQuery lang;
     cfg_rangeQuery := cfg_rangeQuery lang;
     includeMissing := includeMissing lang;
     cfg_type := cfg_type lang;
     defaultValue := defaultValue lang;
     cfg_value := cfg_value lang |}.

(** The language clause appended for [input.lang] and for [termLanguages]. *)
Definition langStep (this : SearcherInternal)
    (filterConfigs : list (string * FieldConfig)) (intentFields : jsval)
    (filterQueries : list jsval) (languages : jsval) : list jsval :=
  if truthy languages && negb (isEmpty languages)
  then snd (buildFieldQuery this (langFieldConfig filterConfigs) languages
              filterQueries intentFields)
  else filterQueries.

(** The end of [filterQueries] and of [facetQueries]: nothing, the one
    clause, or the array of clauses. *)
Definition collapse (clauses : list jsval) : jsval :=
  match clauses with
  | [] => VUndefined
  | [clause] => clause
  | _ => VArr clauses
  end.

(** The array [filterQueries] when the function returns. *)
Definition filterClauses (this : SearcherInternal)
    (filterConfigs : list (string * FieldConfig)) (input : Input)
    (termLanguages intentFields : jsval) : list jsval :=
  langStep this filterConfigs intentFields
    (langStep this filterConfigs intentFields
       (foldl (filterStep this input intentFields) [] filterConfigs)
       (input_lang input))
    termLanguages.

Definition filterConfigsOf (searchTypeConfig : SearchTypeConfig)
  : option (list (string * FieldConfig)) :=
  match filters searchTypeConfig with
  | Some configs => Some configs
  | None => indexType_filters (indexType searchTypeConfig)
  end.

Definition filterQueries (this : SearcherInternal)
    (searchTypeConfig : SearchTypeConfig) (input : Input)
    (termLanguages intentFields : jsval) : jsval :=
  match filterConfigsOf searchTypeConfig with
  | None => VUndefined
  | Some filterConfigs =>
      collapse (filterClauses this filterConfigs input termLanguages intentFields)
  end.

Definition isFacetType (facetConfig : FacetConfig) (name : string) : bool :=
  match facet_type facetConfig with
  | Some t => String.eqb t name
  | None => false
  end.

(** The field configuration [facetQueries] builds for a [field] or
    [min-max] facet. *)
Definition facetFieldConfig (range : bool) (facetConfig : FacetConfig)
  : FieldConfig :=
  {| field := facet_field facetConfig;
     weight := None; vernacularOnly := None; keyword := None; noFuzzy := None;
     nestedPath := facet_nestedPath facetConfig;
     cfg_filter := Some true;
     cfg_termQuery := Some (negb range);
     cfg_rangeQuery := Some range;
     includeMissing := facet_includeMissing facetConfig;
     cfg_type := None; defaultValue := VUndefined; cfg_value := None |}.

(** The two nested loops that collect the configured clauses whose key is
    identical to a selected value. *)
Definition matchingFilterQueries (facetConfig : FacetConfig)
    (filterValue : jsval) : list jsval :=
  oneValue ← asArray filterValue;
  filterFacetConfig ← facet_filters facetConfig;
  if strictEq oneValue (filterFacet_key filterFacetConfig)
  then [filterFacet_filter filterFacetConfig] else [].

Definition matchingRangeQueries (facetConfig : FacetConfig)
    (filterValue : jsval) : list jsval :=
  (oneValue ← asArray filterValue;
   filterRangeConfig ← facet_ranges facetConfig;
   if strictEq oneValue (rangeFacet_key filterRangeConfig)
   then [VObj [("range",
                VObj [(fieldKey (facet_field facetConfig),
                       VObj [("gte", rangeFacet_from filterRangeConfig);
                             ("lt", rangeFacet_to filterRangeConfig)])])]]
   else [])
  ++ (if flag (facet_includeMissing facetConfig)
      then [missingQuery (facet_field facetConfig)] else []).

(** [if (query) facetQueries.push(query)] *)
Definition pushIfTruthy (facetQueries : list jsval) (query : jsval)
  : list jsval :=
  if truthy query then facetQueries ++ [query] else facetQueries.

(** One turn of the loop of [facetQueries] over the facet configurations;
    the local is the array [facetQueries]. *)
Definition facetStep (this : SearcherInternal) (input : Input)
    (intentFields : jsval) (facetQueries : list jsval)
    (facetConfig : FacetConfig) : list jsval :=
  let filterValue :=
    if truthy (inputFilterAt input (facet_key facetConfig))
    then inputFilterAt input (facet_key facetConfig) else VNull in
  if truthy filterValue && negb (isStr filterValue "__all__")
     && isObject filterValue then
    let filterType := prop filterValue "type" in
    let unwrapped := unwrap filterValue in
    if negb (truthy filterType) || negb (isStr filterType "facet")
    then facetQueries
    else if isFacetType facetConfig "field" || isFacetType facetConfig "min-max"
    then snd (buildFieldQuery this
                (facetFieldConfig (snd unwrapped) facetConfig)
                (fst unwrapped) facetQueries intentFields)
    else if isFacetType facetConfig "filters"
    then pushIfTruthy facetQueries
           (boolShouldQueries (matchingFilterQueries facetConfig (fst unwrapped)))
    else if isFacetType facetConfig "ranges"
    then pushIfTruthy facetQueries
           (boolShouldQueries (matchingRangeQueries facetConfig (fst unwrapped)))
    else facetQueries
  else facetQueries.

Definition facetConfigsOf (searchTypeConfig : SearchTypeConfig)
  : option (list FacetConfig) :=
  match facets searchTypeConfig with
  | Some configs => Some configs
  | None => indexType_facets (indexType searchTypeConfig)
  end.

Definition facetClauses (this : SearcherInternal)
    (facetConfigs : list FacetConfig) (input : Input) (intentFields : jsval)
  : list jsval :=
  foldl (facetStep this input intentFields) [] facetConfigs.

Definition facetQueries (this : SearcherInternal)
    (searchTypeConfig : SearchTypeConfig) (input : Input)
    (intentFields : jsval) : jsval :=
  match facetConfigsOf searchTypeConfig with
  | None => VUndefined
  | Some facetConfigs =>
      collapse (facetClauses this facetConfigs input intentFields)
  end.

(** The query envelope of [searchQuery] and [_searchQueryInternal]; the
    sort and aggregation parts are left out. *)
Record SearchQuery := {
  search_index : string;
  search_type : option string;
  search_from : Z;
  search_size : option Z;
  search_query : jsval;        (* [function_score.query] *)
  search_post_filter : jsval
}.

Definition searchQuery (this : SearcherInternal)
    (searchTypeConfig : SearchTypeConfig) (input : Input)
    (intentFields query termLanguages : jsval) : SearchQuery :=
  let filter :=
    filterQueries this searchTypeConfig input termLanguages intentFields in
  {| search_index := index (indexType searchTypeConfig);
     search_type := indexType_type (indexType searchTypeConfig);
     search_from :=
       default 0 (input_page input) * default 0 (input_count input);
     search_size := input_count input;
     search_query :=
       VObj [("bool",
              VObj [("must", jsOr query (VObj [("match_all", VObj [])]));
                    ("filter", filter)])];
     search_post_filter := facetQueries this searchTypeConfig input intentFields |}.

(** The main-query filter clause and the post-filter clause of a compiled
    query. *)
Definition mainFilter (compiled : SearchQuery) : jsval :=
  prop (prop (search_query compiled) "bool") "filter".

(** ** Error boundary *)

(** A settled promise, and the completion of a call that may throw before
    it returns one. *)
Inductive Settled (A : Type) : Type :=
| Fulfilled (value : A)
| Rejected (error : jsval).

Inductive Completion (A : Type) : Type :=
| Returned (result : A)
| Thrown (error : jsval).

Arguments Fulfilled {A} value.
Arguments Rejected {A} error.
Arguments Returned {A} result.
Arguments Thrown {A} error.

Section ErrorBoundary.

(** The constructor of the error class of [humane-node-commons]: a
    message and the options object. *)
Variable InternalServiceError : string -> jsval -> jsval.

(** The [TypeError] the engine throws when a property is read off [null]
    or [undefined]: the value and the name of the property. *)
Variable cannotRead : jsval -> string -> jsval.

(** The test of the [catch] handler for an error that is thrown again. *)
Definition isKnownError (error : jsval) : bool :=
  truthy error
  && (isStr (prop error "_errorCode") "VALIDATION_ERROR"
      || isStr (prop error "_errorCode") "INTERNAL_SERVICE_ERROR").

(** [(error && error.cause) || error] and [error && error.stack] *)
Definition causeOf (error : jsval) : jsval :=
  jsOr (if truthy error then prop error "cause" else error) error.

Definition stackOf (error : jsval) : jsval :=
  if truthy error then prop error "stack" else error.

(** [errorWrap]: the handler of [catch] first reads [error.stack] for
    [console.error], which throws when the error is [null] or
    [undefined]; what the handler throws is what the promise is rejected
    with. *)
Definition errorWrap {A : Type} (promise : Settled A) : Settled A :=
  match promise with
  | Fulfilled value => Fulfilled value
  | Rejected error =>
      if isNullish error then Rejected (cannotRead error "stack")
      else if isKnownError error then Rejected error
      else Rejected
             (InternalServiceError "Internal Service Error"
                (VObj [("details", causeOf error); ("stack", stackOf error)]))
  end.

(** An operation of [Searcher]: the call of the internal operation is
    evaluated first, and what it returns is handed to [errorWrap]. *)
Definition operation {A : Type} (internal : Completion (Settled A))
  : Completion (Settled A) :=
  match internal with
  | Returned promise => Returned (errorWrap promise)
  | Thrown error => Thrown error
  end.

End ErrorBoundary.

(** ** Vocabulary of the statements *)

Definition sumZ (l : list Z) : Z := foldr Z.add 0 l.

(** The greatest element of a list of durations, 0 for the empty list. *)
Definition maxZ (l : list Z) : Z := foldr Z.max 0 l.

(** A hit has a document. *)
Definition hasDocument (hit : Hit) : bool :=
  match _source hit with Some _ => true | None => false end.

(** The per-type results of a batch: the response at each position
    processed with the type at the same position, from position [index]
    on; [None] when one of them cannot be processed. *)
Fixpoint perTypeFrom (this : SearcherInternal) (types : list (option string))
    (input : Input) (apiType : string) (index : nat)
    (responses : list Response) : option (list Result) :=
  match responses with
  | [] => Some []
  | response :: rest =>
      match _processResponse this response (typeAt types index) input apiType,
            perTypeFrom this types input apiType (S index) rest with
      | Some result, Some others => Some (result :: others)
      | _, _ => None
      end
  end.

Definition perType (this : SearcherInternal) (types : list (option string))
    (input : Input) (apiType : string) (responses : list Response)
  : option (list Result) :=
  perTypeFrom this types input apiType 0 responses.

Definition hasType (key : string) (result : Result) : bool :=
  match type result with
  | Some t => String.eqb t key
  | None => false
  end.

(** The total a section reports: [_.get(section, 'totalResults', 0)]. *)
Definition sectionTotal (section : SectionResponse) : Z :=
  default 0 (section_totalResults section).

(** A deflection between two neighbours of the sorted relevancy scores:
    the test [previousScore && score < 0.5 * previousScore]. *)
Definition deflects (previousScore score : double) : Prop :=
  truthyNumber previousScore = true
  /\ jsLt score (jsMul (doubleOfQ (5 # 10)) previousScore) = true.

(** No two neighbours of the list deflect. *)
Definition noDeflection (scores : list double) : Prop :=
  forall before previous score after,
    scores = before ++ previous :: score :: after ->
    ~ deflects previous score.

(** The rank of a double in the order of its comparisons: the class of
    its sign, then the exponent, then the mantissa; [a < b] holds for two
    numbers exactly when the rank of [a] is below the rank of [b]. *)
Definition rank (x : double) : Z * Z * Z :=
  match x with
  | S754_infinity true => (-2, 0, 0)
  | S754_finite true m e => (-1, - e, - Zpos m)
  | S754_zero _ | S754_nan => (0, 0, 0)
  | S754_finite false m e => (1, e, Zpos m)
  | S754_infinity false => (2, 0, 0)
  end.

Definition rankLt (a b : Z * Z * Z) : Prop :=
  a.1.1 < b.1.1
  \/ (a.1.1 = b.1.1
      /\ (a.1.2 < b.1.2 \/ (a.1.2 = b.1.2 /\ a.2 < b.2))).

(** A score that is a number for the comparisons. *)
Definition isNumber (x : double) : Prop := isNaN x = false.

(** The clause inside the boost and nested-document envelopes of a
    wrapped clause. *)
Definition innerClause (query : jsval) : jsval :=
  let query :=
    if truthy (prop query "constant_score")
    then prop (prop query "constant_score") "query" else query in
  if truthy (prop query "nested")
  then prop (prop query "nested") "query" else query.

(** A single weighted field clause: under the envelopes, a
    [humane_query] over the one field, with the text and the weight of the
    field. *)
Definition singleFieldClause (query : jsval) (queryField : FieldConfig)
    (text : string) : Prop :=
  exists params,
    innerClause query
    = VObj [("humane_query", VObj [(fieldKey (field queryField), params)])]
    /\ prop params "query" = VStr text
    /\ prop params "boost" = ofOptNum (weight queryField).

(** A multi-field clause: a [multi_humane_query] with the text and the
    list of the fields with their weights. *)
Definition multiFieldClause (query : jsval) (fields : list FieldConfig)
    (text : string) : Prop :=
  exists params listed,
    query = VObj [("multi_humane_query", params)]
    /\ prop params "query" = VStr text
    /\ prop params "fields" = VArr listed
    /\ (fun entry => (prop entry "field", prop entry "boost")) <$> listed
       = (fun queryField =>
            (ofOptStr (field queryField), ofOptNum (weight queryField)))
           <$> fields.

(** The query fields a type configuration declares. *)
Definition configuredQueryFields (searchTypeConfig : SearchTypeConfig)
  : list FieldConfig :=
  match queryFields searchTypeConfig with
  | Some fields => fields
  | None => default [] (indexType_queryFields (indexType searchTypeConfig))
  end.


(** A facet selection: a structured filter value whose [type] is
    ["facet"]. *)
Definition isFacetSelection (value : jsval) : bool :=
  isObject value && isStr (prop value "type") "facet".

(** The request with [input.filter[key]] set to [value]. *)
Definition setFilter (input : Input) (key : string) (value : jsval) : Input :=
  {| input_text := input_text input;
     input_filter := Some (<[key := value]> (default ∅ (input_filter input)));
     input_sort := input_sort input;
     input_page := input_page input;
     input_count := input_count input;
     input_lang := input_lang input;
     input_fuzzySearch := input_fuzzySearch input |}.

(** ** Sample data *)

(** A hit with an identifier, a score and an empty document; the same
    with a weight; a hit of a response sorted by a field, whose score is
    [null]. *)
Definition hitOfScore (id : string) (score : Q) : Hit :=
  {| _id := id; _score := Some score; _type := "doc"; _weight := None;
     _version := None; _source := Some []; _relevancyScore := None |}.

Definition weightedHit (id : string) (score weight : Q) : Hit :=
  {| _id := id; _score := Some score; _type := "doc"; _weight := Some weight;
     _version := None; _source := Some []; _relevancyScore := None |}.

Definition unscoredHit (id : string) : Hit :=
  {| _id := id; _score := None; _type := "doc"; _weight := None;
     _version := None; _source := Some []; _relevancyScore := None |}.

Definition responseOf (hs : list Hit) (totalHits took : Z) : Response :=
  {| hits := Some {| total := Some totalHits; hits_hits := Some hs |};
     took := took |}.

Definition inputOf (page count : Z) : Input :=
  {| input_text := Some "swift"; input_filter := None;
     input_sort := VUndefined; input_page := Some page;
     input_count := Some count; input_lang := VUndefined;
     input_fuzzySearch := true |}.

Definition anySearcher : SearcherInternal := {| instanceName := "demo" |}.

(** Page 1 of ten per page over two types: ten cars of twenty-five, and
    none of the three dealers, which all were on page 0. *)
Definition secondPageResponses : list Response :=
  [responseOf (replicate 10 (hitOfScore "car" 5)) 25 3; responseOf [] 3 9].

Definition secondPageTypes : list (option string) :=
  [Some "car"; Some "dealer"].

(** Two sections of a composed response: used cars without a hit on this
    page out of seven in total, and one news item. *)
Definition sectionOf (name : string) (hs : list Hit) (totalHits : Z)
  : SectionResponse :=
  {| section_name := name; section_title := name; section_resultType := name;
     section_results := Some hs; section_totalResults := Some totalHits |}.

Definition sampleSections : list (option SectionResponse) :=
  [Some (sectionOf "used-cars" [] 7);
   Some (sectionOf "news" [hitOfScore "n1" 2] 1)].

(** A result group of a merged response. *)
Definition groupOf (name : string) (hs : list Hit) : Result :=
  {| type := Some name; resultType := Some name; results := hs;
     queryTimeTaken := 1; totalResults := Z.of_nat (length hs);
     count := Z.of_nat (length hs); prevPage := None; nextPage := None |}.

(** Query fields and type configurations. *)
Definition queryFieldOf (name : string) (w : Q) : FieldConfig :=
  {| field := Some name; weight := Some w; vernacularOnly := None;
     keyword := None; noFuzzy := None; nestedPath := None;
     cfg_filter := None; cfg_termQuery := None; cfg_rangeQuery := None;
     includeMissing := None; cfg_type := None; defaultValue := VUndefined;
     cfg_value := None |}.

Definition sampleIndexType : IndexTypeConfig :=
  {| index := "demo_store"; indexType_type := Some "car";
     indexType_queryFields := None; indexType_filters := None;
     indexType_facets := None |}.

Definition typeConfigOf (fields : list FieldConfig)
    (filterConfigs : list (string * FieldConfig))
    (facetConfigs : list FacetConfig) : SearchTypeConfig :=
  {| queryFields := Some fields; filters := Some filterConfigs;
     facets := Some facetConfigs; indexType := sampleIndexType |}.


Definition inputWithFilter (key : string) (value : jsval) : Input :=
  {| input_text := Some "swift"; input_filter := Some {[ key := value ]};
     input_sort := VUndefined; input_page := Some 0;
     input_count := Some 10; input_lang := VUndefined;
     input_fuzzySearch := true |}.

(** A term filter and a field facet on the brand, and the selection of
    one brand in the facet. *)
Definition brandFilter : FieldConfig :=
  {| field := Some "brand"; weight := None; vernacularOnly := None;
     keyword := None; noFuzzy := None; nestedPath := None;
     cfg_filter := None; cfg_termQuery := Some true; cfg_rangeQuery := None;
     includeMissing := None; cfg_type := None;
     defaultValue := VUndefined; cfg_value := None |}.

Definition brandFacet : FacetConfig :=
  {| facet_key := "brand"; facet_type := Some "field";
     facet_field := Some "brand"; facet_nestedPath := None;
     facet_includeMissing := None; facet_filters := []; facet_ranges := [] |}.

Definition facetSelection (value : string) : jsval :=
  VObj [("type", VStr "facet"); ("value", VStr value)].

Definition brandTypeConfig : SearchTypeConfig :=
  typeConfigOf [queryFieldOf "name" 10] [("brand", brandFilter)] [brandFacet].

(** An error class in the shape [errorWrap] tests for, and an error of
    that class with a cause. *)
Definition sampleInternalServiceError (message : string) (options : jsval)
  : jsval :=
  VObj [("_errorCode", VStr "INTERNAL_SERVICE_ERROR");
        ("message", VStr message);
        ("details", prop options "details");
        ("stack", prop options "stack")].

(** The [TypeError] of a property read off [null] or [undefined]. *)
Definition sampleTypeError (value : jsval) (key : string) : jsval :=
  VObj [("name", VStr "TypeError");
        ("message", VStr ("Cannot read property " +:+ key))].

Definition backendDown : jsval :=
  VObj [("_errorCode", VStr "INTERNAL_SERVICE_ERROR");
        ("message", VStr "Backend unreachable");
        ("cause", VStr "ECONNREFUSED");
        ("stack", VStr "at ESClient.search")].

(** ** Vocabulary of the further statements *)



(** ** Query compiler: a type query *)

(** The step of [_queryInternal] that compiles one type: the clause of
    [buildTypeQuery] for the text handed to [searchQuery].  The text is
    the local [text], and [buildTypeQuery] reports no query languages. *)
Definition typeQuery (this : SearcherInternal)
    (searchTypeConfig : SearchTypeConfig) (text : option string)
    (input : Input) (intentFields : jsval) : SearchQuery :=
  searchQuery this searchTypeConfig input intentFields
    (prop (buildTypeQuery this searchTypeConfig text
             (input_fuzzySearch input) intentFields) "query")
    (VArr []).

(** The [must] part of the main clause of a compiled query. *)
Definition mainMust (compiled : SearchQuery) : jsval :=
  prop (prop (search_query compiled) "bool") "must".

(** ** Cleaned documents *)

(** Induction over a value and the values inside it. *)
Fixpoint jsval_nested_ind (P : jsval -> Prop)
    (Hundefined : P VUndefined) (Hnull : P VNull)
    (Hbool : forall b, P (VBool b)) (Hnum : forall q, P (VNum q))
    (Hstr : forall s, P (VStr s))
    (Harr : forall items, Forall P items -> P (VArr items))
    (Hobj : forall props, Forall (fun kv => P (snd kv)) props -> P (VObj props))
    (v : jsval) : P v :=
  match v with
  | VUndefined => Hundefined
  | VNull => Hnull
  | VBool b => Hbool b
  | VNum q => Hnum q
  | VStr s => Hstr s
  | VArr items =>
      Harr items
        ((fix all (l : list jsval) : Forall P l :=
            match l with
            | [] => List.Forall_nil P
            | x :: rest =>
                @List.Forall_cons _ P x rest
                  (jsval_nested_ind P Hundefined Hnull Hbool Hnum Hstr Harr
                     Hobj x)
                  (all rest)
            end) items)
  | VObj props =>
      Hobj props
        ((fix all (l : list (string * jsval))
            : Forall (fun kv => P (snd kv)) l :=
            match l with
            | [] => List.Forall_nil _
            | kv :: rest =>
                @List.Forall_cons _ (fun kv => P (snd kv)) kv rest
                  (jsval_nested_ind P Hundefined Hnull Hbool Hnum Hstr Harr
                     Hobj (snd kv))
                  (all rest)
            end) props)
  end.

(** The properties of an object after [_deepOmit]. *)
Definition deepOmitProps (this : SearcherInternal)
  : list (string * jsval) -> list (string * jsval) :=
  fix go (ps : list (string * jsval)) : list (string * jsval) :=
    match ps with
    | [] => []
    | (key, value) :: rest =>
        if omitted this key then go rest
        else (key, _deepOmit this value) :: go rest
    end.

(** Some property of the value, at any depth, has a key that [_deepOmit]
    omits. *)
Fixpoint hasOmitted (this : SearcherInternal) (v : jsval) : bool :=
  match v with
  | VArr items => existsb (hasOmitted this) items
  | VObj props =>
      (fix go (ps : list (string * jsval)) : bool :=
         match ps with
         | [] => false
         | (key, value) :: rest =>
             omitted this key || hasOmitted this value || go rest
         end) props
  | _ => false
  end.

(** A facet of price ranges that admits documents without a price. *)
Definition priceFacet : FacetConfig :=
  {| facet_key := "price"; facet_type := Some "ranges";
     facet_field := Some "price"; facet_nestedPath := None;
     facet_includeMissing := Some true; facet_filters := [];
     facet_ranges := [{| rangeFacet_key := VStr "low";
                         rangeFacet_from := VNum 0;
                         rangeFacet_to := VNum 500000 |}] |}.

(** ** Merge of a batch into an array *)

(** An element of the results of [processMultipleSearchResponseAsArray]. *)
Record ArrayEntry := {
  entry_results : list Hit;
  entry_totalResults : Z;
  entry_count : Z
}.

(** The merged result; [queryTimeTaken] is absent, or the number that
    [Math.max] makes of the time no element has. *)
Record MergedArray := {
  array_totalResults : Z;
  array_results : list ArrayEntry;
  array_searchText : option string;
  array_filter : option (gmap string jsval);
  array_sort : jsval;
  array_page : option Z;
  array_count : Z;
  array_queryTimeTaken : option double;
  array_prevPage : option PageLink;
  array_nextPage : option PageLink
}.

(** The element built for one response; [None] when the loop over the
    hits throws. *)
Definition arrayEntryOf (this : SearcherInternal) (response : Response)
  : option ArrayEntry :=
  match hits response with
  | Some envelope =>
      match hits_hits envelope with
      | Some hs =>
          match cliffLoop this hs with
          | None => None
          | Some locals =>
              Some {| entry_results := fst locals;
                      entry_totalResults := default 0 (total envelope);
                      entry_count := Z.of_nat (length (fst locals)) |}
          end
      | None =>
          Some {| entry_results := []; entry_totalResults := 0;
                  entry_count := 0 |}
      end
  | None =>
      Some {| entry_results := []; entry_totalResults := 0; entry_count := 0 |}
  end.

(** The body of the loop over [responses.responses] for the element of
    one response; the element has no [queryTimeTaken], of which
    [Math.max] makes [NaN]. *)
Definition arrayPush (mergedResult : MergedArray) (result : ArrayEntry)
  : MergedArray :=
  {| array_totalResults :=
       array_totalResults mergedResult + entry_totalResults result;
     array_results := array_results mergedResult ++ [result];
     array_searchText := array_searchText mergedResult;
     array_filter := array_filter mergedResult;
     array_sort := array_sort mergedResult;
     array_page := array_page mergedResult;
     array_count := array_count mergedResult + entry_count result;
     array_queryTimeTaken := Some S754_nan;
     array_prevPage := array_prevPage mergedResult;
     array_nextPage := array_nextPage mergedResult |}.

Fixpoint arrayLoop (this : SearcherInternal) (mergedResult : MergedArray)
    (responses : list Response) : option MergedArray :=
  match responses with
  | [] => Some mergedResult
  | response :: rest =>
      match arrayEntryOf this response with
      | None => None
      | Some result => arrayLoop this (arrayPush mergedResult result) rest
      end
  end.

(** [processMultipleSearchResponseAsArray]: [None] when the loop throws,
    [Some None] for the [null] returned without responses. *)
Definition processMultipleSearchResponseAsArray (this : SearcherInternal)
    (responses : option (list Response)) (input : Input) (apiType : string)
  : option (option MergedArray) :=
  match responses with
  | None => Some None
  | Some responses =>
      match
        arrayLoop this
          {| array_totalResults := 0;
             array_results := [];
             array_searchText := input_text input;
             array_filter := input_filter input;
             array_sort := input_sort input;
             array_page := input_page input;
             array_count := 0;
             array_queryTimeTaken := None;
             array_prevPage := None;
             array_nextPage := None |}
          responses
      with
      | None => None
      | Some mergedResult =>
          let baseUrl := _baseUrl input None apiType in
          Some (Some
            {| array_totalResults := array_totalResults mergedResult;
               array_results := array_results mergedResult;
               array_searchText := array_searchText mergedResult;
               array_filter := array_filter mergedResult;
               array_sort := array_sort mergedResult;
               array_page := array_page mergedResult;
               array_count := array_count mergedResult;
               array_queryTimeTaken := array_queryTimeTaken mergedResult;
               array_prevPage := prevPageOf baseUrl input;
               array_nextPage :=
                 nextPageOf baseUrl input (array_count mergedResult)
                   (array_totalResults mergedResult) |})
      end
  end.

(** [_.get(response, 'results[i].totalResults', 0)] *)
Definition probeHits (response : MergedArray) (i : nat) : Z :=
  default 0 (entry_totalResults <$> array_results response !! i).

(** The classification of [carDekhoIntentBasedSearch] from the merged
    response of the three probes. *)
Definition classifyProbes (response : MergedArray) : Composition :=
  carDekhoIntentBasedSearch (probeHits response 0) (probeHits response 1)
    (probeHits response 2).

(** ** Order of new cars *)

(** The iteratees of [sortNewCarResults]. *)
Definition sortKey (result : Hit) : double :=
  jsMul (doubleOfQ (-1)) (toNumber (_score result)).

Definition modelsFirst (result : Hit) : Z :=
  if String.eqb (_type result) "new_car_model" then 0 else 1.

(** The order of [_.sortBy] by the two iteratees: the keys of [a] do not
    come after the keys of [b], the second key deciding between equal
    first keys. *)
Definition newCarAtMost (a b : Hit) : bool :=
  jsLt (sortKey a) (sortKey b)
  || (negb (jsGt (sortKey a) (sortKey b))
      && (modelsFirst a <=? modelsFirst b)).

(** [_.sortBy] is a stable sort. *)
Definition sortNewCarResults (results : list Hit) : list Hit :=
  stableSort newCarAtMost results.

(** ** Views *)

(** A filter configuration of a view: the configuration as
    [filterQueries] reads it, and the predicate on documents that its
    property [filter] holds when it is a function. *)
Record ViewFilter := {
  view_config : FieldConfig;
  view_predicate : option (jsval -> bool)
}.

(** One turn of the loop of [postFilters]; the local is the array
    [postFilters]. *)
Definition postFilterStep (input : Input)
    (postFilters : list (option (jsval -> bool)))
    (entry : string * ViewFilter) : list (option (jsval -> bool)) :=
  let filterConfig := view_config (snd entry) in
  if negb (isPost filterConfig) then postFilters
  else
    let filterValue :=
      if truthy (inputFilterAt input (fst entry))
      then inputFilterAt input (fst entry)
      else if truthy (defaultValue filterConfig)
      then defaultValue filterConfig else VNull in
    if truthy filterValue
    then postFilters ++ [view_predicate (snd entry)]
    else postFilters.

Definition postFilters (filterConfigs : option (list (string * ViewFilter)))
    (input : Input) : option (list (option (jsval -> bool))) :=
  match filterConfigs with
  | None => None
  | Some configs => Some (foldl (postFilterStep input) [] configs)
  end.

(** [_.every(postFilters, postFilter => postFilter(doc))]; calling a
    filter that is no function fails, which is [None]. *)
Fixpoint everyPostFilter (postFilters : list (option (jsval -> bool)))
    (doc : jsval) : option bool :=
  match postFilters with
  | [] => Some true
  | Some postFilter :: rest =>
      if postFilter doc then everyPostFilter rest doc else Some false
  | None :: _ => None
  end.

Record ViewResponse := {
  view_totalResults : Z;
  view_results : list jsval
}.

(** [hit._source] *)
Definition documentOf (hit : Hit) : jsval :=
  match _source hit with
  | Some document => VObj document
  | None => VUndefined
  end.

(** The callback of [view] for one hit of a page. *)
Definition viewHit (postFilters : option (list (option (jsval -> bool))))
    (finalResponse : ViewResponse) (hit : Hit) : option ViewResponse :=
  let doc := documentOf hit in
  passes ← match postFilters with
           | None => Some true
           | Some predicates => everyPostFilter predicates doc
           end;
  Some (if passes : bool
        then {| view_totalResults := view_totalResults finalResponse + 1;
                view_results := view_results finalResponse ++ [doc] |}
        else finalResponse).

(** The callback of [view] for one page. *)
Definition viewPage (postFilters : option (list (option (jsval -> bool))))
    (finalResponse : ViewResponse) (response : Response)
  : option ViewResponse :=
  foldl (fun state hit => state ≫= fun current => viewHit postFilters current hit)
        (Some finalResponse) (responseHits response).

(** [view], for the pages that [allPages] hands to the callback. *)
Definition view (filterConfigs : option (list (string * ViewFilter)))
    (input : Input) (pages : list Response) : option ViewResponse :=
  foldl (fun state page =>
           state ≫= fun current =>
             viewPage (postFilters filterConfigs input) current page)
        (Some {| view_totalResults := 0; view_results := [] |}) pages.

(** The documents of the pages of a view, in order. *)
Definition pageDocuments (pages : list Response) : list jsval :=
  documentOf <$> concat (responseHits <$> pages).

(** A view over the stock flag of a document: a post filter that is
    switched on by default, and a page of two documents. *)
Definition inStock (doc : jsval) : bool := truthy (prop doc "stock").

Definition stockFilters : option (list (string * ViewFilter)) :=
  Some [("inStock",
         {| view_config :=
              {| field := None; weight := None; vernacularOnly := None;
                 keyword := None; noFuzzy := None; nestedPath := None;
                 cfg_filter := Some true; cfg_termQuery := None;
                 cfg_rangeQuery := None; includeMissing := None;
                 cfg_type := Some "post"; defaultValue := VBool true;
                 cfg_value := None |};
            view_predicate := Some inStock |})].

Definition stockPage : Response :=
  responseOf
    [{| _id := "1"; _score := Some 1%Q; _type := "car"; _weight := None;
        _version := None; _source := Some [("stock", VNum 3)];
        _relevancyScore := None |};
     {| _id := "2"; _score := Some 1%Q; _type := "car"; _weight := None;
        _version := None; _source := Some [("stock", VNum 0)];
        _relevancyScore := None |}] 2 1.

(** ** Query compiler: sort *)

(** An entry of the sort configuration: a field name, or an object with a
    field, a flag [default] and possibly a function [sortFn]. *)
Inductive SortConfig : Type :=
| SortName (name : string)
| SortObject (field : option string) (isDefault : bool)
             (sortFn : option (string -> jsval)).

Section Sort.

(** [_.lowerCase] of lodash, and [this.searchConfig.defaultSortOrder]. *)
Variable lowerCase : jsval -> string.
Variable configuredSortOrder : jsval.

Definition defaultSortOrder : jsval :=
  jsOr configuredSortOrder (VStr "DESC").

Definition sortOrder (order : jsval) : string :=
  if truthy order then lowerCase order else lowerCase defaultSortOrder.

Definition buildSort (config : SortConfig) (order : jsval) : jsval :=
  match config with
  | SortName name => VObj [(name, VStr (sortOrder order))]
  | SortObject field _ (Some sortFn) => sortFn (sortOrder order)
  | SortObject field _ None =>
      VObj [(fieldKey field, VStr (sortOrder order))]
  end.

(** [_.isObject(config) && config.default] *)
Definition isDefaultSort (config : SortConfig) : bool :=
  match config with
  | SortName _ => false
  | SortObject _ isDefault _ => isDefault
  end.

Definition buildDefaultSort (configs : list SortConfig) : jsval :=
  VArr ((fun config => buildSort config VUndefined)
          <$> List.filter isDefaultSort configs).

(** The test of [_.find] in [sortPart]. *)
Definition sortMatches (requested : jsval) (config : SortConfig) : bool :=
  match config with
  | SortName name => isStr requested name
  | SortObject field _ _ => strictEq (ofOptStr field) requested
  end.

(** [sortPart], for the sort configuration of the type
    ([searchTypeConfig.sort || searchTypeConfig.indexType.sort]), which is
    an array or, as [None], anything else. *)
Definition sortPart (sortConfigs : option (list SortConfig)) (input : Input)
  : jsval :=
  match sortConfigs with
  | None => VUndefined
  | Some configs =>
      if truthy (input_sort input) && truthy (prop (input_sort input) "field")
      then
        match List.find (sortMatches (prop (input_sort input) "field")) configs with
        | Some matchingConfig =>
            buildSort matchingConfig (prop (input_sort input) "order")
        | None => VUndefined
        end
      else buildDefaultSort configs
  end.

(** The local [sort] of [searchQuery]. *)
Definition sortClause (sortConfigs : option (list SortConfig)) (input : Input)
  : jsval :=
  let sort := jsOr (sortPart sortConfigs input) VUndefined in
  if truthy sort && isEmpty sort then VUndefined else sort.

End Sort.

(** ** Query compiler: aggregations *)

(** A facet as [facet] validates it: every property may be missing.  The
    named filters are keyed by strings. *)
Record FacetDeclaration := {
  declared_key : option string;
  declared_type : option string;
  declared_field : option string;
  declared_nestedPath : option string;
  declared_ranges : option (list RangeFacet);
  declared_filters : option (list (string * jsval))
}.

Record AggregationConfig := {
  aggregation_type : option string;
  aggregation_field : option string
}.

Definition facetAggregation (aggregationConfig : AggregationConfig) : jsval :=
  VObj [(fieldKey (aggregation_type aggregationConfig),
         VObj [("field", ofOptStr (aggregation_field aggregationConfig))])].

Definition declaredAs (facetConfig : FacetDeclaration) (name : string) : bool :=
  match declared_type facetConfig with
  | Some t => String.eqb t name
  | None => false
  end.

Section Aggregations.

(** The constructor of the error class of [humane-node-commons]. *)
Variable ValidationError : string -> jsval -> jsval.

Definition facetError (message code : string) (more : list (string * jsval))
  : jsval :=
  ValidationError message
    (VObj [("details", VObj (("code", VStr code) :: more))]).

Definition facetDetails (facetConfig : FacetDeclaration)
  : list (string * jsval) :=
  [("facetName", ofOptStr (declared_key facetConfig));
   ("facetType", ofOptStr (declared_type facetConfig))].

(** The function mapped over the ranges of a facet of ranges. *)
Definition facetRange (facetConfig : FacetDeclaration) (range : RangeFacet)
  : Completion jsval :=
  if negb (truthy (rangeFacet_key range)) then
    Thrown (facetError "No range facet key defined"
              "NO_RANGE_FACET_KEY_DEFINED" (facetDetails facetConfig))
  else if negb (truthy (rangeFacet_from range))
          && negb (truthy (rangeFacet_to range)) then
    Thrown (facetError "None of range from & to defined"
              "NO_RANGE_ENDS_DEFINED" (facetDetails facetConfig))
  else Returned (VObj [("key", rangeFacet_key range);
                       ("from", rangeFacet_from range);
                       ("to", rangeFacet_to range)]).

(** [_.map] with a function that may throw: the first failure ends it. *)
Fixpoint mapThrowing {A B : Type} (f : A -> Completion B) (l : list A)
  : Completion (list B) :=
  match l with
  | [] => Returned []
  | x :: rest =>
      match f x with
      | Thrown error => Thrown error
      | Returned y =>
          match mapThrowing f rest with
          | Thrown error => Thrown error
          | Returned ys => Returned (y :: ys)
          end
      end
  end.

(** The value of a facet before the summaries and the nested envelope. *)
Definition facetValue (facetConfig : FacetDeclaration)
  : Completion (list (string * jsval)) :=
  if declaredAs facetConfig "field" then
    Returned [("terms", VObj [("field", ofOptStr (declared_field facetConfig));
                              ("size", VNum 1000)])]
  else if declaredAs facetConfig "min-max" then
    Returned [("stats", VObj [("field", ofOptStr (declared_field facetConfig))])]
  else if declaredAs facetConfig "ranges" then
    match declared_ranges facetConfig with
    | None =>
        Thrown (facetError "No ranges defined for range type facet"
                  "NO_RANGES_DEFINED" (facetDetails facetConfig))
    | Some ranges =>
        match mapThrowing (facetRange facetConfig) ranges with
        | Thrown error => Thrown error
        | Returned built =>
            Returned [("range",
                       VObj [("field", ofOptStr (declared_field facetConfig));
                             ("ranges", VArr built)])]
        end
    end
  else if declaredAs facetConfig "filters" then
    match declared_filters facetConfig with
    | None =>
        Thrown (facetError "No filters defined for filters type facet"
                  "NO_FILTERS_DEFINED" (facetDetails facetConfig))
    | Some named =>
        Returned [("filters",
                   VObj [("filters",
                          VObj (foldl (fun filters entry =>
                                         assign (fst entry) (snd entry) filters)
                                      [] named))])]
    end
  else
    Thrown (facetError "Unknown facet type" "UNKNOWN_FACET_TYPE"
              (facetDetails facetConfig)).

Definition summaryAggregations
    (summariesConfig : list (string * AggregationConfig))
  : list (string * jsval) :=
  foldl (fun aggregations entry =>
           assign (fst entry) (facetAggregation (snd entry)) aggregations)
        [] summariesConfig.

Definition nestsFacet (facetConfig : FacetDeclaration) : bool :=
  (declaredAs facetConfig "field" || declaredAs facetConfig "ranges"
   || declaredAs facetConfig "min-max")
  && truthyStr (declared_nestedPath facetConfig).

(** [facet]: the key and the value of the aggregation, or the validation
    error thrown. *)
Definition facet (facetConfig : FacetDeclaration)
    (summariesConfig : option (list (string * AggregationConfig)))
  : Completion (string * jsval) :=
  if negb (truthyStr (declared_key facetConfig)) then
    Thrown (facetError "No name defined for facet" "NO_FACET_NAME_DEFINED" [])
  else if negb (truthyStr (declared_type facetConfig)) then
    Thrown (facetError "No facet type defined" "NO_FACET_TYPE_DEFINED"
              [("facetName", ofOptStr (declared_key facetConfig))])
  else if (declaredAs facetConfig "field" || declaredAs facetConfig "ranges")
          && negb (truthyStr (declared_field facetConfig)) then
    Thrown (facetError "No facet field defined" "NO_FACET_FIELD_DEFINED"
              (facetDetails facetConfig))
  else
    match facetValue facetConfig with
    | Thrown error => Thrown error
    | Returned value =>
        let value :=
          match summariesConfig with
          | Some summaries =>
              assign "aggs" (VObj (summaryAggregations summaries)) value
          | None => value
          end in
        let value :=
          if nestsFacet facetConfig
          then [("nested",
                 VObj [("path", ofOptStr (declared_nestedPath facetConfig))]);
                ("aggs", VObj [("nested", VObj value)])]
          else value in
        Returned (fieldKey (declared_key facetConfig), VObj value)
    end.

(** The loop of [facetsPart] over the facets; the local is the object
    [facets]. *)
Fixpoint facetsLoop (facetConfigs : list FacetDeclaration)
    (summariesConfig : option (list (string * AggregationConfig)))
    (facets : list (string * jsval)) : Completion (list (string * jsval)) :=
  match facetConfigs with
  | [] => Returned facets
  | facetConfig :: rest =>
      match facet facetConfig summariesConfig with
      | Thrown error => Thrown error
      | Returned built =>
          facetsLoop rest summariesConfig
            (assign (fst built) (snd built) facets)
      end
  end.

(** [facetsPart], for the facets and the summaries of the type
    configuration; [null] without facets. *)
Definition facetsPart (facetConfigs : option (list FacetDeclaration))
    (summariesConfig : option (list (string * AggregationConfig)))
  : Completion jsval :=
  match facetConfigs with
  | None => Returned VNull
  | Some configs =>
      let summaryFacets :=
        foldl (fun facets entry =>
                 assign ("__summary_" +:+ fst entry +:+ "__")
                        (facetAggregation (snd entry)) facets)
              [] (default [] summariesConfig) in
      match facetsLoop configs summariesConfig summaryFacets with
      | Thrown error => Thrown error
      | Returned facets => Returned (VObj facets)
      end
  end.

(** The local [facets] of [searchQuery], the aggregations of the query. *)
Definition aggregations (facetConfigs : option (list FacetDeclaration))
    (summariesConfig : option (list (string * AggregationConfig)))
  : Completion jsval :=
  match facetsPart facetConfigs summariesConfig with
  | Thrown error => Thrown error
  | Returned built =>
      let facets := jsOr built VUndefined in
      Returned (if truthy facets && isEmpty facets then VUndefined else facets)
  end.

End Aggregations.

(** A facet is well formed for [facet]. *)
Definition wellFormedRange (range : RangeFacet) : bool :=
  truthy (rangeFacet_key range)
  && (truthy (rangeFacet_from range) || truthy (rangeFacet_to range)).

Definition wellFormedFacet (facetConfig : FacetDeclaration) : bool :=
  truthyStr (declared_key facetConfig)
  && (   (declaredAs facetConfig "field"
          && truthyStr (declared_field facetConfig))
      || declaredAs facetConfig "min-max"
      || (declaredAs facetConfig "ranges"
          && truthyStr (declared_field facetConfig)
          && match declared_ranges facetConfig with
             | Some ranges => forallb wellFormedRange ranges
             | None => false
             end)
      || (declaredAs facetConfig "filters"
          && match declared_filters facetConfig with
             | Some _ => true
             | None => false
             end)).

(** * Properties *)

(** ** Response processor: the relevancy cliff filter *)

Lemma processSource_is_Some this hit :
  is_Some (_processSource this hit) <-> hasDocument hit = true.
Proof.
  unfold _processSource, hasDocument. destruct (_source hit).
  - split; [reflexivity|]. intros _. eexists. reflexivity.
  - split; [intros [? ?]|]; discriminate.
Qed.

Lemma processSource_score this hit hitOut :
  _processSource this hit = Some hitOut -> _score hitOut = _score hit.
Proof.
  unfold _processSource. destruct (_source hit); [|discriminate].
  by intros [= <-].
Qed.

Lemma cliffFrom_snoc this hs hit :
  forall locals,
    cliffFrom this locals (hs ++ [hit])
    = cliffFrom this locals hs ≫= fun locals => cliffStep this locals hit.
Proof.
  induction hs as [|h hs IH]; intros locals; simpl.
  - destruct (cliffStep this locals hit); reflexivity.
  - destruct (cliffStep this locals h); [apply IH|reflexivity].
Qed.

Lemma cliffLoop_snoc this hs hit :
  cliffLoop this (hs ++ [hit])
  = cliffLoop this hs ≫= fun locals => cliffStep this locals hit.
Proof. apply cliffFrom_snoc. Qed.

(** The loop ends without an exception exactly when every hit has a
    document. *)
Lemma cliffFrom_is_Some this hs :
  forall locals,
    is_Some (cliffFrom this locals hs) <-> forallb hasDocument hs = true.
Proof.
  induction hs as [|hit hs IH]; intros locals; simpl.
  - split; [reflexivity|]. intros _. eexists. reflexivity.
  - unfold cliffStep. pose proof (processSource_is_Some this hit) as Hsource.
    destruct (_processSource this hit) as [hitOut|].
    + assert (Hdoc : hasDocument hit = true) by (apply Hsource; eauto).
      rewrite Hdoc. simpl.
      destruct (aboveCliff (snd locals) (_score hitOut)); apply IH.
    + assert (Hdoc : hasDocument hit = false).
      { destruct (hasDocument hit); [|reflexivity].
        destruct Hsource as [_ Hsome]. destruct (Hsome eq_refl). discriminate. }
      rewrite Hdoc. simpl. split; [intros [? ?]|]; discriminate.
Qed.

(** The local [previousScore] is [null] before the first hit and the score
    of the last kept hit afterwards; nothing is dropped before something is
    kept. *)
Lemma cliffLoop_reference this hs :
  forall locals,
    cliffLoop this hs = Some locals ->
    snd locals = last (fst locals) ≫= _score
    /\ (fst locals = [] -> hs = []).
Proof.
  induction hs as [|hit hs IH] using rev_ind; intros locals Hloop.
  - injection Hloop as <-. split; reflexivity.
  - rewrite cliffLoop_snoc in Hloop.
    destruct (cliffLoop this hs) as [before|]; [|discriminate].
    destruct (IH before eq_refl) as [Href Hnil].
    simpl in Hloop. unfold cliffStep in Hloop.
    destruct (_processSource this hit) as [hitOut|]; [|discriminate].
    destruct (aboveCliff (snd before) (_score hitOut)) eqn:Habove;
      injection Hloop as <-; simpl.
    + rewrite last_snoc. split; [reflexivity|].
      intros Hcontra. destruct (fst before); discriminate.
    + split; [exact Href|]. intros Hempty.
      rewrite Href, Hempty in Habove. discriminate.
Qed.

(** C1, as the code has it.  The results of [_processResponse] are what
    the relevancy cliff filter keeps of the hits, in order.  The filter
    ends without an exception exactly when every hit has a document.  Then
    the first hit is kept; a later hit is kept when the last hit kept
    before it has no score, and otherwise exactly when the quotient of its
    score (0 for no score) by the score of the last hit kept before it, in
    the arithmetic of doubles, is greater than 0.40; the reference score is
    the score of the last kept hit, so a dropped hit never changes it.  Of
    the scores 100, 90, 30, 28 the hits with 100 and 90 are kept; of
    the scores 0.7 and 0.28 both, the quotient of the two doubles being
    0.4000000000000001; and of the scores 5000000000000002 and
    2000000000000001 the first alone, the quotient of the two doubles
    being the double 0.40 and not more. *)
Theorem relevancy_cliff_filter
    (this : SearcherInternal) (response : Response) (type : option string)
    (input : Input) (apiType : string) :
  let kept := fun hs => fst <$> cliffLoop this hs in
  results <$> _processResponse this response type input apiType
    = kept (responseHits response)
  /\ (forall hs, is_Some (kept hs) <-> forallb hasDocument hs = true)
  /\ (forall hit rest results,
        kept (hit :: rest) = Some results ->
        is_Some (head results) /\ head results = _processSource this hit)
  /\ (forall before hit results hitOut,
        before <> [] ->
        kept before = Some results ->
        _processSource this hit = Some hitOut ->
        exists previous,
          last results = Some previous
          /\ snd <$> cliffLoop this before = Some (_score previous)
          /\ kept (before ++ [hit])
             = Some (if match _score previous with
                        | None => true
                        | Some reference =>
                            jsGt (jsDiv (jsMul (toNumber (_score hit))
                                               (doubleOfQ 1))
                                        (doubleOfQ reference))
                                 (doubleOfQ (40 # 100))
                        end
                     then results ++ [hitOut]
                     else results))
  /\ fmap (M := list) _score
       <$> kept [hitOfScore "a" 100; hitOfScore "b" 90;
                 hitOfScore "c" 30; hitOfScore "d" 28]
     = Some [Some 100%Q; Some 90%Q]
  /\ fmap (M := list) _score
       <$> kept [hitOfScore "a" (7 # 10); hitOfScore "b" (28 # 100)]
     = Some [Some (7 # 10)%Q; Some (28 # 100)%Q]
  /\ fmap (M := list) _score
       <$> kept [hitOfScore "a" 5000000000000002;
                 hitOfScore "b" 2000000000000001]
     = Some [Some 5000000000000002%Q].
Proof.
  cbv zeta. split; [|split; [|split; [|split; [|split; [|split]]]]].
  - unfold _processResponse.
    destruct (cliffLoop this (responseHits response)); reflexivity.
  - intros hs. rewrite fmap_is_Some. apply cliffFrom_is_Some.
  - intros hit rest results Hkept.
    assert (Hgen : forall hs acc prev x locals,
               cliffFrom this (x :: acc, prev) hs = Some locals ->
               head (fst locals) = Some x).
    { induction hs as [|h hs IH]; intros acc prev x locals Hloop.
      - injection Hloop as <-. reflexivity.
      - simpl in Hloop. unfold cliffStep in Hloop.
        destruct (_processSource this h) as [hOut|]; [|discriminate].
        simpl in Hloop.
        destruct (aboveCliff prev (_score hOut)); simpl in Hloop;
          eapply IH; exact Hloop. }
    unfold cliffLoop in Hkept. simpl in Hkept. unfold cliffStep in Hkept.
    destruct (_processSource this hit) as [hitOut|]; [|discriminate].
    simpl in Hkept.
    destruct (cliffFrom this ([hitOut], _score hitOut) rest) as [locals|] eqn:Hloop;
      [|discriminate].
    injection Hkept as <-. rewrite (Hgen _ _ _ _ _ Hloop). eauto.
  - intros before hit results hitOut Hne Hkept Hsource.
    destruct (cliffLoop this before) as [locals|] eqn:Hloop; [|discriminate].
    injection Hkept as <-.
    destruct (cliffLoop_reference this before locals Hloop) as [Href Hnil].
    destruct (last (fst locals)) as [previous|] eqn:Hlast.
    + exists previous. split; [reflexivity|]. split; [simpl; by rewrite Href|].
      rewrite cliffLoop_snoc, Hloop. simpl. unfold cliffStep.
      rewrite Hsource, Href. simpl.
      rewrite (processSource_score this hit hitOut Hsource).
      unfold aboveCliff.
      destruct (_score previous) as [reference|]; [|reflexivity].
      destruct (jsGt _ _); reflexivity.
    + exfalso. apply Hne, Hnil.
      destruct (fst locals) as [|x l] using rev_ind; [reflexivity|].
      rewrite last_snoc in Hlast. discriminate.
  - vm_compute. reflexivity.
  - vm_compute. reflexivity.
  - vm_compute. reflexivity.
Qed.

(** C1 as stated fails for a response sorted by a field, whose hits have
    no score: every hit is kept, although no hit has a ratio above 0.40 to
    the hit before it (the quotient of the two scores is [NaN]).  It also
    fails for the scores 0.7 and 0.28, whose ratio is 0.40 and not more:
    the second hit is kept, because the quotient of the two doubles is
    more than the double 0.40. *)
Lemma relevancy_cliff_filter_not_by_ratio_alone :
  let unscored := [unscoredHit "a"; unscoredHit "b"; unscoredHit "c"] in
  let rounded := [hitOfScore "a" (7 # 10); hitOfScore "b" (28 # 100)] in
  fst <$> cliffLoop anySearcher unscored = Some unscored
  /\ jsGt (jsDiv (jsMul (toNumber (_score (unscoredHit "b"))) (doubleOfQ 1))
                 (toNumber (_score (unscoredHit "a"))))
          (doubleOfQ (40 # 100))
     = false
  /\ fst <$> cliffLoop anySearcher rounded = Some rounded
  /\ ~ (40 # 100 < (28 # 100) / (7 # 10))%Q.
Proof.
  repeat split; try (vm_compute; reflexivity).
  intros Hlt. vm_compute in Hlt. discriminate.
Qed.

(** ** Response processor: pagination *)

Lemma prevPageOf_spec baseUrl input link :
  prevPageOf baseUrl input = Some link
  <-> exists p, input_page input = Some p /\ 0 < p
                /\ link = {| page := p - 1; url := (baseUrl, p - 1) |}.
Proof.
  unfold prevPageOf. destruct (input_page input) as [p|].
  - destruct (0 <? p) eqn:Hp.
    + apply Z.ltb_lt in Hp. split.
      * intros [= <-]. exists p. auto.
      * intros (q & [= <-] & _ & ->). reflexivity.
    + apply Z.ltb_ge in Hp. split; [discriminate|].
      intros (q & [= <-] & Hq & _). lia.
  - split; [discriminate|]. intros (q & Hq & _). discriminate.
Qed.

Lemma nextPageOf_spec baseUrl input count totalResults link :
  nextPageOf baseUrl input count totalResults = Some link
  <-> exists p c, input_page input = Some p /\ input_count input = Some c
                  /\ p * c + count < totalResults
                  /\ link = {| page := p + 1; url := (baseUrl, p + 1) |}.
Proof.
  unfold nextPageOf, numLt, numAdd, numMul.
  destruct (input_page input) as [p|].
  - destruct (input_count input) as [c|]; simpl.
    + destruct (c * p + count <? totalResults) eqn:Hlt.
      * apply Z.ltb_lt in Hlt. split.
        -- intros [= <-]. exists p, c. repeat split; lia.
        -- intros (q & d & [= <-] & [= <-] & _ & ->). reflexivity.
      * apply Z.ltb_ge in Hlt. split; [discriminate|].
        intros (q & d & [= <-] & [= <-] & Hq & _). lia.
    + split; [discriminate|]. intros (q & d & _ & Hd & _). discriminate.
  - split; [discriminate|]. intros (q & d & Hq & _). discriminate.
Qed.

Lemma processResponse_is_Some this response type input apiType :
  is_Some (_processResponse this response type input apiType)
  <-> forallb hasDocument (responseHits response) = true.
Proof.
  unfold _processResponse. rewrite <- (cliffFrom_is_Some this _ ([], None)).
  fold (cliffLoop this (responseHits response)).
  destruct (cliffLoop this (responseHits response)); split; intros [? ?];
    try discriminate; eauto.
Qed.

(** C3.  [_processResponse] returns a result whenever every hit has a
    document.  In the result the previous-page link is
    present exactly when the requested page is greater than 0, and the
    next-page link exactly when page * count plus the number of results
    of this response is less than [totalResults]; the links name the
    adjacent pages. *)
Theorem pagination_links
    (this : SearcherInternal) (response : Response) (type : option string)
    (input : Input) (apiType : string) :
  (is_Some (_processResponse this response type input apiType)
   <-> forallb hasDocument (responseHits response) = true)
  /\ forall result,
       _processResponse this response type input apiType = Some result ->
       (is_Some (prevPage result)
        <-> exists p, input_page input = Some p /\ 0 < p)
       /\ (is_Some (nextPage result)
           <-> exists p c, input_page input = Some p
                           /\ input_count input = Some c
                           /\ p * c + Z.of_nat (length (results result))
                              < totalResults result)
       /\ (forall link p, prevPage result = Some link ->
             input_page input = Some p -> page link = p - 1)
       /\ (forall link p, nextPage result = Some link ->
             input_page input = Some p -> page link = p + 1).
Proof.
  split; [apply processResponse_is_Some|].
  intros result Hresult. unfold _processResponse in Hresult.
  destruct (cliffLoop this (responseHits response)) as [locals|];
    [|discriminate].
  injection Hresult as <-. unfold resultOf; simpl. repeat split.
  - intros [link Hlink]. apply prevPageOf_spec in Hlink.
    destruct Hlink as (p & Hp & Hpos & _). eauto.
  - intros (p & Hp & Hpos). eexists. apply prevPageOf_spec. eauto.
  - intros [link Hlink]. apply nextPageOf_spec in Hlink.
    destruct Hlink as (p & c & Hp & Hc & Hlt & _). eauto.
  - intros (p & c & Hp & Hc & Hlt). eexists. apply nextPageOf_spec.
    exists p, c. eauto.
  - intros link p Hlink Hp. apply prevPageOf_spec in Hlink.
    destruct Hlink as (q & Hq & _ & ->). simpl. congruence.
  - intros link p Hlink Hp. apply nextPageOf_spec in Hlink.
    destruct Hlink as (q & c & Hq & _ & _ & ->). simpl. congruence.
Qed.

(** ** Multi-type merge *)

Lemma assoc_assign {A : Type} (key k : string) (x : A) ps :
  assoc key (assign k x ps) = if String.eqb k key then Some x else assoc key ps.
Proof.
  induction ps as [|[k' y] ps IH]; simpl.
  - reflexivity.
  - destruct (String.eqb k' k) eqn:Hk; simpl.
    + apply String.eqb_eq in Hk. subst k'.
      destruct (String.eqb k key); reflexivity.
    + destruct (String.eqb k' key) eqn:Hk'; [|exact IH].
      destruct (String.eqb k key) eqn:Hkk; [|reflexivity].
      apply String.eqb_eq in Hk', Hkk. subst. rewrite String.eqb_refl in Hk.
      discriminate.
Qed.

Lemma typeKey_hasType key result k :
  typeKey (type result) = Some k -> hasType key result = String.eqb k key.
Proof.
  unfold typeKey, hasType. destruct (type result) as [t|]; [|discriminate].
  destruct (String.eqb t ""); [discriminate|]. by intros [= ->].
Qed.

Lemma sumZ_cons {A : Type} (f : A -> Z) x l :
  sumZ (f <$> x :: l) = f x + sumZ (f <$> l).
Proof. reflexivity. Qed.

Lemma maxZ_cons {A : Type} (f : A -> Z) x l :
  maxZ (f <$> x :: l) = Z.max (f x) (maxZ (f <$> l)).
Proof. reflexivity. Qed.

Lemma foldr_max_start (d t : Z) l :
  foldr Z.max (Z.max d t) l = foldr Z.max d (t :: l).
Proof. induction l as [|x l IH]; simpl in *; lia. Qed.

(** The loop is the body of the loop folded over the per-type results,
    and throws when one of them cannot be computed. *)
Lemma mergeLoop_perType this types input apiType responses :
  forall mergedResult k,
    mergeLoop this types input apiType mergedResult k responses
    = foldl mergeResult mergedResult
        <$> perTypeFrom this types input apiType k responses.
Proof.
  induction responses as [|response rest IH]; intros mergedResult k;
    [reflexivity|].
  simpl. unfold mergeStep.
  destruct (_processResponse this response (typeAt types k) input apiType)
    as [result|]; [|reflexivity].
  rewrite IH.
  destruct (perTypeFrom this types input apiType (S k) rest); reflexivity.
Qed.

(** The per-type results are computed position by position, and all of
    them exactly when every hit of every response has a document. *)
Lemma perTypeFrom_lookup this types input apiType responses :
  forall k perTypeResults,
    perTypeFrom this types input apiType k responses = Some perTypeResults ->
    forall i response,
      responses !! i = Some response ->
      perTypeResults !! i
      = _processResponse this response (typeAt types (k + i)) input apiType.
Proof.
  induction responses as [|response rest IH]; intros k perTypeResults Hall i r Hi;
    [discriminate|].
  simpl in Hall.
  destruct (_processResponse this response (typeAt types k) input apiType)
    as [result|] eqn:Hresult; [|discriminate].
  destruct (perTypeFrom this types input apiType (S k) rest) as [others|] eqn:Hrest;
    [|discriminate].
  injection Hall as <-. destruct i as [|i]; simpl in *.
  - injection Hi as <-. rewrite Nat.add_0_r. by rewrite Hresult.
  - rewrite (IH (S k) others Hrest i r Hi).
    replace (S k + i)%nat with (k + S i)%nat by lia. reflexivity.
Qed.

Lemma perTypeFrom_is_Some this types input apiType responses :
  forall k,
    is_Some (perTypeFrom this types input apiType k responses)
    <-> Forall (fun response =>
                  forallb hasDocument (responseHits response) = true)
          responses.
Proof.
  induction responses as [|response rest IH]; intros k; simpl.
  - split; [constructor|]. intros _. eexists. reflexivity.
  - pose proof (processResponse_is_Some this response (typeAt types k) input
                  apiType) as Hhere.
    specialize (IH (S k)). rewrite List.Forall_cons_iff, <- Hhere, <- IH.
    destruct (_processResponse this response (typeAt types k) input apiType);
      destruct (perTypeFrom this types input apiType (S k) rest);
      split; try intros [[? ?] [? ?]]; try intros [? ?]; try discriminate;
      eauto.
Qed.

(** What the body of the loop adds to the merged result over a list of
    per-type results. *)
Lemma mergeResults_spec (perTypeResults : list Result) :
  forall mergedResult,
    let merged := List.filter isMerged perTypeResults in
    let final := foldl mergeResult mergedResult perTypeResults in
    merged_totalResults final
      = merged_totalResults mergedResult + sumZ (totalResults <$> merged)
    /\ merged_count final
       = merged_count mergedResult
         + sumZ ((fun result => Z.of_nat (length (results result))) <$> merged)
    /\ merged_queryTimeTaken final
       = match merged with
         | [] => merged_queryTimeTaken mergedResult
         | _ => Some (foldr Z.max (default 0 (merged_queryTimeTaken mergedResult))
                        (queryTimeTaken <$> merged))
         end
    /\ (forall key,
          assoc key (merged_results final)
          = match last (List.filter (hasType key) merged) with
            | Some result => Some result
            | None => assoc key (merged_results mergedResult)
            end)
    /\ multi final = multi mergedResult.
Proof.
  induction perTypeResults as [|result others IH]; intros mergedResult;
    cbv zeta.
  - simpl. repeat split; try lia; try reflexivity.
  - cbn [foldl].
    specialize (IH (mergeResult mergedResult result)).
    cbv zeta in IH. destruct IH as (Htotal & Hcount & Htime & Hkeys & Hmulti).
    set (tail := List.filter isMerged others) in *.
    change (List.filter isMerged (result :: others))
      with (if isMerged result then result :: tail else tail).
    destruct (isMerged result) eqn:Hmerged.
    + unfold isMerged in Hmerged.
      destruct (typeKey (type result)) as [key0|] eqn:Hkey; [|discriminate].
      destruct (results result) as [|hit0 hits0] eqn:Hres; [discriminate|].
      assert (Hstep :
        let step := mergeResult mergedResult result in
        merged_totalResults step
          = merged_totalResults mergedResult + totalResults result
        /\ merged_count step
           = merged_count mergedResult + Z.of_nat (length (results result))
        /\ merged_queryTimeTaken step
           = Some (Z.max (default 0 (merged_queryTimeTaken mergedResult))
                         (queryTimeTaken result))
        /\ merged_results step
           = assign key0 result (merged_results mergedResult)
        /\ multi step = multi mergedResult).
      { cbv zeta. unfold mergeResult. rewrite Hkey, Hres. repeat split. }
      cbv zeta in Hstep. destruct Hstep as (Hs1 & Hs2 & Hs3 & Hs4 & Hs5).
      rewrite Htotal, Hcount, Htime, Hmulti, Hs1, Hs2, Hs3, Hs5.
      repeat split.
      * rewrite sumZ_cons. lia.
      * rewrite sumZ_cons. lia.
      * destruct tail as [|r l]; cbn [default]; f_equal.
        -- cbn [fmap list_fmap foldr]. lia.
        -- apply foldr_max_start.
      * intros key. rewrite Hkeys, Hs4. simpl.
        rewrite (typeKey_hasType key result key0 Hkey).
        rewrite assoc_assign.
        destruct (String.eqb key0 key); simpl.
        -- destruct (List.filter (hasType key) tail) as [|r l] eqn:Hf;
             [reflexivity|].
           change (result :: r :: l) with ([result] ++ r :: l).
           rewrite last_app_cons.
           destruct (last (r :: l)) eqn:Hlast; [reflexivity|].
           apply last_None in Hlast. discriminate.
        -- reflexivity.
    + assert (Hstep : mergeResult mergedResult result = mergedResult).
      { unfold mergeResult. unfold isMerged in Hmerged.
        destruct (typeKey (type result)); [|reflexivity].
        destruct (results result); [reflexivity|discriminate]. }
      rewrite Hstep in *. auto.
Qed.

(** C7, as the code has it.  The response at each position is processed
    with the type at the same position, and the merge throws when one of
    them cannot be processed, which is when a hit has no document.
    Otherwise the results of the merge are keyed by type;
    only the per-type results that have a type and at
    least one kept hit are merged: [totalResults] and [count] are the sums
    of their total results and result counts, [queryTimeTaken] is the
    greatest of their times (absent when nothing was merged), and the
    entry of a type is the last merged result of that type. *)
Theorem multi_type_merge
    (this : SearcherInternal) (responses : list Response)
    (types : list (option string)) (input : Input) (apiType : string) :
  (is_Some (perType this types input apiType responses)
   <-> Forall (fun response =>
                 forallb hasDocument (responseHits response) = true)
         responses)
  /\ (perType this types input apiType responses = None ->
      processMultipleSearchResponse this (Some responses) types input apiType
      = None)
  /\ forall perTypeResults,
       perType this types input apiType responses = Some perTypeResults ->
       let merged := List.filter isMerged perTypeResults in
       exists mergedResult,
         processMultipleSearchResponse this (Some responses) types input
           apiType
         = Some (Some mergedResult)
         /\ (forall i response, responses !! i = Some response ->
               perTypeResults !! i
               = _processResponse this response (mjoin (types !! i))
                   input apiType)
         /\ (forall key,
               assoc key (merged_results mergedResult)
               = last (List.filter (hasType key) merged))
         /\ merged_totalResults mergedResult = sumZ (totalResults <$> merged)
         /\ merged_count mergedResult
            = sumZ ((fun result => Z.of_nat (length (results result)))
                      <$> merged)
         /\ merged_queryTimeTaken mergedResult
            = match merged with
              | [] => None
              | _ => Some (maxZ (queryTimeTaken <$> merged))
              end.
Proof.
  split; [apply perTypeFrom_is_Some|]. split.
  - intros Hnone. unfold processMultipleSearchResponse.
    rewrite mergeLoop_perType. fold (perType this types input apiType responses).
    rewrite Hnone. reflexivity.
  - intros perTypeResults Hall. cbv zeta.
    unfold processMultipleSearchResponse.
    rewrite mergeLoop_perType. fold (perType this types input apiType responses).
    rewrite Hall. cbn [fmap option_fmap option_map].
    eexists. split; [reflexivity|]. cbn [merged_results merged_totalResults
      merged_count merged_queryTimeTaken].
    match goal with
    | |- context [foldl mergeResult ?init perTypeResults] =>
        pose proof (mergeResults_spec perTypeResults init) as Hspec
    end.
    cbv zeta in Hspec. simpl in Hspec.
    destruct Hspec as (Htotal & Hcount & Htime & Hkeys & _).
    repeat split.
    + intros i response Hi.
      apply (perTypeFrom_lookup this types input apiType responses 0%nat
               perTypeResults Hall i response Hi).
    + intros key. rewrite Hkeys.
      by destruct (last (List.filter (hasType key) _)).
    + rewrite Htotal. lia.
    + rewrite Hcount. lia.
    + rewrite Htime.
      destruct (List.filter isMerged _) as [|r l]; reflexivity.
Qed.

(** C7 as stated fails: on page 1 the dealers have no hit left, and
    neither their total of 3 nor their time of 9 is merged. *)
Lemma multi_type_merge_not_all_types :
  exists perTypeResults mergedResult,
    perType anySearcher secondPageTypes (inputOf 1 10) "search"
      secondPageResponses
    = Some perTypeResults
    /\ processMultipleSearchResponse anySearcher (Some secondPageResponses)
         secondPageTypes (inputOf 1 10) "search"
       = Some (Some mergedResult)
    /\ merged_totalResults mergedResult <> sumZ (totalResults <$> perTypeResults)
    /\ merged_queryTimeTaken mergedResult
       <> Some (maxZ (queryTimeTaken <$> perTypeResults)).
Proof.
  eexists. eexists. split; [vm_compute; reflexivity|].
  split; [vm_compute; reflexivity|]. split; vm_compute; discriminate.
Qed.

(** ** Sections *)

Lemma composeLoop_spec sections :
  forall locals,
    foldl composeStep locals sections
    = (fst locals ++ omap id sections,
       snd locals + sumZ (sectionTotal <$> omap id sections)).
Proof.
  induction sections as [|[section|] rest IH]; intros [acc sum].
  - simpl. rewrite app_nil_r. f_equal. unfold sumZ. simpl. lia.
  - change (foldl composeStep (acc, sum) (Some section :: rest))
      with (foldl composeStep (acc ++ [section], sum + sectionTotal section) rest).
    rewrite IH.
    change (omap id (Some section :: rest)) with (section :: omap id rest).
    rewrite sumZ_cons. cbn [fst snd]. rewrite <- app_assoc. f_equal. lia.
  - change (foldl composeStep (acc, sum) (None :: rest))
      with (foldl composeStep (acc, sum) rest).
    rewrite IH. reflexivity.
Qed.

(** C10.  [composeSections] returns the sections that are not null and
    have at least one result, and as [totalResults] the sum of the totals
    of all sections that are not null, the removed ones included; for the
    sample sections that total (8) exceeds the sum of the totals of the
    sections returned (1). *)
Theorem composeSections_totals_include_removed :
  (forall sections : list (option SectionResponse),
     let present := omap id sections in
     composed_results (composeSections sections)
       = List.filter hasResults present
     /\ Forall (fun section => exists hit rest,
                  section_results section = Some (hit :: rest))
          (composed_results (composeSections sections))
     /\ composed_totalResults (composeSections sections)
        = sumZ (sectionTotal <$> present))
  /\ sumZ (sectionTotal <$> composed_results (composeSections sampleSections))
     < composed_totalResults (composeSections sampleSections).
Proof.
  split.
  - intros sections present. unfold composeSections.
    rewrite composeLoop_spec. simpl. fold present.
    split; [reflexivity|]. split; [|lia].
    apply Forall_forall. intros section Hin.
    apply list_elem_of_In, filter_In in Hin. destruct Hin as [_ Hhas].
    unfold hasResults in Hhas.
    destruct (section_results section) as [[|hit rest]|]; try discriminate.
    eauto.
  - vm_compute. reflexivity.
Qed.

(** ** Intent cascade *)

(** C6, as the code has it.  The classification is a function of the
    three hit counts that inspects the brand probe first, then the model
    probe, then the variant probe: for counts that are not negative it
    gives the fallback exactly when all three are 0, and otherwise the
    "single" outcome of the first probe with hits when that probe has
    exactly 1 hit and its "multi" outcome when it has more. *)
Theorem intent_cascade_classification (brandHits modelHits variantHits : Z) :
  0 <= brandHits -> 0 <= modelHits -> 0 <= variantHits ->
  let outcome := carDekhoIntentBasedSearch brandHits modelHits variantHits in
  (outcome = WithoutIntent
   <-> brandHits = 0 /\ modelHits = 0 /\ variantHits = 0)
  /\ (outcome = BrandSingle <-> brandHits = 1)
  /\ (outcome = BrandMulti <-> 1 < brandHits)
  /\ (outcome = ModelSingle <-> brandHits = 0 /\ modelHits = 1)
  /\ (outcome = ModelMulti <-> brandHits = 0 /\ 1 < modelHits)
  /\ (outcome = VariantSingle
      <-> brandHits = 0 /\ modelHits = 0 /\ variantHits = 1)
  /\ (outcome = VariantMulti
      <-> brandHits = 0 /\ modelHits = 0 /\ 1 < variantHits).
Proof.
  intros Hb Hm Hv. cbv zeta. unfold carDekhoIntentBasedSearch, searchType.
  destruct (Z.eqb_spec brandHits 0), (Z.eqb_spec brandHits 1),
    (Z.eqb_spec modelHits 0), (Z.eqb_spec modelHits 1),
    (Z.eqb_spec variantHits 0), (Z.eqb_spec variantHits 1);
    cbn; repeat split; intros; try discriminate; try lia.
Qed.

Lemma intent_cascade_classification_witness :
  let outcome := carDekhoIntentBasedSearch 0 1 3 in
  (outcome = WithoutIntent <-> 0 = 0 /\ 1 = 0 /\ 3 = 0)
  /\ (outcome = BrandSingle <-> 0 = 1)
  /\ (outcome = BrandMulti <-> 1 < 0)
  /\ (outcome = ModelSingle <-> 0 = 0 /\ 1 = 1)
  /\ (outcome = ModelMulti <-> 0 = 0 /\ 1 < 1)
  /\ (outcome = VariantSingle <-> 0 = 0 /\ 1 = 0 /\ 3 = 1)
  /\ (outcome = VariantMulti <-> 0 = 0 /\ 1 = 0 /\ 1 < 3).
Proof. apply (intent_cascade_classification 0 1 3); lia. Defined.

(** C6 as stated fails: with one brand hit and one variant hit the code
    classifies by the brand probe, the least specific one, where an
    inspection from the most specific probe would classify by the
    variant. *)
Lemma intent_cascade_not_most_specific_first :
  carDekhoIntentBasedSearch 1 0 1 = BrandSingle
  /\ compositionOf (searchTypeMostSpecificFirst 1 0 1) = VariantSingle
  /\ carDekhoIntentBasedSearch 1 0 1
     <> compositionOf (searchTypeMostSpecificFirst 1 0 1).
Proof. repeat split. discriminate. Qed.

(** ** Doubles *)

(** The doubles of some numbers: 0.40 is 0x1.999999999999ap-2, 0.5 and 1
    are powers of two, a third is rounded down, 0.7 is
    0x1.6666666666666p-1, 0.1 is rounded up, and 2^53 + 1, which lies
    halfway between two doubles, goes to the even one. *)
Lemma doubleOfQ_literals :
  doubleOfQ (40 # 100) = S754_finite false 7205759403792794 (-54)
  /\ doubleOfQ (5 # 10) = S754_finite false 4503599627370496 (-53)
  /\ doubleOfQ 1 = S754_finite false 4503599627370496 (-52)
  /\ doubleOfQ 0 = S754_zero false
  /\ doubleOfQ (1 # 3) = S754_finite false 6004799503160661 (-54)
  /\ doubleOfQ (7 # 10) = S754_finite false 6305039478318694 (-53)
  /\ doubleOfQ (1 # 10) = S754_finite false 7205759403792794 (-56)
  /\ doubleOfQ (-3 # 2) = S754_finite true 6755399441055744 (-52)
  /\ doubleOfQ 9007199254740993 = S754_finite false 4503599627370496 1
  /\ jsDiv (doubleOfQ (28 # 100)) (doubleOfQ (7 # 10))
     = S754_finite false 7205759403792795 (-54).
Proof. repeat split; vm_compute; reflexivity. Qed.

(** ** Relevancy-deflection ranker *)

(** *** The order of doubles *)

Ltac compare_doubles :=
  repeat match goal with
         | |- context [Z.compare ?x ?y] => destruct (Z.compare_spec x y)
         | |- context [Pos.compare_cont Eq ?x ?y] =>
             change (Pos.compare_cont Eq x y) with (Pos.compare x y);
             destruct (Pos.compare_spec x y)
         end;
  cbn; split; intros; try discriminate; try reflexivity; try lia.

Lemma jsLt_rank (a b : double) :
  isNumber a -> isNumber b ->
  jsLt a b = true <-> rankLt (rank a) (rank b).
Proof.
  unfold isNumber, jsLt, SFltb, SFcompare, rankLt.
  destruct a as [[]|[]| |[] ma ea], b as [[]|[]| |[] mb eb];
    intros Ha Hb; try discriminate; cbn; compare_doubles.
Qed.

Lemma jsGe_rank (a b : double) :
  isNumber a -> isNumber b ->
  jsGe a b = true <-> ~ rankLt (rank a) (rank b).
Proof.
  unfold isNumber, jsGe, SFleb, SFcompare, rankLt.
  destruct a as [[]|[]| |[] ma ea], b as [[]|[]| |[] mb eb];
    intros Ha Hb; try discriminate; cbn; compare_doubles.
Qed.

Lemma descending_rank (a b : double) :
  isNumber a -> isNumber b ->
  descending a b = true <-> ~ rankLt (rank a) (rank b).
Proof.
  intros Ha Hb. unfold descending. rewrite negb_true_iff.
  rewrite <- (jsLt_rank a b Ha Hb). destruct (jsLt a b); split; congruence.
Qed.

Lemma descending_jsGe (a b : double) :
  isNumber a -> isNumber b -> descending a b = true -> jsGe a b = true.
Proof.
  intros Ha Hb H. apply jsGe_rank; [assumption..|].
  apply descending_rank; assumption.
Qed.

Lemma descending_total (a b : double) :
  isNumber a -> isNumber b -> descending a b = false -> descending b a = true.
Proof.
  intros Ha Hb Hab. apply descending_rank; [assumption..|].
  assert (Hlt : rankLt (rank a) (rank b)).
  { apply jsLt_rank; [assumption..|]. unfold descending in Hab.
    by destruct (jsLt a b). }
  unfold rankLt in *. lia.
Qed.

Lemma descending_trans (a b c : double) :
  isNumber a -> isNumber b -> isNumber c ->
  descending a b = true -> descending b c = true -> descending a c = true.
Proof.
  intros Ha Hb Hc Hab Hbc.
  apply descending_rank in Hab, Hbc; try assumption.
  apply descending_rank; [assumption..|]. unfold rankLt in *. lia.
Qed.

(** A quotient that is a number has a dividend that is a number. *)
Lemma jsDiv_isNumber (a b : double) : isNumber (jsDiv a b) -> isNumber a.
Proof.
  unfold isNumber. destruct a; try reflexivity.
  destruct b; cbn; intros; congruence.
Qed.

(** Rounding never makes [NaN] of a mantissa that is not negative. *)
Lemma shr_1_nonneg (mrs : shr_record) :
  0 <= shr_m mrs -> 0 <= shr_m (shr_1 mrs).
Proof.
  destruct mrs as [m r s]. destruct m as [|[p|p|]|[p|p|]]; cbn; lia.
Qed.

Lemma iter_shr_1_nonneg (p : positive) :
  forall mrs, 0 <= shr_m mrs -> 0 <= shr_m (SpecFloat.iter_pos shr_1 p mrs).
Proof.
  induction p as [p IH|p IH|]; intros mrs Hm; cbn.
  - apply IH, IH, shr_1_nonneg, Hm.
  - apply IH, IH, Hm.
  - apply shr_1_nonneg, Hm.
Qed.

Lemma shr_fexp_nonneg (m e : Z) (l : location) :
  0 <= m -> 0 <= shr_m (fst (shr_fexp 53 1024 m e l)).
Proof.
  intros Hm. unfold shr_fexp, shr.
  assert (Hstart : 0 <= shr_m (shr_record_of_loc m l)).
  { destruct l as [|[]]; exact Hm. }
  destruct (fexp 53 1024 (Zdigits2 m + e) - e) as [|p|p]; cbn [fst];
    try exact Hstart.
  apply iter_shr_1_nonneg, Hstart.
Qed.

Lemma binary_round_aux_isNumber (sx : bool) (mx ex : Z) (lx : location) :
  0 <= mx -> isNumber (binary_round_aux 53 1024 sx mx ex lx).
Proof.
  intros Hm. unfold binary_round_aux.
  pose proof (shr_fexp_nonneg mx ex lx Hm) as Hfirst.
  destruct (shr_fexp 53 1024 mx ex lx) as [mrs' e']. cbn [fst] in Hfirst.
  assert (Hround : 0 <= round_nearest_even (shr_m mrs')
                          (loc_of_shr_record mrs')).
  { unfold round_nearest_even.
    destruct (loc_of_shr_record mrs') as [|[]]; try lia.
    destruct (Z.even (shr_m mrs')); lia. }
  pose proof (shr_fexp_nonneg _ e' loc_Exact Hround) as Hsecond.
  destruct (shr_fexp 53 1024 _ e' loc_Exact) as [mrs'' e''].
  cbn [fst] in Hsecond.
  destruct (shr_m mrs'') as [|m|m]; try reflexivity; [|lia].
  destruct (e'' <=? 1024 - 53); reflexivity.
Qed.

Lemma doubleOfQ_isNumber (q : Q) : isNumber (doubleOfQ q).
Proof.
  unfold doubleOfQ, binary_normalize, binary_round.
  match goal with
  | |- isNumber (match ?mantissa with _ => _ end) =>
      destruct mantissa as [|m|m]
  end; try reflexivity.
  - destruct (shl_align _ _ _). apply binary_round_aux_isNumber. lia.
  - destruct (shl_align _ _ _). apply binary_round_aux_isNumber. lia.
Qed.

Lemma toNumber_isNumber (score : option Q) : isNumber (toNumber score).
Proof. destruct score; [apply doubleOfQ_isNumber|reflexivity]. Qed.

(** The relevancy score of a hit is a number unless its score is beyond
    the range of doubles. *)
Lemma relevancy_isNumber (result : Hit) :
  match toNumber (_score result) with
  | S754_infinity _ => False
  | _ => True
  end ->
  isNumber (relevancy result).
Proof.
  unfold relevancy. pose proof (toNumber_isNumber (_score result)) as Hscore.
  assert (Hweight : truthyNumber (weightOrOne (_weight result)) = true).
  { unfold weightOrOne. destruct (_weight result) as [w|]; [|reflexivity].
    destruct (truthyNumber (doubleOfQ w)) eqn:Hw; [exact Hw|reflexivity]. }
  destruct (toNumber (_score result)) as [sa|sa| |sa ma ea];
    destruct (weightOrOne (_weight result)) as [sb|sb| |sb mb eb];
    try discriminate; try reflexivity; try contradiction.
  intros _. unfold jsDiv, SFdiv, SFdiv_core_binary.
  match goal with
  | |- context [Z.div_eucl ?a ?b] =>
      pose proof (Z_div_mod a b eq_refl) as Hdiv;
      assert (Ha : 0 <= a)
  end.
  { destruct (_ - _ - _) as [|p|p]; try lia. apply Z.shiftl_nonneg. lia. }
  destruct (Z.div_eucl _ _) as [q r].
  apply binary_round_aux_isNumber. nia.
Qed.

Create HintDb ranking.
#[local] Hint Resolve descending_total descending_trans descending_jsGe
  jsDiv_isNumber : ranking.

(** *** The stable sort *)

Section StableSort.

Context {A : Type} (mayPrecede : A -> A -> bool) (P : A -> Prop).

Let R := fun a b => mayPrecede a b = true.

Hypothesis mayPrecede_total :
  forall a b, P a -> P b -> mayPrecede a b = false -> mayPrecede b a = true.

Hypothesis mayPrecede_trans :
  forall a b c, P a -> P b -> P c ->
    mayPrecede a b = true -> mayPrecede b c = true -> mayPrecede a c = true.

Lemma insertSorted_perm (x : A) (l : list A) :
  insertSorted mayPrecede x l ≡ₚ x :: l.
Proof.
  induction l as [|y l IH]; [reflexivity|]. cbn [insertSorted].
  destruct (mayPrecede x y); [reflexivity|].
  rewrite IH. apply perm_swap.
Qed.

Lemma stableSort_perm (l : list A) : stableSort mayPrecede l ≡ₚ l.
Proof.
  induction l as [|x l IH]; [reflexivity|].
  unfold stableSort in *. cbn [foldr]. rewrite insertSorted_perm, IH.
  reflexivity.
Qed.

Lemma insertSorted_sorted (x : A) (l : list A) :
  P x -> Forall P l ->
  StronglySorted R l -> StronglySorted R (insertSorted mayPrecede x l).
Proof.
  intros Hx. induction l as [|y l IH]; intros Hl Hsorted; cbn [insertSorted].
  - repeat constructor.
  - apply List.Forall_cons_iff in Hl. destruct Hl as [Hy Hl].
    apply StronglySorted_inv in Hsorted. destruct Hsorted as [Hrest Hhead].
    destruct (mayPrecede x y) eqn:Hxy.
    + constructor; [constructor; assumption|].
      constructor; [exact Hxy|].
      apply Forall_forall. intros z Hz.
      apply (mayPrecede_trans x y z); try assumption.
      * by apply (proj1 (Forall_forall P l) Hl).
      * by apply (proj1 (Forall_forall (R y) l) Hhead).
    + constructor; [apply IH; assumption|].
      rewrite insertSorted_perm. constructor; [|exact Hhead].
      apply mayPrecede_total; assumption.
Qed.

Lemma stableSort_sorted (l : list A) :
  Forall P l -> StronglySorted R (stableSort mayPrecede l).
Proof.
  induction l as [|x l IH]; intros Hl; [constructor|].
  apply List.Forall_cons_iff in Hl. destruct Hl as [Hx Hl].
  unfold stableSort in *. cbn [foldr].
  apply insertSorted_sorted; [assumption| |apply IH, Hl].
  fold (stableSort mayPrecede l). rewrite stableSort_perm. exact Hl.
Qed.

Lemma stableSort_fixes_sorted (l : list A) :
  Sorted R l -> stableSort mayPrecede l = l.
Proof.
  induction l as [|x l IH]; intros Hsorted; [reflexivity|].
  apply Sorted_inv in Hsorted. destruct Hsorted as [Hrest Hhead].
  unfold stableSort in *. cbn [foldr]. rewrite (IH Hrest).
  destruct l as [|y l]; [reflexivity|]. cbn [insertSorted].
  inversion Hhead as [|? ? Hxy]; subst. unfold R in Hxy. rewrite Hxy.
  reflexivity.
Qed.

End StableSort.

Lemma StronglySorted_weaken {A : Type} (R R' : A -> A -> Prop) (P : A -> Prop)
    (l : list A) :
  (forall a b, P a -> P b -> R a b -> R' a b) ->
  Forall P l -> StronglySorted R l -> StronglySorted R' l.
Proof.
  intros Himpl Hl Hsorted. induction Hsorted as [|x l Hsorted IH Hhead];
    [constructor|].
  apply List.Forall_cons_iff in Hl. destruct Hl as [Hx Hl].
  constructor; [apply IH, Hl|].
  apply Forall_forall. intros y Hy. apply Himpl; try assumption.
  - by apply (proj1 (Forall_forall P l) Hl).
  - by apply (proj1 (Forall_forall (R x) l) Hhead).
Qed.

(** *** The deflection point *)

Lemma deflects_test (previousScore score : double) :
  truthyNumber previousScore
  && jsLt score (jsMul (doubleOfQ (5 # 10)) previousScore) = true
  <-> deflects previousScore score.
Proof. unfold deflects. apply andb_true_iff. Qed.

Lemma noDeflection_single (x : double) : noDeflection [x].
Proof.
  intros before previous score after Heq.
  apply (f_equal length) in Heq. rewrite length_app in Heq. simpl in Heq. lia.
Qed.

Lemma noDeflection_cons (x y : double) rest :
  ~ deflects x y -> noDeflection (y :: rest) -> noDeflection (x :: y :: rest).
Proof.
  intros Hxy Hrest before previous score after Heq.
  destruct before as [|b before]; simpl in Heq.
  - injection Heq as -> ->. intros. exact Hxy.
  - injection Heq as -> Heq. eapply Hrest. exact Heq.
Qed.

Lemma noDeflection_tail (x : double) rest :
  noDeflection (x :: rest) -> noDeflection rest.
Proof.
  intros Hall before previous score after Heq.
  apply (Hall (x :: before) previous score after). simpl. by f_equal.
Qed.

(** The scan returns the first score that is followed by a deflection, and
    0 when there is none. *)
Lemma findDeflection_spec (scores : list double) :
  forall previousScore,
    (exists before previous score after,
        previousScore :: scores = before ++ previous :: score :: after
        /\ deflects previous score
        /\ noDeflection (before ++ [previous])
        /\ findDeflection previousScore scores = previous)
    \/ (noDeflection (previousScore :: scores)
        /\ findDeflection previousScore scores = doubleOfQ 0).
Proof.
  induction scores as [|score rest IH]; intros previousScore.
  - right. split; [apply noDeflection_single|reflexivity].
  - cbn [findDeflection].
    destruct (truthyNumber previousScore
              && jsLt score (jsMul (doubleOfQ (5 # 10)) previousScore))
      eqn:Htest.
    + left. exists [], previousScore, score, rest.
      apply deflects_test in Htest.
      repeat split; try apply Htest. apply noDeflection_single.
    + assert (Hno : ~ deflects previousScore score).
      { intros Hd. apply deflects_test in Hd. congruence. }
      destruct (IH score) as
        [(before & previous & next & after & Heq & Hd & Hbefore & Hfound)
        |[Hnone Hzero]].
      * left. exists (previousScore :: before), previous, next, after.
        repeat split; try apply Hd; try exact Hfound.
        -- simpl. by f_equal.
        -- destruct before as [|b before]; simpl in *.
           ++ injection Heq as -> _. apply noDeflection_cons;
                [exact Hno|apply noDeflection_single].
           ++ injection Heq as -> _. apply noDeflection_cons;
                [exact Hno|exact Hbefore].
      * right. split; [|exact Hzero].
        apply noDeflection_cons; assumption.
Qed.

Lemma filter_fmap_comm {A B : Type} (f : A -> B) (P : B -> bool) (Q : A -> bool) l :
  (forall x, P (f x) = Q x) ->
  List.filter P (f <$> l) = f <$> List.filter Q l.
Proof.
  intros Hpq. induction l as [|x l IH]; [reflexivity|].
  cbn. rewrite Hpq. destruct (Q x); cbn; [f_equal|]; apply IH.
Qed.

(** The consolidated results are the scored hits that reach the
    deflection score, rearranged. *)
Lemma consolidate_perm (groups : list Result) :
  consolidate groups
  ≡ₚ withRelevancy
       <$> List.filter
             (fun hit => jsGe (relevancy hit) (deflectionScore groups))
             (concat (results <$> groups)).
Proof.
  unfold consolidate. rewrite stableSort_perm. unfold scoredResults.
  rewrite (filter_fmap_comm withRelevancy _
             (fun hit => jsGe (relevancy hit) (deflectionScore groups)));
    [reflexivity|].
  intros hit. reflexivity.
Qed.

(** C2, as the code has it.  [suggestedQueries] replaces the results of a
    multi response by the consolidated ones.  The relevancy score of a hit
    is the quotient, in the arithmetic of doubles, of its score (0 for no
    score) by its weight, or by 1.0 when the weight is absent or 0.  When
    no relevancy score is [NaN], as is the case when no score is beyond
    the range of doubles, the relevancy scores are sorted in descending
    order; the threshold is the first of them whose successor
    is less than the product of 0.5 and it (strictly, and only after a
    score that is not 0), and 0 when there is no such score.  The
    consolidated results are exactly the hits whose relevancy score is at
    least the threshold, each marked with its relevancy score, in
    descending order of raw score.  Of the relevancy scores 10, 4, 3 only
    the hit with 10 is kept. *)
Theorem relevancy_deflection (groups : list Result)
    (Hnumbers : Forall (fun hit => isNumber (relevancy hit))
                  (concat (results <$> groups))) :
  let hitsIn := concat (results <$> groups) in
  let sorted := stableSort descending (relevancy <$> hitsIn) in
  let threshold := deflectionScore groups in
  (forall mergedResult,
      multi mergedResult = true ->
      suggestedQueries (MultiOutput mergedResult)
      = Consolidated mergedResult
          (consolidate (snd <$> merged_results mergedResult)))
  /\ (forall hit,
      relevancy hit
      = jsDiv (toNumber (_score hit))
          match _weight hit with
          | Some w =>
              if truthyNumber (doubleOfQ w) then doubleOfQ w else doubleOfQ 1
          | None => doubleOfQ 1
          end)
  /\ sorted ≡ₚ relevancy <$> hitsIn
  /\ StronglySorted (fun a b => jsGe a b = true) sorted
  /\ ((exists before previous score after,
         sorted = before ++ previous :: score :: after
         /\ deflects previous score
         /\ noDeflection (before ++ [previous])
         /\ threshold = previous)
      \/ (noDeflection sorted /\ threshold = doubleOfQ 0))
  /\ consolidate groups
     ≡ₚ withRelevancy
          <$> List.filter (fun hit => jsGe (relevancy hit) threshold) hitsIn
  /\ StronglySorted
       (fun a b => jsGe (toNumber (_score a)) (toNumber (_score b)) = true)
       (consolidate groups)
  /\ _score <$> consolidate
                  [groupOf "a" [hitOfScore "x" 4; hitOfScore "y" 10];
                   groupOf "b" [hitOfScore "z" 3]]
     = [Some 10%Q].
Proof.
  set (hitsIn := concat (results <$> groups)) in *. cbv zeta.
  assert (Hscores : Forall isNumber (relevancy <$> hitsIn)).
  { apply Forall_fmap. exact Hnumbers. }
  split; [intros mergedResult Hmulti; simpl; by rewrite Hmulti|].
  split; [reflexivity|]. split; [apply stableSort_perm|].
  split; [|split; [|split; [|split]]].
  - apply (StronglySorted_weaken (fun a b => descending a b = true) _ isNumber).
    + auto with ranking.
    + rewrite stableSort_perm. exact Hscores.
    + apply (stableSort_sorted descending isNumber); auto with ranking.
      intros a b c. eauto with ranking.
  - unfold deflectionScore, relevancyScores. fold hitsIn.
    set (sorted := stableSort descending _).
    destruct (findDeflection_spec sorted (doubleOfQ 0)) as
      [(before & previous & score & after & Heq & Hd & Hbefore & Hfound)
      |[Hnone Hzero]].
    + left. destruct before as [|b before]; simpl in Heq.
      * injection Heq as <- _. destruct Hd as [Hnz _]. discriminate.
      * injection Heq as <- Heq. exists before, previous, score, after.
        repeat split; try apply Hd; try assumption.
        eapply noDeflection_tail. exact Hbefore.
    + right. split; [|exact Hzero]. eapply noDeflection_tail. exact Hnone.
  - apply consolidate_perm.
  - set (P := fun hit : Hit => isNumber (toNumber (_score hit))).
    assert (Hkept : Forall P (consolidate groups)).
    { rewrite consolidate_perm. apply Forall_fmap.
      apply Forall_forall. intros hit Hin.
      apply list_elem_of_In, filter_In in Hin. destruct Hin as [Hin _].
      apply list_elem_of_In in Hin.
      pose proof (proj1 (Forall_forall _ _) Hnumbers hit Hin) as Hhit.
      unfold P. simpl. eapply jsDiv_isNumber. exact Hhit. }
    apply (StronglySorted_weaken
             (fun a b => scoreDescending a b = true) _ P).
    + intros a b Ha Hb. unfold scoreDescending. auto with ranking.
    + exact Hkept.
    + unfold consolidate.
      apply (stableSort_sorted scoreDescending P).
      * intros a b Ha Hb. unfold scoreDescending. auto with ranking.
      * intros a b c Ha Hb Hc. unfold scoreDescending. eauto with ranking.
      * unfold consolidate in Hkept. rewrite stableSort_perm in Hkept.
        exact Hkept.
  - vm_compute. reflexivity.
Qed.

(** The premise of C2 holds, for instance, for a hit of score 1 and
    weight 3 and a hit of score 0.16666666666666666: the relevancy score
    of the first is the double 0.3333333333333333, the product of 0.5 and
    it is the second score and not more, so that no deflection is found
    and both hits are kept. *)
Lemma relevancy_deflection_witness :
  let groups :=
    [groupOf "a" [weightedHit "x" 1 3];
     groupOf "b" [hitOfScore "y"
                    (16666666666666666 # 100000000000000000)]] in
  let hitsIn := concat (results <$> groups) in
  Forall (fun hit => isNumber (relevancy hit)) hitsIn
  /\ StronglySorted (fun a b => jsGe a b = true)
       (stableSort descending (relevancy <$> hitsIn))
  /\ consolidate groups
     ≡ₚ withRelevancy
          <$> List.filter
                (fun hit => jsGe (relevancy hit) (deflectionScore groups))
                hitsIn
  /\ deflectionScore groups = doubleOfQ 0
  /\ _id <$> consolidate groups = ["x"; "y"].
Proof.
  cbv zeta.
  assert (Hnumbers :
    Forall (fun hit => isNumber (relevancy hit))
      (concat (results <$>
         [groupOf "a" [weightedHit "x" 1 3];
          groupOf "b" [hitOfScore "y"
                         (16666666666666666 # 100000000000000000)]]))).
  { repeat constructor. }
  split; [exact Hnumbers|].
  destruct (relevancy_deflection _ Hnumbers)
    as (_ & _ & _ & Hsorted & _ & Hperm & _).
  split; [exact Hsorted|]. split; [exact Hperm|].
  split; vm_compute; reflexivity.
Defined.

(** C2 as stated fails at one half exactly: of the relevancy scores 10 and
    5 the second is at most half of the first, so a test with "at most"
    would make 10 the threshold, but the code finds no deflection and
    keeps both hits. *)
Lemma relevancy_deflection_not_at_half :
  let groups := [groupOf "a" [hitOfScore "x" 10; hitOfScore "y" 5]] in
  findDeflectionAtMostHalf (doubleOfQ 0)
    (stableSort descending (relevancyScores groups)) = doubleOfQ 10
  /\ deflectionScore groups = doubleOfQ 0
  /\ _score <$> consolidate groups = [Some 10%Q; Some 5%Q].
Proof. repeat split; vm_compute; reflexivity. Qed.

(** ** Query compiler: the full-text clause *)

(** The envelopes around a clause depend on three tests of the field
    configuration; [envelope_cases] goes through them. *)
Ltac envelope_cases fieldConfig :=
  unfold wrapQuery, constantScoreQuery;
  destruct (truthyStr (nestedPath fieldConfig)),
    (flag (cfg_filter fieldConfig)),
    (Qeq_bool (weightOr1 (weight fieldConfig)) 1);
  reflexivity.

Lemma innerClause_wrapQuery queryField field params :
  innerClause
    (wrapQuery queryField (VObj [("humane_query", VObj [(field, params)])]))
  = VObj [("humane_query", VObj [(field, params)])].
Proof. envelope_cases queryField. Qed.

Lemma wrapQuery_not_multi queryField field params :
  prop (wrapQuery queryField (VObj [("humane_query", VObj [(field, params)])]))
       "multi_humane_query" = VUndefined.
Proof. envelope_cases queryField. Qed.

Lemma prop_query (query : jsval) : prop (VObj [("query", query)]) "query" = query.
Proof. reflexivity. Qed.

Lemma noText_nonempty (text : string) : text <> "" -> noText (Some text) = false.
Proof.
  intros Hne. simpl. apply String.eqb_neq. exact Hne.
Qed.

(** C5.  For a text that is not empty, the active query fields are the
    configured ones that are not restricted to the secondary variant; when
    exactly one is active, the compiled clause is a single weighted field
    clause for it and not a multi-field clause; when two or more are
    active, it is one multi-field clause that lists exactly the active
    fields, in order, with their weights. *)
Theorem full_text_clause
    (this : SearcherInternal) (searchTypeConfig : SearchTypeConfig)
    (text : string) (fuzzySearch : bool) (intentFields : jsval) :
  text <> "" ->
  let active := activeQueryFields searchTypeConfig in
  let query :=
    prop (buildTypeQuery this searchTypeConfig (Some text) fuzzySearch
            intentFields) "query" in
  (forall queryField,
      In queryField active
      <-> In queryField (configuredQueryFields searchTypeConfig)
          /\ flag (vernacularOnly queryField) = false)
  /\ (forall queryField, active = [queryField] ->
        singleFieldClause query queryField text
        /\ prop query "multi_humane_query" = VUndefined
        /\ prop (innerClause query) "multi_humane_query" = VUndefined)
  /\ ((2 <= length active)%nat -> multiFieldClause query active text).
Proof.
  intros Hne. cbv zeta. unfold buildTypeQuery.
  rewrite (noText_nonempty text Hne). split; [|split].
  - intros queryField. unfold activeQueryFields.
    rewrite filter_In, negb_true_iff. reflexivity.
  - intros queryField ->. cbv beta iota. rewrite prop_query.
    split; [|split].
    + eexists. split; [apply innerClause_wrapQuery|]. split; reflexivity.
    + apply wrapQuery_not_multi.
    + rewrite innerClause_wrapQuery. reflexivity.
  - intros Hlen.
    destruct (activeQueryFields searchTypeConfig) as [|first [|second rest]];
      simpl in Hlen; try lia.
    eexists _, _. split; [reflexivity|]. split; [reflexivity|].
    split; [reflexivity|].
    generalize (first :: second :: rest). intros fields.
    induction fields as [|queryField fields IH]; [reflexivity|].
    cbn. f_equal. exact IH.
Qed.

Lemma full_text_clause_witness :
  let searchTypeConfig :=
    typeConfigOf [queryFieldOf "name" 10; queryFieldOf "brand" 3] [] [] in
  let active := activeQueryFields searchTypeConfig in
  let query :=
    prop (buildTypeQuery anySearcher searchTypeConfig (Some "swift") true
            VUndefined) "query" in
  (forall queryField,
      In queryField active
      <-> In queryField (configuredQueryFields searchTypeConfig)
          /\ flag (vernacularOnly queryField) = false)
  /\ (forall queryField, active = [queryField] ->
        singleFieldClause query queryField "swift"
        /\ prop query "multi_humane_query" = VUndefined
        /\ prop (innerClause query) "multi_humane_query" = VUndefined)
  /\ ((2 <= length active)%nat -> multiFieldClause query active "swift").
Proof.
  apply (full_text_clause anySearcher
           (typeConfigOf [queryFieldOf "name" 10; queryFieldOf "brand" 3] [] [])
           "swift" true VUndefined).
  discriminate.
Defined.

(** ** Query compiler: filters that include documents without the field *)





(** ** Query compiler: facet selections *)

Lemma inputFilterAt_setFilter input key value k :
  inputFilterAt (setFilter input key value) k
  = if decide (key = k) then value else inputFilterAt input k.
Proof.
  unfold inputFilterAt, setFilter. simpl. rewrite lookup_insert.
  destruct (decide (key = k)) as [->|Hne]; [reflexivity|].
  destruct (input_filter input); simpl; [reflexivity|].
  rewrite lookup_empty. reflexivity.
Qed.

(** The loop of [filterQueries] passes over a facet selection. *)
Lemma filterStep_facet this input intentFields clauses key filterConfig :
  isFacetSelection (inputFilterAt input key) = true ->
  filterStep this input intentFields clauses (key, filterConfig) = clauses.
Proof.
  intros Hfacet. unfold filterStep. cbn [fst snd].
  destruct (isPost filterConfig); [reflexivity|].
  unfold isFacetSelection in Hfacet.
  destruct (inputFilterAt input key) as [| | | | |items|props];
    try discriminate.
  cbn [isValidValue isNullish negb isStr andb isObject].
  cbn [isObject andb] in Hfacet. rewrite Hfacet.
  destruct (prop (VObj props) "type") as [| | | |s| |]; try discriminate.
  cbn [isStr] in Hfacet. cbn [truthy].
  destruct (String.eqb s "") eqn:Hempty.
  - apply String.eqb_eq in Hempty. subst s. discriminate.
  - reflexivity.
Qed.

(** A turn of the loop reads the request filter at its own key only. *)
Lemma filterStep_ext this input1 input2 intentFields clauses key filterConfig :
  inputFilterAt input1 key = inputFilterAt input2 key ->
  filterStep this input1 intentFields clauses (key, filterConfig)
  = filterStep this input2 intentFields clauses (key, filterConfig).
Proof. intros Heq. unfold filterStep. cbn [fst snd]. rewrite Heq. reflexivity. Qed.

(** The loop of [facetQueries] passes over everything but a facet
    selection. *)
Lemma facetStep_other this input intentFields clauses facetConfig :
  isFacetSelection (inputFilterAt input (facet_key facetConfig)) = false ->
  facetStep this input intentFields clauses facetConfig = clauses.
Proof.
  intros Hother. unfold facetStep.
  destruct (truthy (inputFilterAt input (facet_key facetConfig))) eqn:Htruthy;
    [|reflexivity].
  destruct (inputFilterAt input (facet_key facetConfig))
    as [| |b|q|s|items|props]; try discriminate.
  - rewrite andb_false_r. reflexivity.
  - rewrite andb_false_r. reflexivity.
  - rewrite andb_false_r. reflexivity.
  - reflexivity.
  - unfold isFacetSelection in Hother. cbn [isObject andb] in Hother.
    cbn [isStr negb andb isObject truthy]. rewrite Hother. cbn [negb].
    rewrite orb_true_r. reflexivity.
Qed.

(** C4.  A request filter value that is a facet selection contributes no
    clause to the main-query filter: the loop of [filterQueries] passes
    over it, so that the compiled filter is the same whatever the
    selection holds; [facetQueries] in turn passes over every value that
    is not a facet selection; and the compiled query carries the result of
    [filterQueries] in the filter of its main clause and the result of
    [facetQueries] as its post-filter.  A selection of the brand facet
    compiles to a post-filter on the brand and no main-query filter. *)
Theorem facet_selection_only_in_post_filter
    (this : SearcherInternal) (searchTypeConfig : SearchTypeConfig)
    (input : Input) (key : string) (selection other : jsval)
    (query termLanguages intentFields : jsval) :
  isFacetSelection selection = true ->
  isFacetSelection other = true ->
  (forall filterConfig clauses,
      filterStep this (setFilter input key selection) intentFields clauses
        (key, filterConfig) = clauses)
  /\ filterQueries this searchTypeConfig (setFilter input key selection)
       termLanguages intentFields
     = filterQueries this searchTypeConfig (setFilter input key other)
         termLanguages intentFields
  /\ (forall request facetConfig clauses,
        isFacetSelection (inputFilterAt request (facet_key facetConfig)) = false ->
        facetStep this request intentFields clauses facetConfig = clauses)
  /\ (let compiled :=
        searchQuery this searchTypeConfig (setFilter input key selection)
          intentFields query termLanguages in
      mainFilter compiled
        = filterQueries this searchTypeConfig (setFilter input key selection)
            termLanguages intentFields
      /\ search_post_filter compiled
         = facetQueries this searchTypeConfig (setFilter input key selection)
             intentFields)
  /\ (let compiled :=
        searchQuery anySearcher brandTypeConfig
          (inputWithFilter "brand" (facetSelection "maruti"))
          VUndefined VUndefined VUndefined in
      mainFilter compiled = VUndefined
      /\ search_post_filter compiled
         = VObj [("term", VObj [("brand", VStr "maruti")])]).
Proof.
  intros Hselection Hother.
  assert (Hat : forall value,
             inputFilterAt (setFilter input key value) key = value).
  { intros value. rewrite inputFilterAt_setFilter.
    destruct (decide (key = key)); [reflexivity|congruence]. }
  split; [|split; [|split; [|split]]].
  - intros filterConfig clauses. apply filterStep_facet. by rewrite Hat.
  - unfold filterQueries.
    destruct (filterConfigsOf searchTypeConfig) as [filterConfigs|];
      [|reflexivity].
    f_equal. unfold filterClauses. cbn [input_lang setFilter]. do 2 f_equal.
    generalize (@nil jsval).
    induction filterConfigs as [|[k filterConfig] rest IH]; intros clauses;
      [reflexivity|].
    cbn [foldl].
    destruct (decide (key = k)) as [<-|Hne].
    + rewrite !filterStep_facet by (by rewrite Hat). apply IH.
    + rewrite (filterStep_ext this (setFilter input key selection)
                 (setFilter input key other)).
      * apply IH.
      * rewrite !inputFilterAt_setFilter.
        destruct (decide (key = k)); [congruence|reflexivity].
  - intros request facetConfig clauses. apply facetStep_other.
  - cbv zeta. split; reflexivity.
  - cbv zeta. split; vm_compute; reflexivity.
Qed.

Lemma facet_selection_only_in_post_filter_witness :
  filterQueries anySearcher brandTypeConfig
    (setFilter (inputOf 0 10) "brand" (facetSelection "maruti"))
    VUndefined VUndefined
  = filterQueries anySearcher brandTypeConfig
      (setFilter (inputOf 0 10) "brand" (facetSelection "honda"))
      VUndefined VUndefined.
Proof.
  apply (facet_selection_only_in_post_filter anySearcher brandTypeConfig
           (inputOf 0 10) "brand" (facetSelection "maruti")
           (facetSelection "honda") VUndefined VUndefined VUndefined
           eq_refl eq_refl).
Defined.

(** ** Error boundary *)

(** C9, as the code has it.  A rejection with an error whose code is
    [VALIDATION_ERROR] or [INTERNAL_SERVICE_ERROR] leaves [errorWrap]
    unchanged, and so does a validation error thrown before the operation
    returns its promise; every other rejection with a value that is
    neither [null] nor [undefined] becomes a new
    [InternalServiceError] whose details are the cause of the original
    error, or the original error when it has none, and whose stack is the
    original one; a rejection with [null] or [undefined] ends in the
    [TypeError] of the read of its stack; a fulfilled promise passes. *)
Theorem error_boundary
    (InternalServiceError : string -> jsval -> jsval)
    (cannotRead : jsval -> string -> jsval) (A : Type) :
  (forall error,
      truthy error = true ->
      isStr (prop error "_errorCode") "VALIDATION_ERROR" = true ->
      errorWrap InternalServiceError cannotRead (A := A) (Rejected error)
      = Rejected error
      /\ operation InternalServiceError cannotRead (A := A)
           (Returned (Rejected error))
         = Returned (Rejected error)
      /\ operation InternalServiceError cannotRead (A := A) (Thrown error)
         = Thrown error)
  /\ (forall error,
        truthy error = true ->
        isStr (prop error "_errorCode") "INTERNAL_SERVICE_ERROR" = true ->
        errorWrap InternalServiceError cannotRead (A := A) (Rejected error)
        = Rejected error)
  /\ (forall error,
        isNullish error = false ->
        isKnownError error = false ->
        errorWrap InternalServiceError cannotRead (A := A) (Rejected error)
        = Rejected
            (InternalServiceError "Internal Service Error"
               (VObj [("details",
                       if truthy (prop error "cause") then prop error "cause"
                       else error);
                      ("stack", if truthy error then prop error "stack"
                                else error)])))
  /\ (forall error,
        isNullish error = true ->
        errorWrap InternalServiceError cannotRead (A := A) (Rejected error)
        = Rejected (cannotRead error "stack"))
  /\ (forall value : A,
        errorWrap InternalServiceError cannotRead (Fulfilled value)
        = Fulfilled value).
Proof.
  assert (Hobject : forall error, truthy error = true -> isNullish error = false).
  { intros error. destruct error; try reflexivity; discriminate. }
  split; [|split; [|split; [|split]]].
  - intros error Htruthy Hcode.
    assert (Hknown : isKnownError error = true).
    { unfold isKnownError. rewrite Htruthy, Hcode. reflexivity. }
    cbn. rewrite (Hobject error Htruthy), Hknown. repeat split.
  - intros error Htruthy Hcode. cbn. unfold isKnownError.
    rewrite (Hobject error Htruthy), Htruthy, Hcode, orb_true_r. reflexivity.
  - intros error Hvalue Hunknown. cbn. rewrite Hvalue, Hunknown.
    unfold causeOf, stackOf, jsOr.
    destruct (truthy error) eqn:Htruthy; [reflexivity|].
    rewrite Htruthy.
    replace (prop error "cause") with VUndefined; [reflexivity|].
    destruct error; try reflexivity; discriminate.
  - intros error Hnull. cbn. rewrite Hnull. reflexivity.
  - reflexivity.
Qed.

(** C9 as stated fails for an error of the internal-service class raised
    inside the operation: it is thrown again as it is, and not wrapped in
    a new error that carries its cause. *)
Lemma error_boundary_keeps_internal_service_error :
  errorWrap sampleInternalServiceError sampleTypeError (A := jsval)
    (Rejected backendDown)
  = Rejected backendDown
  /\ errorWrap sampleInternalServiceError sampleTypeError (A := jsval)
       (Rejected backendDown)
     <> Rejected
          (sampleInternalServiceError "Internal Service Error"
             (VObj [("details", VStr "ECONNREFUSED");
                    ("stack", VStr "at ESClient.search")])).
Proof. split; [reflexivity|]. vm_compute. discriminate. Qed.
(** * Further properties *)

(** ** Response processor: what the cliff filter keeps *)

Lemma cliffLoop_sublist this hs :
  forall locals,
    cliffLoop this hs = Some locals ->
    sublist (Some <$> fst locals) (_processSource this <$> hs).
Proof.
  induction hs as [|hit hs IH] using rev_ind; intros locals Hloop.
  - injection Hloop as <-. constructor.
  - rewrite cliffLoop_snoc in Hloop.
    destruct (cliffLoop this hs) as [before|]; [|discriminate].
    specialize (IH before eq_refl). simpl in Hloop. unfold cliffStep in Hloop.
    rewrite fmap_app. cbn [fmap list_fmap].
    destruct (_processSource this hit) as [hitOut|]; [|discriminate].
    destruct (aboveCliff (snd before) (_score hitOut));
      injection Hloop as <-; cbn [fst].
    + rewrite fmap_app. apply sublist_app; [exact IH|reflexivity].
    + etransitivity; [exact IH|]. apply sublist_inserts_r. reflexivity.
Qed.

(** X1.  The hits that [_processResponse] returns are the processed hits
    of the response with some left out: nothing is added, repeated or
    moved, and there are at most as many results as hits. *)
Theorem cliff_filter_sublist
    (this : SearcherInternal) (response : Response) (type : option string)
    (input : Input) (apiType : string) (result : Result)
    (Hresult : _processResponse this response type input apiType
               = Some result) :
  sublist (Some <$> results result)
    (_processSource this <$> responseHits response)
  /\ (length (results result) <= length (responseHits response))%nat
  /\ count result <= Z.of_nat (length (responseHits response)).
Proof.
  unfold _processResponse in Hresult.
  destruct (cliffLoop this (responseHits response)) as [locals|] eqn:Hloop;
    [|discriminate].
  injection Hresult as <-. cbn [results count resultOf].
  pose proof (cliffLoop_sublist this _ locals Hloop) as Hsub.
  split; [exact Hsub|].
  apply sublist_length in Hsub. rewrite !length_fmap in Hsub.
  split; [exact Hsub|]. lia.
Qed.

Lemma cliff_filter_sublist_witness :
  let response :=
    responseOf [hitOfScore "a" 100; hitOfScore "b" 90;
                hitOfScore "c" 30; hitOfScore "d" 28] 4 1 in
  exists result,
    _processResponse anySearcher response None (inputOf 0 10) "search"
    = Some result
    /\ sublist (Some <$> results result)
         (_processSource anySearcher <$> responseHits response)
    /\ (length (results result) <= length (responseHits response))%nat
    /\ count result <= Z.of_nat (length (responseHits response)).
Proof.
  cbv zeta. eexists. split; [vm_compute; reflexivity|].
  apply (cliff_filter_sublist anySearcher
           (responseOf [hitOfScore "a" 100; hitOfScore "b" 90;
                        hitOfScore "c" 30; hitOfScore "d" 28] 4 1)
           None (inputOf 0 10) "search").
  vm_compute. reflexivity.
Defined.

(** X2.  Between two neighbouring results of [_processResponse] there is
    no relevancy cliff: each result but the first passed the test of the
    filter against the result before it, so that the result before it
    has no score or the quotient of the two scores is more than 0.40. *)
Theorem cliff_filter_no_cliff_left
    (this : SearcherInternal) (response : Response) (type : option string)
    (input : Input) (apiType : string) (result : Result) (i : nat)
    (previous next : Hit) :
  _processResponse this response type input apiType = Some result ->
  results result !! i = Some previous ->
  results result !! S i = Some next ->
  aboveCliff (_score previous) (_score next) = true.
Proof.
  unfold _processResponse.
  destruct (cliffLoop this (responseHits response)) as [locals|] eqn:Hloop;
    [|discriminate].
  intros [= <-]. cbn [results resultOf].
  revert locals Hloop i previous next.
  generalize (responseHits response). intros hs.
  induction hs as [|hit hs IH] using rev_ind;
    intros locals Hloop i previous next.
  - injection Hloop as <-. intros Hi. cbn in Hi. discriminate.
  - rewrite cliffLoop_snoc in Hloop.
    destruct (cliffLoop this hs) as [before|] eqn:Hbefore; [|discriminate].
    destruct (cliffLoop_reference this hs before Hbefore) as [Href _].
    simpl in Hloop. unfold cliffStep in Hloop.
    destruct (_processSource this hit) as [hitOut|]; [|discriminate].
    destruct (aboveCliff (snd before) (_score hitOut)) eqn:Habove;
      injection Hloop as <-; cbn [fst]; [|apply (IH before eq_refl)].
    intros Hprev Hnext.
    destruct (decide (S i < length (fst before))%nat) as [Hlt|Hge].
    + rewrite lookup_app_l in Hprev by lia.
      rewrite lookup_app_l in Hnext by lia.
      eapply (IH before eq_refl); eassumption.
    + assert (Hlen : S i = length (fst before)).
      { apply lookup_lt_Some in Hnext. rewrite length_app in Hnext.
        simpl in Hnext. lia. }
      rewrite lookup_app_l in Hprev by lia.
      rewrite lookup_app_r in Hnext by lia.
      replace (S i - length (fst before))%nat with 0%nat in Hnext by lia.
      injection Hnext as <-.
      assert (Hlast : last (fst before) = Some previous).
      { rewrite last_lookup, <- Hlen. exact Hprev. }
      rewrite Href, Hlast in Habove. exact Habove.
Qed.

Lemma cliff_filter_no_cliff_left_witness :
  aboveCliff (Some 100%Q) (Some 90%Q) = true.
Proof.
  apply (cliff_filter_no_cliff_left anySearcher
           (responseOf [hitOfScore "a" 100; hitOfScore "b" 90;
                        hitOfScore "c" 30; hitOfScore "d" 28] 4 1)
           None (inputOf 0 10) "search"
           (resultOf
              (responseOf [hitOfScore "a" 100; hitOfScore "b" 90;
                           hitOfScore "c" 30; hitOfScore "d" 28] 4 1)
              None (inputOf 0 10) "search"
              [hitOfScore "a" 100; hitOfScore "b" 90])
           0 (hitOfScore "a" 100) (hitOfScore "b" 90));
    vm_compute; reflexivity.
Defined.

(** X3.  When the backend returned no more hits than the total leaves for
    the requested page and the cliff filter dropped at least one of them,
    [_processResponse] offers a next page, also on the last page. *)
Theorem next_page_after_dropped_hits
    (this : SearcherInternal) (response : Response) (type : option string)
    (input : Input) (apiType : string) (result : Result) (p c : Z) :
  _processResponse this response type input apiType = Some result ->
  input_page input = Some p ->
  input_count input = Some c ->
  p * c + Z.of_nat (length (responseHits response)) <= responseTotal response ->
  (length (results result) < length (responseHits response))%nat ->
  nextPage result
  = Some {| page := p + 1;
            url := (_baseUrl input type apiType, p + 1) |}.
Proof.
  unfold _processResponse.
  destruct (cliffLoop this (responseHits response)) as [locals|];
    [|discriminate].
  intros [= <-] Hp Hc Hfit Hdropped. cbn [nextPage results resultOf] in *.
  apply nextPageOf_spec. exists p, c.
  repeat split; try assumption. lia.
Qed.

Lemma next_page_after_dropped_hits_witness :
  nextPage (resultOf
              (responseOf [hitOfScore "a" 100; hitOfScore "b" 90;
                           hitOfScore "c" 30; hitOfScore "d" 28] 4 1)
              None (inputOf 0 10) "search"
              [hitOfScore "a" 100; hitOfScore "b" 90])
  = Some {| page := 0 + 1;
            url := (_baseUrl (inputOf 0 10) None "search", 0 + 1) |}.
Proof.
  apply (next_page_after_dropped_hits anySearcher
           (responseOf [hitOfScore "a" 100; hitOfScore "b" 90;
                        hitOfScore "c" 30; hitOfScore "d" 28] 4 1)
           None (inputOf 0 10) "search" _ 0 10).
  - vm_compute. reflexivity.
  - reflexivity.
  - reflexivity.
  - vm_compute. discriminate.
  - vm_compute. lia.
Defined.

(** ** Multi-type merge: what is stored *)

Lemma perTypeFrom_length this types input apiType responses :
  forall k perTypeResults,
    perTypeFrom this types input apiType k responses = Some perTypeResults ->
    length perTypeResults = length responses.
Proof.
  induction responses as [|response rest IH]; intros k perTypeResults Hall.
  - injection Hall as <-. reflexivity.
  - simpl in Hall.
    destruct (_processResponse this response (typeAt types k) input apiType);
      [|discriminate].
    destruct (perTypeFrom this types input apiType (S k) rest) as [others|] eqn:Hrest;
      [|discriminate].
    injection Hall as <-. simpl. f_equal. eapply IH. exact Hrest.
Qed.

Lemma perTypeFrom_app this types input apiType first second :
  forall k,
    perTypeFrom this types input apiType k (first ++ second)
    = match perTypeFrom this types input apiType k first,
            perTypeFrom this types input apiType (k + length first) second with
      | Some results1, Some results2 => Some (results1 ++ results2)
      | _, _ => None
      end.
Proof.
  induction first as [|response first IH]; intros k; simpl.
  - rewrite Nat.add_0_r.
    destruct (perTypeFrom this types input apiType k second); reflexivity.
  - rewrite IH. replace (S k + length first)%nat with (k + S (length first))%nat
      by lia.
    destruct (_processResponse this response (typeAt types k) input apiType);
      [|reflexivity].
    destruct (perTypeFrom this types input apiType (S k) first);
      [|reflexivity].
    destruct (perTypeFrom this types input apiType _ second); reflexivity.
Qed.

(** The results of the responses for which no type was submitted are not
    merged. *)
Lemma perTypeFrom_untyped this types input apiType responses :
  forall k perTypeResults,
    (length types <= k)%nat ->
    perTypeFrom this types input apiType k responses = Some perTypeResults ->
    List.filter isMerged perTypeResults = [].
Proof.
  induction responses as [|response rest IH]; intros k perTypeResults Hk Hall.
  - injection Hall as <-. reflexivity.
  - simpl in Hall.
    destruct (_processResponse this response (typeAt types k) input apiType)
      as [result|] eqn:Hresult; [|discriminate].
    destruct (perTypeFrom this types input apiType (S k) rest) as [others|] eqn:Hrest;
      [|discriminate].
    injection Hall as <-. cbn [List.filter].
    assert (Hnot : isMerged result = false).
    { unfold _processResponse in Hresult.
      destruct (cliffLoop this (responseHits response)); [|discriminate].
      injection Hresult as <-. unfold isMerged, typeAt. cbn [type resultOf].
      rewrite lookup_ge_None_2 by exact Hk. reflexivity. }
    rewrite Hnot. apply (IH (S k)); [lia|exact Hrest].
Qed.

Lemma mergeResult_not_merged mergedResult result :
  isMerged result = false -> mergeResult mergedResult result = mergedResult.
Proof.
  unfold isMerged, mergeResult. destruct (typeKey (type result)); [|reflexivity].
  destruct (results result); [reflexivity|discriminate].
Qed.

Lemma mergeResults_none_merged perTypeResults :
  forall mergedResult,
    List.filter isMerged perTypeResults = [] ->
    foldl mergeResult mergedResult perTypeResults = mergedResult.
Proof.
  induction perTypeResults as [|result others IH]; intros mergedResult Hnone;
    [reflexivity|].
  cbn [List.filter] in Hnone. cbn [foldl].
  destruct (isMerged result) eqn:Hmerged; [discriminate|].
  rewrite mergeResult_not_merged by exact Hmerged. apply IH, Hnone.
Qed.

(** X4.  Every entry of the merged results of
    [processMultipleSearchResponse] is the processed response of some
    position of the batch, is stored under its own type, and has at least
    one result. *)
Theorem merged_entries_are_typed_and_nonempty
    (this : SearcherInternal) (responses : list Response)
    (types : list (option string)) (input : Input) (apiType : string)
    (mergedResult : MergedResult) (key : string) (result : Result) :
  processMultipleSearchResponse this (Some responses) types input apiType
    = Some (Some mergedResult) ->
  assoc key (merged_results mergedResult) = Some result ->
  type result = Some key
  /\ results result <> []
  /\ exists i response,
       responses !! i = Some response
       /\ types !! i = Some (Some key)
       /\ _processResponse this response (Some key) input apiType
          = Some result.
Proof.
  unfold processMultipleSearchResponse. rewrite mergeLoop_perType.
  destruct (perTypeFrom this types input apiType 0 responses)
    as [perTypeResults|] eqn:Hall; [|discriminate].
  cbn [fmap option_fmap option_map]. intros [= <-] Hentry.
  cbn [merged_results] in Hentry.
  match type of Hentry with
  | context [foldl mergeResult ?init perTypeResults] =>
      destruct (mergeResults_spec perTypeResults init) as (_ & _ & _ & Hkeys & _)
  end.
  rewrite Hkeys in Hentry. clear Hkeys. cbn [merged_results assoc] in Hentry.
  destruct (last _) as [found|] eqn:Hlast; [|discriminate].
  injection Hentry as ->.
  apply last_Some in Hlast. destruct Hlast as [front Hfront].
  assert (Hin : In result (List.filter (hasType key)
                  (List.filter isMerged perTypeResults))).
  { rewrite Hfront. apply in_or_app. right. left. reflexivity. }
  apply filter_In in Hin. destruct Hin as [Hin Htype].
  apply filter_In in Hin. destruct Hin as [Hin Hmerged].
  assert (Hkey : type result = Some key).
  { unfold hasType in Htype. destruct (type result) as [t|]; [|discriminate].
    apply String.eqb_eq in Htype. by subst. }
  split; [exact Hkey|]. split.
  - unfold isMerged in Hmerged. destruct (typeKey _); [|discriminate].
    destruct (results result); [discriminate|]. discriminate.
  - apply list_elem_of_In, list_elem_of_lookup in Hin.
    destruct Hin as [i Hi].
    assert (Hlen : (i < length responses)%nat).
    { rewrite <- (perTypeFrom_length _ _ _ _ _ _ _ Hall).
      eapply lookup_lt_Some. exact Hi. }
    destruct (lookup_lt_is_Some_2 responses i Hlen) as [response Hresponse].
    pose proof (perTypeFrom_lookup this types input apiType responses 0%nat
                  perTypeResults Hall i response Hresponse) as Hprocessed.
    rewrite Hi in Hprocessed. simpl in Hprocessed.
    assert (Htyped : typeAt types i = Some key).
    { symmetry in Hprocessed. unfold _processResponse in Hprocessed.
      destruct (cliffLoop this (responseHits response)); [|discriminate].
      injection Hprocessed as <-. exact Hkey. }
    exists i, response. split; [exact Hresponse|]. split.
    + unfold typeAt in Htyped.
      destruct (types !! i) as [[t|]|]; simpl in Htyped; congruence.
    + rewrite <- Htyped. symmetry. exact Hprocessed.
Qed.

Lemma merged_entries_are_typed_and_nonempty_witness :
  exists result,
    type result = Some "car"
    /\ results result <> []
    /\ exists i response,
         secondPageResponses !! i = Some response
         /\ secondPageTypes !! i = Some (Some "car")
         /\ _processResponse anySearcher response (Some "car")
              (inputOf 1 10) "search"
            = Some result.
Proof.
  eexists.
  eapply (merged_entries_are_typed_and_nonempty anySearcher
            secondPageResponses secondPageTypes (inputOf 1 10) "search"
            _ "car").
  - vm_compute. reflexivity.
  - vm_compute. reflexivity.
Defined.

(** X5.  [processMultipleSearchResponse] processes every response of a
    batch, but merges nothing of the responses at the positions for which
    no type was submitted: what it returns for a batch, when it returns,
    is what it returns for as many of its first responses as there are
    types. *)
Theorem merge_ignores_responses_without_type
    (this : SearcherInternal) (responses : list Response)
    (types : list (option string)) (input : Input) (apiType : string)
    (mergedResult : option MergedResult) :
  processMultipleSearchResponse this (Some responses) types input apiType
    = Some mergedResult ->
  processMultipleSearchResponse this
    (Some (take (length types) responses)) types input apiType
  = Some mergedResult.
Proof.
  unfold processMultipleSearchResponse. rewrite !mergeLoop_perType.
  rewrite <- (take_drop (length types) responses) at 1.
  rewrite perTypeFrom_app.
  destruct (perTypeFrom this types input apiType 0
              (take (length types) responses)) as [typed|]; [|discriminate].
  destruct (perTypeFrom this types input apiType
              (0 + length (take (length types) responses))
              (drop (length types) responses)) as [untyped|] eqn:Huntyped;
    [|discriminate].
  cbn [fmap option_fmap option_map]. rewrite foldl_app.
  destruct (decide (length types <= length responses)%nat) as [Hle|Hgt].
  - rewrite (mergeResults_none_merged untyped); [by intros ?|].
    eapply perTypeFrom_untyped; [|exact Huntyped].
    rewrite length_take. lia.
  - rewrite drop_ge in Huntyped by lia. injection Huntyped as <-.
    by intros ?.
Qed.

Lemma merge_ignores_responses_without_type_witness :
  processMultipleSearchResponse anySearcher
    (Some (take (length [Some "car"]) secondPageResponses)) [Some "car"]
    (inputOf 1 10) "search"
  = processMultipleSearchResponse anySearcher (Some secondPageResponses)
      [Some "car"] (inputOf 1 10) "search".
Proof.
  destruct (processMultipleSearchResponse anySearcher
              (Some secondPageResponses) [Some "car"] (inputOf 1 10) "search")
    as [mergedResult|] eqn:Hmerge.
  - apply (merge_ignores_responses_without_type anySearcher
             secondPageResponses [Some "car"] (inputOf 1 10) "search"
             mergedResult Hmerge).
  - vm_compute in Hmerge. discriminate.
Defined.

(** X6.  The page links of a merged response are computed over the merged
    totals: the previous page is offered exactly when the requested page
    is greater than 0, the next page exactly when page * count plus the
    merged count is less than the merged total, and neither link names a
    type. *)
Theorem merged_pagination_links
    (this : SearcherInternal) (responses : list Response)
    (types : list (option string)) (input : Input) (apiType : string)
    (mergedResult : MergedResult) :
  processMultipleSearchResponse this (Some responses) types input apiType
    = Some (Some mergedResult) ->
  (is_Some (merged_prevPage mergedResult)
   <-> exists p, input_page input = Some p /\ 0 < p)
  /\ (is_Some (merged_nextPage mergedResult)
      <-> exists p c, input_page input = Some p /\ input_count input = Some c
                      /\ p * c + merged_count mergedResult
                         < merged_totalResults mergedResult)
  /\ (forall link, merged_prevPage mergedResult = Some link
                   \/ merged_nextPage mergedResult = Some link ->
        url_type (fst (url link)) = None).
Proof.
  unfold processMultipleSearchResponse.
  destruct (mergeLoop this types input apiType _ 0 responses) as [merged|];
    [|discriminate].
  intros [= <-].
  cbn [merged_prevPage merged_nextPage merged_count merged_totalResults].
  split; [|split].
  - split.
    + intros [link Hlink]. apply prevPageOf_spec in Hlink.
      destruct Hlink as (p & Hp & Hpos & _). eauto.
    + intros (p & Hp & Hpos). eexists. apply prevPageOf_spec. eauto.
  - split.
    + intros [link Hlink]. apply nextPageOf_spec in Hlink.
      destruct Hlink as (p & c & Hp & Hc & Hlt & _). eauto.
    + intros (p & c & Hp & Hc & Hlt). eexists. apply nextPageOf_spec.
      exists p, c. eauto.
  - intros link [Hlink|Hlink].
    + apply prevPageOf_spec in Hlink. destruct Hlink as (p & _ & _ & ->).
      reflexivity.
    + apply nextPageOf_spec in Hlink.
      destruct Hlink as (p & c & _ & _ & _ & ->). reflexivity.
Qed.

Lemma merged_pagination_links_witness :
  exists mergedResult,
    is_Some (merged_prevPage mergedResult)
    <-> exists p, input_page (inputOf 1 10) = Some p /\ 0 < p.
Proof.
  eexists.
  apply (merged_pagination_links anySearcher secondPageResponses
           secondPageTypes (inputOf 1 10) "search").
  vm_compute. reflexivity.
Defined.

(** ** Relevancy-deflection ranker: which hits survive *)

Lemma jsGe_isNumber (a b : double) :
  jsGe a b = true -> isNumber a /\ isNumber b.
Proof. destruct a, b; cbn; intros H; try discriminate; split; reflexivity. Qed.

Lemma jsGe_trans (a b c : double) :
  jsGe a b = true -> jsGe b c = true -> jsGe a c = true.
Proof.
  intros Hab Hbc.
  destruct (jsGe_isNumber a b Hab) as [Ha Hb].
  destruct (jsGe_isNumber b c Hbc) as [_ Hc].
  apply jsGe_rank in Hab, Hbc; try assumption.
  apply jsGe_rank; [assumption..|]. unfold rankLt in *. lia.
Qed.

Lemma consolidate_elem (groups : list Result) (hit : Hit) :
  In hit (consolidate groups)
  <-> exists original,
        In original (concat (results <$> groups))
        /\ hit = withRelevancy original
        /\ jsGe (relevancy original) (deflectionScore groups) = true.
Proof.
  rewrite <- list_elem_of_In, consolidate_perm, list_elem_of_In.
  rewrite in_map_iff. split.
  - intros (original & <- & Hin). apply filter_In in Hin.
    destruct Hin as [Hin Hreach]. eauto.
  - intros (original & Hin & -> & Hreach). exists original.
    split; [reflexivity|]. apply filter_In. auto.
Qed.

(** The threshold is 0 or one of the relevancy scores. *)
Lemma deflectionScore_origin (groups : list Result) :
  deflectionScore groups = doubleOfQ 0
  \/ exists original,
       In original (concat (results <$> groups))
       /\ deflectionScore groups = relevancy original.
Proof.
  unfold deflectionScore, relevancyScores.
  set (sorted := stableSort descending _).
  destruct (findDeflection_spec sorted (doubleOfQ 0)) as
    [(before & previous & score & after & Heq & Hd & _ & Hfound)|[_ Hzero]];
    [|left; exact Hzero].
  destruct before as [|b before]; simpl in Heq.
  - injection Heq as <- _. rewrite Hfound. left. reflexivity.
  - injection Heq as _ Heq. right.
    assert (Hin : In previous sorted).
    { rewrite Heq. apply in_or_app. right. left. reflexivity. }
    unfold sorted in Hin.
    rewrite <- list_elem_of_In, stableSort_perm, list_elem_of_In in Hin.
    apply in_map_iff in Hin. destruct Hin as (original & Hrel & Hin).
    exists original. split; [exact Hin|]. rewrite Hfound. by symmetry.
Qed.

(** X7.  The consolidation of [suggestedQueries] never drops a hit while
    it keeps a hit that is not more relevant, and it never drops a hit of
    the greatest relevancy score when that score is not negative. *)
Theorem consolidate_keeps_the_most_relevant (groups : list Result) :
  let hitsIn := concat (results <$> groups) in
  (forall kept other,
      In kept hitsIn -> In other hitsIn ->
      In (withRelevancy kept) (consolidate groups) ->
      jsGe (relevancy other) (relevancy kept) = true ->
      In (withRelevancy other) (consolidate groups))
  /\ (forall best,
        In best hitsIn ->
        jsGe (relevancy best) (doubleOfQ 0) = true ->
        (forall other, In other hitsIn ->
                       jsGe (relevancy best) (relevancy other) = true) ->
        In (withRelevancy best) (consolidate groups)).
Proof.
  cbv zeta. split.
  - intros kept other _ Hother Hkept Hge.
    apply consolidate_elem in Hkept.
    destruct Hkept as (original & _ & Heq & Hreach).
    assert (Hrel : relevancy kept = relevancy original).
    { apply (f_equal _relevancyScore) in Heq. simpl in Heq. congruence. }
    apply consolidate_elem. exists other.
    split; [exact Hother|]. split; [reflexivity|].
    rewrite <- Hrel in Hreach. eapply jsGe_trans; eassumption.
  - intros best Hbest Hnonneg Hmax.
    apply consolidate_elem. exists best.
    split; [exact Hbest|]. split; [reflexivity|].
    destruct (deflectionScore_origin groups) as [->|(original & Hin & ->)].
    + exact Hnonneg.
    + apply Hmax, Hin.
Qed.

(** ** Error boundary: the errors a caller can see *)

(** X8.  When the error class marks its instances with the code
    [INTERNAL_SERVICE_ERROR], a rejection that leaves [errorWrap] is a
    validation error, an internal service error, or the [TypeError] for
    a rejection with [null] or [undefined]; and passing a promise that is
    not rejected with [null] or [undefined] through [errorWrap] twice is
    the same as passing it once. *)
Theorem error_boundary_surface
    (InternalServiceError : string -> jsval -> jsval)
    (cannotRead : jsval -> string -> jsval) (A : Type)
    (promise : Settled A) :
  (forall message options,
      isKnownError (InternalServiceError message options) = true) ->
  (forall error,
      errorWrap InternalServiceError cannotRead promise = Rejected error ->
      isKnownError error = true
      \/ exists nothing,
           isNullish nothing = true
           /\ promise = Rejected nothing
           /\ error = cannotRead nothing "stack")
  /\ ((forall nothing, isNullish nothing = true -> promise <> Rejected nothing) ->
      errorWrap InternalServiceError cannotRead
        (errorWrap InternalServiceError cannotRead promise)
      = errorWrap InternalServiceError cannotRead promise).
Proof.
  intros Hclass.
  assert (Hvalue : forall error, isKnownError error = true ->
                                 isNullish error = false).
  { intros error. unfold isKnownError. destruct error; try reflexivity;
      discriminate. }
  destruct promise as [value|thrown]; cbn.
  - split; [discriminate|reflexivity].
  - destruct (isNullish thrown) eqn:Hnull.
    + split.
      * intros error [= <-]. right. exists thrown. auto.
      * intros Hnot. exfalso. apply (Hnot thrown Hnull). reflexivity.
    + destruct (isKnownError thrown) eqn:Hknown; cbn.
      * rewrite Hnull, Hknown. split; [|reflexivity].
        intros error [= <-]. left. exact Hknown.
      * rewrite (Hvalue _ (Hclass _ _)), Hclass. split; [|reflexivity].
        intros error [= <-]. left. apply Hclass.
Qed.

Lemma error_boundary_surface_witness :
  errorWrap sampleInternalServiceError sampleTypeError
    (errorWrap sampleInternalServiceError sampleTypeError
       (Rejected (VStr "socket hang up") : Settled jsval))
  = errorWrap sampleInternalServiceError sampleTypeError
      (Rejected (VStr "socket hang up")).
Proof.
  apply (error_boundary_surface sampleInternalServiceError sampleTypeError
           jsval (Rejected (VStr "socket hang up"))).
  - intros message options. reflexivity.
  - intros nothing Hnull [= <-]. discriminate.
Defined.


(** ** Query compiler: what a field clause adds *)




(** ** Query compiler: sentinel and default values of filters *)





(** X11.  For a filter the request gives no value for, the loop of
    [filterQueries] compiles the default value of the filter as if the
    request had given it, when that default is truthy; a default that is
    [false], 0 or the empty string is not applied and the filter
    contributes nothing. *)
Theorem filter_default_value
    (this : SearcherInternal) (input : Input) (intentFields : jsval)
    (clauses : list jsval) (key : string) (filterConfig : FieldConfig) :
  isNullish (inputFilterAt input key) = true ->
  (truthy (defaultValue filterConfig) = true ->
     filterStep this input intentFields clauses (key, filterConfig)
     = filterStep this (setFilter input key (defaultValue filterConfig))
         intentFields clauses (key, filterConfig))
  /\ (truthy (defaultValue filterConfig) = false ->
        filterStep this input intentFields clauses (key, filterConfig)
        = clauses).
Proof.
  intros Habsent.
  assert (Hinvalid : isValidValue (inputFilterAt input key) = false).
  { unfold isValidValue. rewrite Habsent. reflexivity. }
  split; intros Hdefault.
  - assert (Hvalid : isValidValue (defaultValue filterConfig) = true).
    { destruct (defaultValue filterConfig); try discriminate; reflexivity. }
    unfold filterStep. cbn [fst snd].
    rewrite inputFilterAt_setFilter.
    destruct (decide (key = key)); [|congruence].
    rewrite Hinvalid, Hdefault, Hvalid. cbv iota. rewrite Hvalid.
    reflexivity.
  - unfold filterStep. cbn [fst snd]. rewrite Hinvalid, Hdefault.
    destruct (isPost filterConfig); reflexivity.
Qed.

Lemma filter_default_value_witness :
  let hasResults :=
    {| field := Some "hasResults"; weight := None; vernacularOnly := None;
       keyword := None; noFuzzy := None; nestedPath := None;
       cfg_filter := None; cfg_termQuery := Some true;
       cfg_rangeQuery := None; includeMissing := None; cfg_type := None;
       defaultValue := VBool false; cfg_value := None |} in
  filterStep anySearcher (inputOf 0 10) VUndefined [] ("hasResults", hasResults)
  = [].
Proof.
  cbv zeta.
  apply (filter_default_value anySearcher (inputOf 0 10) VUndefined []
           "hasResults"); reflexivity.
Defined.

(** ** Query compiler: the text clause of a type query *)

Lemma wrapQuery_humane_shape queryField field params :
  truthy (wrapQuery queryField
            (VObj [("humane_query", VObj [(field, params)])])) = true
  /\ prop (wrapQuery queryField
             (VObj [("humane_query", VObj [(field, params)])])) "match_all"
     = VUndefined.
Proof.
  unfold wrapQuery, constantScoreQuery.
  destruct (truthyStr (nestedPath queryField)),
    (flag (cfg_filter queryField)),
    (Qeq_bool (weightOr1 (weight queryField)) 1); split; reflexivity.
Qed.

(** X12.  A type query matches everything exactly when there is no text:
    without text its [must] part is [match_all], whatever the query fields
    are, and with a text it is the text clause of [buildTypeQuery], which
    is not [match_all]; the offset is page * count, with 0 for a page or a
    count the request does not give. *)
Theorem type_query_text_or_match_all
    (this : SearcherInternal) (searchTypeConfig : SearchTypeConfig)
    (text : option string) (input : Input) (intentFields : jsval) :
  let compiled := typeQuery this searchTypeConfig text input intentFields in
  (noText text = true -> mainMust compiled = VObj [("match_all", VObj [])])
  /\ (noText text = false ->
        mainMust compiled
        = prop (buildTypeQuery this searchTypeConfig text
                  (input_fuzzySearch input) intentFields) "query"
        /\ prop (mainMust compiled) "match_all" = VUndefined)
  /\ search_from compiled
     = default 0 (input_page input) * default 0 (input_count input).
Proof.
  cbv zeta. unfold typeQuery, mainMust, searchQuery. cbn [search_query search_from].
  split; [|split; [|reflexivity]].
  - intros Hnone. unfold buildTypeQuery. rewrite Hnone. reflexivity.
  - intros Hsome. unfold buildTypeQuery. rewrite Hsome.
    destruct (activeQueryFields searchTypeConfig) as [|first [|second rest]].
    + split; reflexivity.
    + rewrite prop_query.
      destruct (wrapQuery_humane_shape first (fieldKey (field first))
                  (VObj [("query", ofOptStr text);
                         ("boost", ofOptNum (weight first));
                         ("vernacularOnly", ofOptBool (vernacularOnly first));
                         ("noFuzzy", noFuzzyOf (input_fuzzySearch input) first);
                         ("keyword", ofOptBool (keyword first));
                         ("instance", VStr (instanceName this));
                         ("intentFields", intentFields)]))
        as [Htruthy Hnot].
      cbn [prop assoc String.eqb Ascii.eqb Bool.eqb default jsOr].
      change (prop (VObj [("bool", ?b)]) "bool") with b.
      unfold jsOr.
      set (clause := wrapQuery first _) in *.
      cbn [prop assoc]. simpl assoc. cbn [default]. rewrite Htruthy.
      split; [reflexivity|exact Hnot].
    + split; reflexivity.
Qed.

Lemma type_query_text_or_match_all_witness :
  mainMust (typeQuery anySearcher brandTypeConfig None (inputOf 0 10) VUndefined)
  = VObj [("match_all", VObj [])].
Proof.
  apply (type_query_text_or_match_all anySearcher brandTypeConfig None
           (inputOf 0 10) VUndefined).
  reflexivity.
Defined.

(** ** Query compiler: facet selections of ranges and named filters *)

Lemma list_bind_nil {A B : Type} (f : A -> list B) (l : list A) :
  (forall x, In x l -> f x = []) -> l ≫= f = [].
Proof.
  intros Hnil. induction l as [|x l IH]; [reflexivity|].
  cbn [mbind list_bind]. rewrite (Hnil x (or_introl eq_refl)).
  apply IH. intros y Hy. apply Hnil. by right.
Qed.

(** X13.  For a selection in a facet of ranges that includes documents
    without the field, [facetQueries] always adds a clause; when no
    selected key is the key of a configured range, that clause is the
    "field does not exist" clause alone.  Without that flag, and for a
    facet of named filters, a selection that matches no configured key
    adds nothing. *)
Theorem facet_selection_without_match
    (this : SearcherInternal) (input : Input) (intentFields : jsval)
    (clauses : list jsval) (facetConfig : FacetConfig) :
  let selection := inputFilterAt input (facet_key facetConfig) in
  let selected := asArray (fst (unwrap selection)) in
  isFacetSelection selection = true ->
  (forall oneValue, In oneValue selected ->
     (forall range, In range (facet_ranges facetConfig) ->
        strictEq oneValue (rangeFacet_key range) = false)
     /\ (forall named, In named (facet_filters facetConfig) ->
           strictEq oneValue (filterFacet_key named) = false)) ->
  (isFacetType facetConfig "ranges" = true ->
     facetStep this input intentFields clauses facetConfig
     = if flag (facet_includeMissing facetConfig)
       then clauses ++ [missingQuery (facet_field facetConfig)]
       else clauses)
  /\ (isFacetType facetConfig "filters" = true ->
        facetStep this input intentFields clauses facetConfig = clauses).
Proof.
  cbv zeta. intros Hselection Hnomatch.
  assert (Hranges :
    (oneValue ← asArray (unwrap (inputFilterAt input (facet_key facetConfig))).1;
     filterRangeConfig ← facet_ranges facetConfig;
     if strictEq oneValue (rangeFacet_key filterRangeConfig)
     then [VObj [("range",
                  VObj [(fieldKey (facet_field facetConfig),
                         VObj [("gte", rangeFacet_from filterRangeConfig);
                               ("lt", rangeFacet_to filterRangeConfig)])])]]
     else []) = []).
  { apply list_bind_nil. intros oneValue Hin.
    apply list_bind_nil. intros range Hrange.
    destruct (Hnomatch oneValue Hin) as [Hno _].
    rewrite (Hno range Hrange). reflexivity. }
  assert (Hfilters :
    matchingFilterQueries facetConfig
      (unwrap (inputFilterAt input (facet_key facetConfig))).1 = []).
  { unfold matchingFilterQueries.
    apply list_bind_nil. intros oneValue Hin.
    apply list_bind_nil. intros named Hnamed.
    destruct (Hnomatch oneValue Hin) as [_ Hno].
    rewrite (Hno named Hnamed). reflexivity. }
  unfold isFacetSelection in Hselection.
  apply andb_true_iff in Hselection. destruct Hselection as [Hobject Hfacet].
  assert (Htype : exists s, prop (inputFilterAt input (facet_key facetConfig)) "type"
                   = VStr s /\ String.eqb s "facet" = true).
  { destruct (prop _ "type"); try discriminate. eauto. }
  destruct Htype as (s & Htype & Hs).
  apply String.eqb_eq in Hs. subst s.
  assert (Htruthy : truthy (inputFilterAt input (facet_key facetConfig)) = true).
  { destruct (inputFilterAt input (facet_key facetConfig)); try discriminate;
      reflexivity. }
  assert (Hnotall : isStr (inputFilterAt input (facet_key facetConfig)) "__all__"
                    = false).
  { destruct (inputFilterAt input (facet_key facetConfig)); try discriminate;
      reflexivity. }
  assert (Hkind : forall name other,
             isFacetType facetConfig name = true ->
             String.eqb name other = false ->
             isFacetType facetConfig other = false).
  { intros name other Hname Hdiff. unfold isFacetType in *.
    destruct (facet_type facetConfig) as [t|]; [|discriminate].
    apply String.eqb_eq in Hname. subst t. exact Hdiff. }
  split; intros Hkinded; unfold facetStep;
    rewrite Htruthy; cbv iota; rewrite Htruthy, Hnotall, Hobject, Htype;
    cbn [negb andb orb truthy isStr String.eqb Ascii.eqb Bool.eqb].
  - rewrite (Hkind "ranges" "field" Hkinded eq_refl),
      (Hkind "ranges" "min-max" Hkinded eq_refl),
      (Hkind "ranges" "filters" Hkinded eq_refl), Hkinded.
    cbn [orb]. unfold matchingRangeQueries. rewrite Hranges.
    destruct (flag (facet_includeMissing facetConfig)); reflexivity.
  - rewrite (Hkind "filters" "field" Hkinded eq_refl),
      (Hkind "filters" "min-max" Hkinded eq_refl), Hkinded.
    cbn [orb]. rewrite Hfilters. reflexivity.
Qed.

Lemma facet_selection_without_match_witness :
  facetStep anySearcher (inputWithFilter "price" (facetSelection "high"))
    VUndefined [] priceFacet
  = [missingQuery (Some "price")].
Proof.
  destruct (facet_selection_without_match anySearcher
              (inputWithFilter "price" (facetSelection "high"))
              VUndefined [] priceFacet eq_refl) as [Hranges _].
  - intros oneValue Hin. vm_compute in Hin. destruct Hin as [<-|[]].
    split.
    + intros range [<-|[]]. reflexivity.
    + intros named [].
  - apply Hranges. reflexivity.
Defined.

(** ** Response processor: cleaned documents *)

Lemma hasOmitted_props this props :
  hasOmitted this (VObj props)
  = existsb (fun kv => omitted this (fst kv) || hasOmitted this (snd kv)) props.
Proof.
  induction props as [|[key value] rest IH]; [reflexivity|].
  cbn [existsb fst snd]. rewrite <- IH. reflexivity.
Qed.

Lemma deepOmitProps_clean this props :
  Forall (fun kv => hasOmitted this (_deepOmit this (snd kv)) = false) props ->
  hasOmitted this (VObj (deepOmitProps this props)) = false.
Proof.
  intros Hall. induction Hall as [|[key value] rest Hvalue _ IH]; [reflexivity|].
  cbn [deepOmitProps]. fold (deepOmitProps this).
  destruct (omitted this key) eqn:Hkey; [exact IH|].
  rewrite hasOmitted_props in *. cbn [existsb fst snd] in *.
  rewrite Hkey, IH. cbn [snd] in Hvalue. rewrite Hvalue. reflexivity.
Qed.

Lemma deepOmit_clean this v : hasOmitted this (_deepOmit this v) = false.
Proof.
  induction v using jsval_nested_ind; try reflexivity.
  - cbn [_deepOmit hasOmitted].
    induction H as [|item items Hitem _ IH]; [reflexivity|].
    cbn [map existsb]. rewrite Hitem. exact IH.
  - apply (deepOmitProps_clean this props). exact H.
Qed.

(** A value without omitted keys is left as it is. *)
Lemma deepOmit_fixes_clean this v :
  hasOmitted this v = false -> _deepOmit this v = v.
Proof.
  induction v using jsval_nested_ind; try reflexivity.
  - intros Hclean. cbn [_deepOmit hasOmitted] in *. f_equal.
    induction H as [|item items Hitem _ IH]; [reflexivity|].
    cbn [map existsb] in *. apply orb_false_iff in Hclean.
    destruct Hclean as [Hi Hrest]. rewrite Hitem by exact Hi.
    rewrite IH by exact Hrest. reflexivity.
  - intros Hclean. rewrite hasOmitted_props in Hclean.
    change (_deepOmit this (VObj props)) with (VObj (deepOmitProps this props)).
    f_equal.
    induction H as [|[key value] rest Hvalue _ IH]; [reflexivity|].
    cbn [existsb fst snd] in *.
    apply orb_false_iff in Hclean. destruct Hclean as [Hhere Hrest].
    apply orb_false_iff in Hhere. destruct Hhere as [Hkey Hinner].
    cbn [deepOmitProps]. fold (deepOmitProps this). rewrite Hkey.
    rewrite Hvalue by exact Hinner. rewrite IH by exact Hrest. reflexivity.
Qed.

Lemma stripStats_clean this value :
  hasOmitted this value = false -> hasOmitted this (stripStats value) = false.
Proof.
  destruct value as [| | | | | |props]; try reflexivity.
  intros Hclean. unfold stripStats. rewrite hasOmitted_props in *.
  induction props as [|[key child] rest IH]; [reflexivity|].
  cbn [map existsb fst snd] in *.
  apply orb_false_iff in Hclean. destruct Hclean as [Hhere Hrest].
  apply orb_false_iff in Hhere. destruct Hhere as [Hkey Hchild].
  rewrite Hkey, (IH Hrest). cbn [orb]. rewrite orb_false_r.
  destruct child as [| | | | | |inner]; try reflexivity.
  unfold omitLastNStats. rewrite hasOmitted_props in *.
  induction inner as [|[k x] more IHm]; [reflexivity|].
  cbn [List.filter existsb fst snd] in *.
  apply orb_false_iff in Hchild. destruct Hchild as [Hx Hmore].
  destruct (negb (String.eqb k "lastNStats")); cbn [existsb fst snd].
  - rewrite Hx. apply IHm, Hmore.
  - apply IHm, Hmore.
Qed.

(** X14.  [_deepOmit] leaves no key it omits at any depth of a value, and
    cleaning a cleaned value changes nothing; a hit that [_processSource]
    returns has a document without such a key, whatever the depth. *)
Theorem cleaned_documents_have_no_internal_keys
    (this : SearcherInternal) :
  (forall v, hasOmitted this (_deepOmit this v) = false)
  /\ (forall v, _deepOmit this (_deepOmit this v) = _deepOmit this v)
  /\ (forall hit hitOut,
        _processSource this hit = Some hitOut ->
        exists document,
          _source hitOut = Some document
          /\ hasOmitted this (VObj document) = false).
Proof.
  split; [apply deepOmit_clean|]. split.
  - intros v. apply deepOmit_fixes_clean, deepOmit_clean.
  - intros hit hitOut. unfold _processSource.
    destruct (_source hit) as [document|]; [|discriminate].
    intros [= <-]. eexists. split; [reflexivity|]. unfold cleanSource.
    pose proof (deepOmit_clean this (VObj document)) as Hclean.
    change (_deepOmit this (VObj document))
      with (VObj (deepOmitProps this document)) in *.
    rewrite hasOmitted_props in *.
    induction (deepOmitProps this document) as [|[key value] rest IH];
      [reflexivity|].
    cbn [map existsb fst snd] in *.
    apply orb_false_iff in Hclean. destruct Hclean as [Hhere Hrest].
    apply orb_false_iff in Hhere. destruct Hhere as [Hkey Hvalue].
    rewrite (IH Hrest), orb_false_r.
    destruct (isStatsKey key); cbn [fst snd]; rewrite Hkey; cbn [orb].
    + apply stripStats_clean, Hvalue.
    + exact Hvalue.
Qed.
(** ** Merge of a batch into an array *)

Lemma arrayLoop_entries this responses :
  forall mergedResult,
    arrayLoop this mergedResult responses
    = foldl arrayPush mergedResult <$> mapM (arrayEntryOf this) responses.
Proof.
  induction responses as [|response rest IH]; intros mergedResult;
    [reflexivity|].
  cbn [arrayLoop mapM]. destruct (arrayEntryOf this response) as [result|];
    [|reflexivity].
  rewrite IH. cbn. destruct (mapM (arrayEntryOf this) rest); reflexivity.
Qed.

Lemma arrayPush_spec (entries : list ArrayEntry) :
  forall mergedResult,
    let final := foldl arrayPush mergedResult entries in
    array_results final = array_results mergedResult ++ entries
    /\ array_totalResults final
       = array_totalResults mergedResult + sumZ (entry_totalResults <$> entries)
    /\ array_count final
       = array_count mergedResult + sumZ (entry_count <$> entries)
    /\ array_queryTimeTaken final
       = match entries with
         | [] => array_queryTimeTaken mergedResult
         | _ => Some S754_nan
         end.
Proof.
  induction entries as [|result rest IH]; intros mergedResult; cbv zeta.
  - cbn [foldl fmap list_fmap]. rewrite app_nil_r. unfold sumZ. cbn [foldr].
    repeat split; lia.
  - cbn [foldl]. destruct (IH (arrayPush mergedResult result))
      as (Hresults & Htotal & Hcount & Htime).
    rewrite Hresults, Htotal, Hcount, Htime.
    unfold sumZ. cbn [arrayPush array_results array_totalResults array_count
      array_queryTimeTaken fmap list_fmap foldr].
    rewrite <- app_assoc. repeat split; try lia.
    destruct rest; reflexivity.
Qed.

Lemma arrayEntryOf_is_Some this response :
  is_Some (arrayEntryOf this response)
  <-> forallb hasDocument (responseHits response) = true.
Proof.
  unfold arrayEntryOf, responseHits.
  destruct (hits response) as [envelope|]; [|split; [reflexivity|eauto]].
  destruct (hits_hits envelope) as [hs|]; [|split; [reflexivity|eauto]].
  cbn [default]. rewrite <- (cliffFrom_is_Some this hs ([], None)).
  fold (cliffLoop this hs).
  destruct (cliffLoop this hs); split; intros [? ?]; try discriminate; eauto.
Qed.

(** X15.  [processMultipleSearchResponseAsArray] throws when the element
    of a response cannot be built, which is when a hit has no document.
    Otherwise it returns one element for
    every response of the batch, at the position of the response and
    whether it has hits or not; the merged total and count are the sums
    over all elements; and the merged time is never a number: it is [NaN]
    as soon as the batch has a response. *)
Theorem array_merge_keeps_every_position
    (this : SearcherInternal) (responses : list Response)
    (input : Input) (apiType : string) :
  (mapM (arrayEntryOf this) responses = None ->
   processMultipleSearchResponseAsArray this (Some responses) input apiType
   = None)
  /\ (is_Some (mapM (arrayEntryOf this) responses)
      <-> Forall (fun response =>
                    forallb hasDocument (responseHits response) = true)
            responses)
  /\ forall entries,
       mapM (arrayEntryOf this) responses = Some entries ->
       exists mergedResult,
         processMultipleSearchResponseAsArray this (Some responses) input
           apiType
         = Some (Some mergedResult)
         /\ array_results mergedResult = entries
         /\ length (array_results mergedResult) = length responses
         /\ (forall i response, responses !! i = Some response ->
               array_results mergedResult !! i = arrayEntryOf this response)
         /\ array_totalResults mergedResult
            = sumZ (entry_totalResults <$> array_results mergedResult)
         /\ array_count mergedResult
            = sumZ (entry_count <$> array_results mergedResult)
         /\ array_queryTimeTaken mergedResult
            = match responses with [] => None | _ => Some S754_nan end.
Proof.
  split; [|split].
  - intros Hnone. unfold processMultipleSearchResponseAsArray.
    rewrite arrayLoop_entries, Hnone. reflexivity.
  - rewrite mapM_is_Some. apply Forall_iff. intros response.
    apply arrayEntryOf_is_Some.
  - intros entries Hentries.
    unfold processMultipleSearchResponseAsArray.
    rewrite arrayLoop_entries, Hentries. cbn [fmap option_fmap option_map].
    eexists. split; [reflexivity|].
    cbn [array_results array_totalResults array_count array_queryTimeTaken].
    match goal with
    | |- context [foldl arrayPush ?init entries] =>
        destruct (arrayPush_spec entries init)
          as (Hresults & Htotal & Hcount & Htime)
    end.
    cbn [array_results array_totalResults array_count array_queryTimeTaken app]
      in *.
    rewrite Hresults, Htotal, Hcount, Htime.
    apply mapM_Some in Hentries.
    repeat split; try lia.
    + symmetry. eapply Forall2_length. exact Hentries.
    + intros i response Hi.
      destruct (Forall2_lookup_l _ _ _ _ _ Hentries Hi) as (entry & -> & Hentry).
      by symmetry.
    + destruct responses; inversion Hentries; reflexivity.
Qed.

(** X16.  The intent cascade classifies the three probes by the totals the
    backend reports for them: for probe responses that carry a list of
    hits the outcome is the classification of their [hits.total], whatever
    the hits are and however many the cliff filter keeps. *)
Theorem probes_classified_by_reported_totals
    (this : SearcherInternal) (brand model variant : Response)
    (input : Input) (apiType : string) (mergedResult : MergedArray) :
  processMultipleSearchResponseAsArray this (Some [brand; model; variant])
    input apiType = Some (Some mergedResult) ->
  (forall response, In response [brand; model; variant] ->
     exists envelope hs,
       hits response = Some envelope /\ hits_hits envelope = Some hs) ->
  classifyProbes mergedResult
  = carDekhoIntentBasedSearch (responseTotal brand) (responseTotal model)
      (responseTotal variant).
Proof.
  intros Hmerge Hlists.
  assert (Htotal : forall response entry,
            In response [brand; model; variant] ->
            arrayEntryOf this response = Some entry ->
            entry_totalResults entry = responseTotal response).
  { intros response entry Hin.
    destruct (Hlists response Hin) as (envelope & hs & Henv & Hhs).
    unfold arrayEntryOf, responseTotal. rewrite Henv, Hhs.
    destruct (cliffLoop this hs); [|discriminate]. by intros [= <-]. }
  unfold processMultipleSearchResponseAsArray in Hmerge.
  cbn [arrayLoop] in Hmerge.
  destruct (arrayEntryOf this brand) as [brandEntry|] eqn:Hbrand;
    [|discriminate].
  destruct (arrayEntryOf this model) as [modelEntry|] eqn:Hmodel;
    [|discriminate].
  destruct (arrayEntryOf this variant) as [variantEntry|] eqn:Hvariant;
    [|discriminate].
  injection Hmerge as <-.
  unfold classifyProbes, probeHits. cbn.
  rewrite (Htotal brand brandEntry), (Htotal model modelEntry),
    (Htotal variant variantEntry) by (simpl; auto).
  reflexivity.
Qed.

Lemma probes_classified_by_reported_totals_witness :
  exists mergedResult,
    classifyProbes mergedResult
    = carDekhoIntentBasedSearch
        (responseTotal (responseOf [] 0 1))
        (responseTotal (responseOf [hitOfScore "swift" 9] 1 1))
        (responseTotal (responseOf [hitOfScore "swift vxi" 7;
                                    hitOfScore "swift zxi" 2] 12 1)).
Proof.
  eexists.
  apply (probes_classified_by_reported_totals anySearcher
           (responseOf [] 0 1)
           (responseOf [hitOfScore "swift" 9] 1 1)
           (responseOf [hitOfScore "swift vxi" 7; hitOfScore "swift zxi" 2] 12 1)
           (inputOf 0 10) "search").
  - vm_compute. reflexivity.
  - intros response [<-|[<-|[<-|[]]]]; eexists _, _; split; reflexivity.
Defined.

(** ** Order of new cars *)

Lemma sortKey_isNumber (result : Hit) : isNumber (sortKey result).
Proof.
  unfold sortKey. pose proof (toNumber_isNumber (_score result)) as Hscore.
  change (doubleOfQ (-1)) with (S754_finite true 4503599627370496 (-52)).
  destruct (toNumber (_score result)); try reflexivity; try discriminate.
  apply binary_round_aux_isNumber. lia.
Qed.

(** What the order of the two keys says about two results. *)
Lemma newCarAtMost_spec (a b : Hit) :
  newCarAtMost a b = true
  <-> rankLt (rank (sortKey a)) (rank (sortKey b))
      \/ (~ rankLt (rank (sortKey b)) (rank (sortKey a))
          /\ modelsFirst a <= modelsFirst b).
Proof.
  unfold newCarAtMost, jsGt.
  rewrite orb_true_iff, andb_true_iff, negb_true_iff, Z.leb_le.
  rewrite (jsLt_rank _ _ (sortKey_isNumber a) (sortKey_isNumber b)).
  pose proof (jsLt_rank _ _ (sortKey_isNumber b) (sortKey_isNumber a)) as Hba.
  fold (jsLt (sortKey b) (sortKey a)).
  destruct (jsLt (sortKey b) (sortKey a)).
  - split; intros [Hlt|[Hnot Hle]]; auto; [discriminate|].
    exfalso. apply Hnot, Hba. reflexivity.
  - split; intros [Hlt|[Hnot Hle]]; auto; right; split; auto.
    intros Hlt. apply Hba in Hlt. discriminate.
Qed.

Lemma newCarAtMost_total (a b : Hit) :
  newCarAtMost a b = false -> newCarAtMost b a = true.
Proof.
  intros Hnot. apply newCarAtMost_spec.
  assert (Hno : ~ (rankLt (rank (sortKey a)) (rank (sortKey b))
                   \/ (~ rankLt (rank (sortKey b)) (rank (sortKey a))
                       /\ modelsFirst a <= modelsFirst b))).
  { intros Hyes. apply newCarAtMost_spec in Hyes. congruence. }
  unfold rankLt in *. lia.
Qed.

Lemma newCarAtMost_trans (a b c : Hit) :
  newCarAtMost a b = true -> newCarAtMost b c = true ->
  newCarAtMost a c = true.
Proof.
  intros Hab Hbc. apply newCarAtMost_spec.
  apply newCarAtMost_spec in Hab, Hbc. unfold rankLt in *. lia.
Qed.

(** X17.  [sortNewCarResults] rearranges the results, and nothing else,
    so that no result comes after a result with a greater first key
    ([-1.0 * _score]) and, among results of equal first keys, a model
    never comes after a result that is no model; results that are in
    this order already stay as they are, so that sorting twice is
    sorting once. *)
Theorem new_car_results_order (results : list Hit) :
  sortNewCarResults results ≡ₚ results
  /\ StronglySorted (fun a b => newCarAtMost a b = true)
       (sortNewCarResults results)
  /\ (forall a b,
        newCarAtMost a b = true
        <-> jsLt (sortKey a) (sortKey b) = true
            \/ (jsLt (sortKey b) (sortKey a) = false
                /\ (_type a = "new_car_model" \/ _type b <> "new_car_model")))
  /\ sortNewCarResults (sortNewCarResults results) = sortNewCarResults results.
Proof.
  unfold sortNewCarResults.
  assert (Hsorted : StronglySorted (fun a b => newCarAtMost a b = true)
                      (stableSort newCarAtMost results)).
  { apply (stableSort_sorted newCarAtMost (fun _ => True)).
    - intros a b _ _. apply newCarAtMost_total.
    - intros a b c _ _ _. apply newCarAtMost_trans.
    - apply Forall_forall. auto. }
  split; [apply stableSort_perm|]. split; [exact Hsorted|]. split.
  - intros a b. unfold newCarAtMost, jsGt, modelsFirst.
    fold (jsLt (sortKey b) (sortKey a)).
    rewrite orb_true_iff, andb_true_iff, negb_true_iff, Z.leb_le.
    destruct (String.eqb_spec (_type a) "new_car_model"),
      (String.eqb_spec (_type b) "new_car_model");
      split; intros [Hlt|[Heq Hrank]]; auto; right; split; auto; try lia.
    destruct Hrank; [congruence|contradiction].
  - apply stableSort_fixes_sorted, StronglySorted_Sorted, Hsorted.
Qed.


(** ** Views *)

Lemma everyPostFilter_functions (predicates : list (jsval -> bool)) doc :
  everyPostFilter (Some <$> predicates) doc
  = Some (forallb (fun predicate => predicate doc) predicates).
Proof.
  induction predicates as [|predicate rest IH]; [reflexivity|].
  cbn [fmap list_fmap everyPostFilter forallb]. fold (fmap (M := list) (@Some (jsval -> bool))).
  destruct (predicate doc); [exact IH|reflexivity].
Qed.

Lemma viewHits_spec (passes : jsval -> bool) postFilters hs :
  (forall doc,
      match postFilters with
      | None => Some true
      | Some predicates => everyPostFilter predicates doc
      end = Some (passes doc)) ->
  forall finalResponse,
    foldl (fun state hit =>
             state ≫= fun current => viewHit postFilters current hit)
          (Some finalResponse) hs
    = Some {| view_totalResults :=
                view_totalResults finalResponse
                + Z.of_nat (length (List.filter passes
                                      (documentOf <$> hs)));
              view_results :=
                view_results finalResponse
                ++ List.filter passes (documentOf <$> hs) |}.
Proof.
  intros Hpasses. induction hs as [|hit hs IH]; intros [count docs].
  - cbn. rewrite app_nil_r. do 2 f_equal. lia.
  - cbn [foldl mbind option_bind]. unfold viewHit at 2. rewrite Hpasses.
    cbn [mbind option_bind fmap list_fmap List.filter].
    destruct (passes (documentOf hit)); rewrite IH; cbn [view_totalResults
      view_results length]; [|reflexivity].
    rewrite <- app_assoc. do 2 f_equal. lia.
Qed.

Lemma viewPages_spec (passes : jsval -> bool) postFilters pages :
  (forall doc,
      match postFilters with
      | None => Some true
      | Some predicates => everyPostFilter predicates doc
      end = Some (passes doc)) ->
  forall finalResponse,
    foldl (fun state page =>
             state ≫= fun current => viewPage postFilters current page)
          (Some finalResponse) pages
    = Some {| view_totalResults :=
                view_totalResults finalResponse
                + Z.of_nat (length (List.filter passes (pageDocuments pages)));
              view_results :=
                view_results finalResponse
                ++ List.filter passes (pageDocuments pages) |}.
Proof.
  intros Hpasses. unfold pageDocuments.
  induction pages as [|page pages IH]; intros [count docs].
  - cbn. rewrite app_nil_r. do 2 f_equal. lia.
  - cbn [foldl mbind option_bind]. unfold viewPage at 2.
    rewrite (viewHits_spec passes postFilters _ Hpasses). rewrite IH.
    cbn [view_totalResults view_results fmap list_fmap concat].
    rewrite fmap_app, List.filter_app, length_app, <- app_assoc.
    rewrite Nat2Z.inj_add, Z.add_assoc. reflexivity.
Qed.

(** X18.  When every post filter that is switched on is a function,
    [view] returns exactly the documents of the pages that pass all of
    them, in the order of the pages, and counts them as its total; a view
    without filter configurations returns every document. *)
Theorem view_returns_the_documents_that_pass
    (filterConfigs : option (list (string * ViewFilter))) (input : Input)
    (pages : list Response) (predicates : list (jsval -> bool)) :
  postFilters filterConfigs input = Some (Some <$> predicates) ->
  let kept :=
    List.filter (fun doc => forallb (fun predicate => predicate doc) predicates)
      (pageDocuments pages) in
  view filterConfigs input pages
  = Some {| view_totalResults := Z.of_nat (length kept); view_results := kept |}
  /\ view None input pages
     = Some {| view_totalResults := Z.of_nat (length (pageDocuments pages));
               view_results := pageDocuments pages |}.
Proof.
  intros Hfilters. cbv zeta. split.
  - unfold view. rewrite Hfilters.
    rewrite (viewPages_spec
               (fun doc => forallb (fun predicate => predicate doc) predicates)).
    + reflexivity.
    + intros doc. apply everyPostFilter_functions.
  - unfold view. cbn [postFilters].
    rewrite (viewPages_spec (fun _ => true)); [|reflexivity].
    cbn [view_totalResults view_results app].
    assert (Hall : forall l : list jsval, List.filter (fun _ => true) l = l).
    { induction l as [|x l IH]; [reflexivity|]. cbn. by rewrite IH. }
    rewrite Hall. reflexivity.
Qed.

Lemma view_returns_the_documents_that_pass_witness :
  view stockFilters (inputOf 0 10) [stockPage]
  = Some {| view_totalResults := 1;
            view_results := [VObj [("stock", VNum 3)]] |}.
Proof.
  destruct (view_returns_the_documents_that_pass stockFilters (inputOf 0 10)
              [stockPage] [inStock] eq_refl) as [Hview _].
  rewrite Hview. reflexivity.
Defined.

Lemma postFilterStep_truthy input1 input2 postFilters entry :
  truthy (inputFilterAt input1 (fst entry))
  = truthy (inputFilterAt input2 (fst entry)) ->
  postFilterStep input1 postFilters entry
  = postFilterStep input2 postFilters entry.
Proof.
  intros Hsame. unfold postFilterStep.
  destruct (negb (isPost (view_config (snd entry)))); [reflexivity|].
  rewrite <- Hsame.
  destruct (truthy (inputFilterAt input1 (fst entry))) eqn:H1.
  - rewrite H1.
    assert (H2 : truthy (inputFilterAt input2 (fst entry)) = true)
      by congruence.
    rewrite H2. reflexivity.
  - reflexivity.
Qed.

(** X19.  A post filter of a view is switched on by a truthy request
    value, and the value itself is never used: two requests that differ
    in a filter value only, both values being truthy, get the same
    documents. *)
Theorem view_ignores_the_value_of_a_post_filter
    (filterConfigs : option (list (string * ViewFilter))) (input : Input)
    (key : string) (value other : jsval) (pages : list Response) :
  truthy value = true ->
  truthy other = true ->
  postFilters filterConfigs (setFilter input key value)
  = postFilters filterConfigs (setFilter input key other)
  /\ view filterConfigs (setFilter input key value) pages
     = view filterConfigs (setFilter input key other) pages.
Proof.
  intros Hvalue Hother.
  assert (Hsame : postFilters filterConfigs (setFilter input key value)
                  = postFilters filterConfigs (setFilter input key other)).
  { destruct filterConfigs as [configs|]; [|reflexivity].
    cbn [postFilters]. f_equal. generalize (@nil (option (jsval -> bool))).
    induction configs as [|entry rest IH]; intros collected; [reflexivity|].
    cbn [foldl].
    rewrite (postFilterStep_truthy (setFilter input key value)
               (setFilter input key other)).
    - apply IH.
    - rewrite !inputFilterAt_setFilter.
      destruct (decide (key = fst entry)); [congruence|reflexivity]. }
  split; [exact Hsame|]. unfold view. rewrite Hsame. reflexivity.
Qed.

Lemma view_ignores_the_value_of_a_post_filter_witness :
  view stockFilters (setFilter (inputOf 0 10) "inStock" (VStr "yes")) [stockPage]
  = view stockFilters (setFilter (inputOf 0 10) "inStock" (VStr "no")) [stockPage].
Proof.
  apply (view_ignores_the_value_of_a_post_filter stockFilters (inputOf 0 10)
           "inStock" (VStr "yes") (VStr "no") [stockPage]); reflexivity.
Defined.
(** ** Query compiler: the sort clause *)

(** X20.  The sort clause of a compiled query.  A request for a field
    that no entry of the sort configuration names is compiled without a
    sort clause, also when entries are flagged as defaults.  A request for
    a field that an entry names as a string sorts by that field, in the
    requested order or else the default order.  Without a requested field
    the clause lists the entries flagged as defaults, which only an entry
    that is an object can be, whatever order the request names; there is
    no clause when no entry is flagged, or when the type has no sort
    configuration. *)
Theorem sort_clause_requested_or_default
    (lowerCase : jsval -> string) (configuredSortOrder : jsval)
    (configs : list SortConfig) (input : Input) :
  let clause := sortClause lowerCase configuredSortOrder (Some configs) input in
  let requested := prop (input_sort input) "field" in
  (truthy requested = true ->
   Forall (fun config => sortMatches requested config = false) configs ->
   clause = VUndefined)
  /\ (forall name before after,
        requested = VStr name -> name <> "" ->
        configs = before ++ SortName name :: after ->
        Forall (fun config => sortMatches requested config = false) before ->
        clause
        = VObj [(name,
                 VStr (sortOrder lowerCase configuredSortOrder
                         (prop (input_sort input) "order")))])
  /\ (truthy requested = false ->
      clause
      = match List.filter isDefaultSort configs with
        | [] => VUndefined
        | defaults =>
            VArr ((fun config =>
                     buildSort lowerCase configuredSortOrder config VUndefined)
                    <$> defaults)
        end)
  /\ sortClause lowerCase configuredSortOrder None input = VUndefined.
Proof.
  cbv zeta.
  assert (Hobject : truthy (prop (input_sort input) "field") = true ->
                    truthy (input_sort input) = true).
  { destruct (input_sort input); try discriminate; reflexivity. }
  assert (Hfind : forall requested before,
            Forall (fun config => sortMatches requested config = false) before ->
            forall rest,
              List.find (sortMatches requested) (before ++ rest)
              = List.find (sortMatches requested) rest).
  { intros requested before Hnone rest.
    induction Hnone as [|config before Hconfig _ IH]; [reflexivity|].
    cbn [app List.find]. rewrite Hconfig. exact IH. }
  split; [|split; [|split]].
  - intros Hrequested Hnone. unfold sortClause, sortPart.
    rewrite (Hobject Hrequested), Hrequested. cbn [andb].
    rewrite <- (app_nil_r configs), (Hfind _ configs Hnone). reflexivity.
  - intros name before after Hname Hne -> Hnone.
    assert (Hrequested : truthy (prop (input_sort input) "field") = true).
    { rewrite Hname. cbn. destruct (String.eqb_spec name ""); [contradiction|].
      reflexivity. }
    unfold sortClause, sortPart.
    rewrite (Hobject Hrequested), Hrequested. cbn [andb].
    rewrite (Hfind _ before Hnone). cbn [List.find sortMatches].
    rewrite Hname. cbn [isStr]. rewrite String.eqb_refl. reflexivity.
  - intros Hrequested. unfold sortClause, sortPart, buildDefaultSort.
    rewrite Hrequested, andb_false_r.
    destruct (List.filter isDefaultSort configs); reflexivity.
  - reflexivity.
Qed.

(** ** Query compiler: aggregations *)

Lemma facetRange_returns ValidationError facetConfig range :
  (exists built, facetRange ValidationError facetConfig range = Returned built)
  <-> wellFormedRange range = true.
Proof.
  unfold facetRange, wellFormedRange.
  destruct (truthy (rangeFacet_key range)); cbn;
    [|split; [intros [? ?]|]; discriminate].
  destruct (truthy (rangeFacet_from range)); cbn; [split; eauto|].
  destruct (truthy (rangeFacet_to range)); cbn;
    [split; eauto|split; [intros [? ?]|]; discriminate].
Qed.

Lemma mapThrowing_returns {A B : Type} (f : A -> Completion B)
    (ok : A -> bool) (l : list A) :
  (forall x, (exists y, f x = Returned y) <-> ok x = true) ->
  (exists built, mapThrowing f l = Returned built) <-> forallb ok l = true.
Proof.
  intros Hok. induction l as [|x l IH]; cbn.
  - split; eauto.
  - specialize (Hok x). destruct (f x) as [y|error].
    + assert (Hx : ok x = true) by (apply Hok; eauto). rewrite Hx. cbn.
      destruct (mapThrowing f l) as [ys|error].
      * split; [intros _; apply IH; eauto|eauto].
      * split; [intros [? ?]; discriminate|].
        intros Hall. apply IH in Hall. destruct Hall. discriminate.
    + assert (Hx : ok x = false).
      { destruct (ok x); [|reflexivity].
        destruct Hok as [_ Hyes]. destruct (Hyes eq_refl). discriminate. }
      rewrite Hx. cbn. split; [intros [? ?]|]; discriminate.
Qed.

Lemma facetValue_returns ValidationError facetConfig :
  truthyStr (declared_type facetConfig) = true ->
  (exists value, facetValue ValidationError facetConfig = Returned value)
  <-> (declaredAs facetConfig "field"
       || declaredAs facetConfig "min-max"
       || (declaredAs facetConfig "ranges"
           && match declared_ranges facetConfig with
              | Some ranges => forallb wellFormedRange ranges
              | None => false
              end)
       || (declaredAs facetConfig "filters"
           && match declared_filters facetConfig with
              | Some _ => true
              | None => false
              end)) = true.
Proof.
  intros _. unfold facetValue, declaredAs.
  destruct (declared_type facetConfig) as [t|];
    [|cbn; split; [intros [? ?]|]; discriminate].
  destruct (String.eqb_spec t "field") as [->|_]; [cbn; split; eauto|].
  destruct (String.eqb_spec t "min-max") as [->|_]; [cbn; split; eauto|].
  destruct (String.eqb_spec t "ranges") as [->|_].
  - cbn. destruct (declared_ranges facetConfig) as [ranges|];
      [|split; [intros [? ?]|]; discriminate].
    rewrite orb_false_r.
    rewrite <- (mapThrowing_returns (facetRange ValidationError facetConfig)
                  wellFormedRange ranges
                  (facetRange_returns ValidationError facetConfig)).
    destruct (mapThrowing _ ranges); split; intros [? ?];
      try discriminate; eauto.
  - destruct (String.eqb_spec t "filters") as [->|_].
    + cbn. destruct (declared_filters facetConfig);
        split; try intros [? ?]; try discriminate; eauto.
    + cbn. split; [intros [? ?]|]; discriminate.
Qed.

Lemma facet_returns ValidationError facetConfig summariesConfig :
  (exists built,
      facet ValidationError facetConfig summariesConfig = Returned built)
  <-> wellFormedFacet facetConfig = true.
Proof.
  unfold facet, wellFormedFacet.
  destruct (truthyStr (declared_key facetConfig)); cbn [negb andb];
    [|split; [intros [? ?]|]; discriminate].
  destruct (truthyStr (declared_type facetConfig)) eqn:Htype; cbn [negb].
  - pose proof (facetValue_returns ValidationError facetConfig Htype) as Hvalue.
    assert (Hbuilt : forall ok : bool,
              ((exists value,
                   facetValue ValidationError facetConfig = Returned value)
               <-> ok = true) ->
              (exists built : string * jsval,
                  match facetValue ValidationError facetConfig with
                  | Returned value =>
                      Returned
                        (fieldKey (declared_key facetConfig),
                         VObj
                           (if nestsFacet facetConfig
                            then
                              [("nested",
                                VObj [("path",
                                       ofOptStr
                                         (declared_nestedPath facetConfig))]);
                               ("aggs",
                                VObj
                                  [("nested",
                                    VObj
                                      match summariesConfig with
                                      | Some summaries =>
                                          assign "aggs"
                                            (VObj (summaryAggregations
                                                     summaries)) value
                                      | None => value
                                      end)])]
                            else
                              match summariesConfig with
                              | Some summaries =>
                                  assign "aggs"
                                    (VObj (summaryAggregations summaries))
                                    value
                              | None => value
                              end))
                  | Thrown error => Thrown error
                  end = Returned built)
              <-> ok = true).
    { intros ok Hok. destruct (facetValue ValidationError facetConfig).
      - split; [intros _; apply Hok; eauto|eauto].
      - split; [intros [? ?]; discriminate|].
        intros Hyes. apply Hok in Hyes. destruct Hyes. discriminate. }
    unfold declaredAs in *.
    destruct (declared_type facetConfig) as [t|]; [|discriminate].
    destruct (truthyStr (declared_field facetConfig)).
    + rewrite !andb_true_r. cbn [negb]. rewrite andb_false_r.
      apply Hbuilt. exact Hvalue.
    + cbn [negb]. rewrite andb_true_r.
      destruct (String.eqb_spec t "field") as [->|_];
        [cbn; split; [intros [? ?]|]; discriminate|].
      destruct (String.eqb_spec t "ranges") as [->|_];
        [cbn; split; [intros [? ?]|]; discriminate|].
      cbn [orb andb] in *. apply Hbuilt. exact Hvalue.
  - unfold declaredAs.
    destruct (declared_type facetConfig) as [t|];
      [|cbn; split; [intros [? ?]|]; discriminate].
    split; [intros [? ?]; discriminate|].
    cbn in Htype. apply negb_false_iff, String.eqb_eq in Htype. subst t.
    cbn. discriminate.
Qed.

Lemma facet_returns_key ValidationError facetConfig summariesConfig built :
  facet ValidationError facetConfig summariesConfig = Returned built ->
  declared_key facetConfig = Some (fst built).
Proof.
  unfold facet.
  destruct (truthyStr (declared_key facetConfig)) eqn:Hkey; [|discriminate].
  cbn [negb].
  destruct (negb (truthyStr (declared_type facetConfig))); [discriminate|].
  destruct (_ && _); [discriminate|].
  destruct (facetValue ValidationError facetConfig); [|discriminate].
  intros [= <-]. cbn [fst].
  destruct (declared_key facetConfig); [reflexivity|discriminate].
Qed.

(** X21.  [facet] builds the aggregation of a facet exactly when the
    facet is well formed, and throws a validation error otherwise: the
    facet has a name and one of the four types; a facet of type [field]
    or [ranges] has a field (a facet of type [min-max] needs none); a
    facet of ranges has its ranges, each with a name and an end that is
    not 0, empty or missing; a facet of filters has its filters.  The
    aggregation is returned under the name of the facet; a facet without
    a name fails with the code [NO_FACET_NAME_DEFINED], and a facet with
    a name and without a type with the code [NO_FACET_TYPE_DEFINED]. *)
Theorem facet_is_built_when_well_formed
    (ValidationError : string -> jsval -> jsval)
    (facetConfig : FacetDeclaration)
    (summariesConfig : option (list (string * AggregationConfig))) :
  ((exists built,
       facet ValidationError facetConfig summariesConfig = Returned built)
   <-> wellFormedFacet facetConfig = true)
  /\ (forall built,
        facet ValidationError facetConfig summariesConfig = Returned built ->
        declared_key facetConfig = Some (fst built))
  /\ (truthyStr (declared_key facetConfig) = false ->
      facet ValidationError facetConfig summariesConfig
      = Thrown (ValidationError "No name defined for facet"
                  (VObj [("details",
                          VObj [("code", VStr "NO_FACET_NAME_DEFINED")])])))
  /\ (truthyStr (declared_key facetConfig) = true ->
      truthyStr (declared_type facetConfig) = false ->
      facet ValidationError facetConfig summariesConfig
      = Thrown (ValidationError "No facet type defined"
                  (VObj [("details",
                          VObj [("code", VStr "NO_FACET_TYPE_DEFINED");
                                ("facetName",
                                 ofOptStr (declared_key facetConfig))])]))).
Proof.
  split; [apply facet_returns|]. split; [apply facet_returns_key|]. split.
  - intros Hkey. unfold facet. rewrite Hkey. reflexivity.
  - intros Hkey Htype. unfold facet. rewrite Hkey, Htype. reflexivity.
Qed.

Lemma facetsLoop_spec ValidationError summariesConfig facetConfigs :
  forall facets,
    ((exists built,
         facetsLoop ValidationError facetConfigs summariesConfig facets
         = Returned built)
     <-> forallb wellFormedFacet facetConfigs = true)
    /\ (forall built,
          facetsLoop ValidationError facetConfigs summariesConfig facets
          = Returned built ->
          (forall key, is_Some (assoc key facets) -> is_Some (assoc key built))
          /\ (forall facetConfig key,
                In facetConfig facetConfigs ->
                declared_key facetConfig = Some key ->
                is_Some (assoc key built))).
Proof.
  induction facetConfigs as [|facetConfig rest IH]; intros facets.
  - cbn. split; [split; eauto|].
    intros built [= <-]. split; [auto|]. intros ? ? [].
  - cbn [facetsLoop forallb].
    pose proof (facet_returns ValidationError facetConfig summariesConfig)
      as Hhere.
    pose proof (facet_returns_key ValidationError facetConfig summariesConfig)
      as Hkey.
    destruct (facet ValidationError facetConfig summariesConfig)
      as [built|error].
    + assert (Hwell : wellFormedFacet facetConfig = true)
        by (apply Hhere; eauto).
      rewrite Hwell. cbn [andb].
      destruct (IH (assign (fst built) (snd built) facets)) as [Hreturns Hkeys].
      split; [exact Hreturns|].
      intros final Hfinal. destruct (Hkeys final Hfinal) as [Hold Hnew].
      split.
      * intros key Hin. apply Hold. rewrite assoc_assign.
        destruct (String.eqb (fst built) key); [eauto|exact Hin].
      * intros config key [<-|Hin] Hname.
        -- apply Hold. rewrite assoc_assign.
           rewrite (Hkey built eq_refl) in Hname. injection Hname as ->.
           rewrite String.eqb_refl. eauto.
        -- eapply Hnew; eassumption.
    + assert (Hill : wellFormedFacet facetConfig = false).
      { destruct (wellFormedFacet facetConfig); [|reflexivity].
        destruct Hhere as [_ Hyes]. destruct (Hyes eq_refl). discriminate. }
      rewrite Hill. cbn [andb].
      split; [split; [intros [? ?]|]; discriminate|]. discriminate.
Qed.

Lemma summaryFacets_keys (summaries : list (string * AggregationConfig)) :
  forall facets key,
    is_Some (assoc key facets)
    \/ (exists entry, In entry summaries
                      /\ key = "__summary_" +:+ fst entry +:+ "__") ->
    is_Some
      (assoc key
         (foldl (fun facets entry =>
                   assign ("__summary_" +:+ fst entry +:+ "__")
                          (facetAggregation (snd entry)) facets)
                facets summaries)).
Proof.
  induction summaries as [|entry rest IH]; intros facets key Hin.
  - destruct Hin as [Hin|(entry & [] & _)]. exact Hin.
  - cbn [foldl]. apply IH.
    destruct Hin as [Hin|(found & [<-|Hin] & ->)].
    + left. rewrite assoc_assign.
      destruct (String.eqb _ key); [eauto|exact Hin].
    + left. rewrite assoc_assign, String.eqb_refl. eauto.
    + right. eauto.
Qed.

(** X22.  The aggregations of a compiled query.  A type without facets
    has none, whatever summaries it declares.  For a type with a list of
    facets they can be built exactly when every facet is well formed; then
    they hold an aggregation under the name of every facet and for every
    summary one under [__summary_<name>__], and the query has no
    aggregations exactly when the list is empty and there is no
    summary. *)
Theorem aggregations_of_a_type
    (ValidationError : string -> jsval -> jsval)
    (facetConfigs : list FacetDeclaration)
    (summariesConfig : option (list (string * AggregationConfig))) :
  aggregations ValidationError None summariesConfig = Returned VUndefined
  /\ ((exists clause,
          aggregations ValidationError (Some facetConfigs) summariesConfig
          = Returned clause)
      <-> forallb wellFormedFacet facetConfigs = true)
  /\ (forall clause,
        aggregations ValidationError (Some facetConfigs) summariesConfig
        = Returned clause ->
        (forall facetConfig key,
            In facetConfig facetConfigs ->
            declared_key facetConfig = Some key ->
            exists aggregation,
              clause <> VUndefined /\ prop clause key = aggregation
              /\ exists props, clause = VObj props
                               /\ assoc key props = Some aggregation)
        /\ (forall summaries entry,
              summariesConfig = Some summaries -> In entry summaries ->
              exists props,
                clause = VObj props
                /\ is_Some (assoc ("__summary_" +:+ fst entry +:+ "__") props))
        /\ (clause = VUndefined
            <-> facetConfigs = [] /\ default [] summariesConfig = [])).
Proof.
  split; [reflexivity|].
  unfold aggregations, facetsPart.
  set (summaryFacets := foldl _ [] (default [] summariesConfig)).
  destruct (facetsLoop_spec ValidationError summariesConfig facetConfigs
              summaryFacets) as [Hreturns Hkeys].
  destruct (facetsLoop ValidationError facetConfigs summariesConfig
              summaryFacets) as [props|error] eqn:Hloop.
  - specialize (Hkeys props eq_refl). destruct Hkeys as [Hold Hnew].
    split; [split; [intros _; apply Hreturns; eauto|eauto]|].
    intros clause Hclause.
    assert (Hvalue : clause = match props with
                              | [] => VUndefined
                              | _ => VObj props
                              end).
    { injection Hclause as <-. destruct props; reflexivity. }
    clear Hclause. subst clause.
    split; [|split].
    + intros facetConfig key Hin Hname.
      destruct (Hnew facetConfig key Hin Hname) as [aggregation Hfound].
      destruct props as [|entry rest]; [discriminate|].
      exists aggregation. split; [discriminate|].
      split; [cbn [prop]; by rewrite Hfound|]. eauto.
    + intros summaries entry -> Hin.
      assert (Hsummary :
        is_Some (assoc ("__summary_" +:+ fst entry +:+ "__") props)).
      { apply Hold. apply summaryFacets_keys. right. eauto. }
      destruct props as [|first rest];
        [destruct Hsummary; discriminate|eauto].
    + split.
      * intros Hnone. destruct props as [|entry rest]; [|discriminate].
        split.
        -- destruct facetConfigs as [|facetConfig others]; [reflexivity|].
           exfalso.
           destruct (facet_returns ValidationError facetConfig summariesConfig)
             as [_ Hbuilt].
           assert (Hall : forallb wellFormedFacet (facetConfig :: others)
                          = true) by (apply Hreturns; eauto).
           cbn [forallb] in Hall.
           apply andb_true_iff in Hall. destruct Hall as [Hwell _].
           destruct (Hbuilt Hwell) as [built Hfacet].
           destruct (Hnew facetConfig (fst built) (or_introl eq_refl)
                       (facet_returns_key _ _ _ _ Hfacet)) as [? ?].
           discriminate.
        -- destruct summariesConfig as [[|entry rest]|]; try reflexivity.
           exfalso.
           assert (Hsummary :
             is_Some (assoc ("__summary_" +:+ fst entry +:+ "__")
                        (@nil (string * jsval)))).
           { apply Hold. unfold summaryFacets. cbn [default].
             apply summaryFacets_keys. right. exists entry.
             split; [left; reflexivity|reflexivity]. }
           destruct Hsummary. discriminate.
      * intros [-> Hnone]. unfold summaryFacets in Hloop. rewrite Hnone in Hloop.
        cbn in Hloop. injection Hloop as <-. reflexivity.
  - split; [|discriminate].
    split; [intros [? ?]; discriminate|].
    intros Hall. apply Hreturns in Hall. destruct Hall. discriminate.
Qed.

